(** * MarchProxy packet filters: a shallow embedding and its properties

    The development embeds the eBPF/XDP programs of the repository as
    Rocq functions over explicit map state and proves the properties the
    specification states about them.

    - [Mach]          fixed-width integer arithmetic of the C code
    - [BpfMap]        [bpf_map_update_elem] on hash maps of bounded size
    - [Packet]        the packet buffer ([data], [data_end]) and header layout
    - [EnhancedRules] proxy-egress/internal/acceleration/xdp/ebpf/enhanced_rules.c
    - [RateLimit]     proxy-egress/ebpf/src/rate_limit.c
    - [Marchproxy]    ebpf/src/marchproxy.c
    - [Filter]        proxy/ebpf/programs/filter.c
    - [EnvoyXdp]      proxy-l7/xdp/envoy_xdp.c
    - [Trace]         runs of the programs over sequences of packets
    - [Reference]     definitions that follow the words of the specification
    - [Samples]       concrete frames and map states

    BPF maps are finite maps ([gmap]); a map value reached through the
    pointer returned by [bpf_map_lookup_elem] is mutated in place, which the
    embedding renders as re-inserting the modified value under its key.
    Every call of [bpf_ktime_get_ns] is an explicit clock argument.  A
    hash map holds at most [max_entries] entries: an insertion into a full
    [BPF_MAP_TYPE_HASH] fails, and an update of a full
    [BPF_MAP_TYPE_LRU_HASH] evicts entries chosen by the kernel, which are
    an explicit argument as well. *)

From Stdlib Require Import ZArith Lia Bool.
From stdpp Require Import gmap list.

Local Open Scope Z_scope.

(* ===================================================================== *)
(** ** Fixed-width integers *)
(* ===================================================================== *)

Module Mach.

(** Values of [__u8], [__u32] and [__u64] are integers reduced
    modulo the width; every arithmetic result is wrapped explicitly. *)
Definition u8  (x : Z) : Z := x mod 2^8.
Definition u32 (x : Z) : Z := x mod 2^32.
Definition u64 (x : Z) : Z := x mod 2^64.

(** C truth value of an [int] used as a condition. *)
Definition nonzero (x : Z) : bool := negb (x =? 0).

End Mach.

(* ===================================================================== *)
(** ** Hash maps of bounded size *)
(* ===================================================================== *)

Module BpfMap.

Section Update.
Context `{Countable K} {V : Type}.

(** A map declared with [max_entries] entries has no free slot. *)
Definition full (max_entries : Z) (m : gmap K V) : bool :=
  max_entries <=? Z.of_nat (size m).

(** [bpf_map_update_elem(&map, &key, &value, BPF_ANY)] on a
    [BPF_MAP_TYPE_HASH]: the value of a present key is replaced, a new key
    is inserted while there is a free slot, and on a full map the call
    fails and leaves the map as it was.  The programs never look at the
    result of the call. *)
Definition hash_update (max_entries : Z) (key : K) (value : V) (m : gmap K V)
    : gmap K V :=
  match m !! key with
  | Some _ => <[key := value]> m
  | None => if full max_entries m then m else <[key := value]> m
  end.

(** The entries under the keys [evicted] are removed. *)
Definition evict (evicted : list K) (m : gmap K V) : gmap K V :=
  foldr delete m evicted.

(** The same call on a [BPF_MAP_TYPE_LRU_HASH]: it does not fail for want
    of room; when the map is full the kernel takes the element it needs
    from entries it evicts, the least recently used ones by its
    bookkeeping.  [evicted] are the keys of the entries evicted by this
    call; they are the kernel's choice, and the properties below hold for
    every choice. *)
Definition lru_update (max_entries : Z) (evicted : list K) (key : K) (value : V)
    (m : gmap K V) : gmap K V :=
  <[key := value]> (if full max_entries m then evict evicted m else m).

End Update.

End BpfMap.

(* ===================================================================== *)
(** ** Packet buffer and header layout *)
(* ===================================================================== *)

Module Packet.
Import Mach.

(** [struct xdp_md] / [struct __sk_buff] as seen by the programs: [mem] is
    the memory starting at [ctx->data], and [data_end] is the offset of
    [ctx->data_end] from [ctx->data].  Pointers into the packet are
    offsets from [data].  [mem] may extend beyond [data_end] (the tailroom
    of the frame); a load beyond the end of [mem] yields 0. *)
Record xdp_md := { mem : list Z; data_end : Z }.

(** A frame whose buffer is exactly its bytes. *)
Definition frame (bytes : list Z) : xdp_md :=
  {| mem := bytes; data_end := Z.of_nat (length bytes) |}.

Definition load_u8 (ctx : xdp_md) (off : Z) : Z :=
  u8 (default 0 (mem ctx !! Z.to_nat off)).

(** [bpf_ntohs] of a [__be16] field: the big-endian value of two bytes. *)
Definition load_be16 (ctx : xdp_md) (off : Z) : Z :=
  load_u8 ctx off * 256 + load_u8 ctx (off + 1).

(** A raw 32-bit load ([ip->saddr], [*(__u32 * )p]) on the little-endian
    BPF target. *)
Definition load_u32 (ctx : xdp_md) (off : Z) : Z :=
  load_u8 ctx off + load_u8 ctx (off + 1) * 2^8
  + load_u8 ctx (off + 2) * 2^16 + load_u8 ctx (off + 3) * 2^24.

(** Sizes and field offsets of the kernel headers
    (linux/if_ether.h, linux/ip.h, linux/tcp.h, linux/udp.h, linux/icmp.h). *)
Definition ETH_HLEN : Z := 14.      (* sizeof(struct ethhdr) *)
Definition ETH_P_IP : Z := 0x0800.
Definition IPHDR_SIZE : Z := 20.    (* sizeof(struct iphdr)  *)
Definition TCPHDR_SIZE : Z := 20.   (* sizeof(struct tcphdr) *)
Definition UDPHDR_SIZE : Z := 8.    (* sizeof(struct udphdr) *)
Definition ICMPHDR_SIZE : Z := 8.   (* sizeof(struct icmphdr) *)

Definition IPPROTO_ICMP : Z := 1.
Definition IPPROTO_TCP : Z := 6.
Definition IPPROTO_UDP : Z := 17.

(** [bpf_ntohs(eth->h_proto)]; [eth->h_proto == bpf_htons(X)] holds exactly
    when this value is [X]. *)
Definition eth_h_proto (ctx : xdp_md) : Z := load_be16 ctx 12.

(** Fields of [struct iphdr] located at offset [ip]. *)
Definition ip_ihl (ctx : xdp_md) (ip : Z) : Z := Z.land (load_u8 ctx ip) 15.
Definition ip_version (ctx : xdp_md) (ip : Z) : Z := Z.shiftr (load_u8 ctx ip) 4.
Definition ip_protocol (ctx : xdp_md) (ip : Z) : Z := load_u8 ctx (ip + 9).
Definition ip_saddr (ctx : xdp_md) (ip : Z) : Z := load_u32 ctx (ip + 12).
Definition ip_daddr (ctx : xdp_md) (ip : Z) : Z := load_u32 ctx (ip + 16).

(** Fields of [struct tcphdr] / [struct udphdr] / [struct icmphdr]. *)
Definition tcp_source (ctx : xdp_md) (tcp : Z) : Z := load_be16 ctx tcp.
Definition tcp_dest (ctx : xdp_md) (tcp : Z) : Z := load_be16 ctx (tcp + 2).
Definition tcp_doff (ctx : xdp_md) (tcp : Z) : Z := Z.shiftr (load_u8 ctx (tcp + 12)) 4.
Definition udp_source (ctx : xdp_md) (udp : Z) : Z := load_be16 ctx udp.
Definition udp_dest (ctx : xdp_md) (udp : Z) : Z := load_be16 ctx (udp + 2).
Definition icmp_type (ctx : xdp_md) (icmp : Z) : Z := load_u8 ctx icmp.

(** XDP and TC return codes (linux/bpf.h, linux/pkt_cls.h). *)
Inductive xdp_action := XDP_ABORTED | XDP_DROP | XDP_PASS | XDP_TX | XDP_REDIRECT.
Inductive tc_action := TC_ACT_OK | TC_ACT_SHOT.

#[global] Instance xdp_action_eq_dec : EqDecision xdp_action.
Proof. solve_decision. Defined.
#[global] Instance tc_action_eq_dec : EqDecision tc_action.
Proof. solve_decision. Defined.

End Packet.

(* ===================================================================== *)
(** ** enhanced_rules.c *)
(* ===================================================================== *)

Module EnhancedRules.
Import Mach Packet BpfMap.

Definition MAX_SERVICES : Z := 1024.
Definition MAX_RATE_LIMIT_ENTRIES : Z := 8192.
Definition MAX_CONNECTION_TRACKING : Z := 16384.

Definition AUTH_NONE : Z := 0.
Definition AUTH_SIMPLE : Z := 1.
Definition AUTH_COMPLEX : Z := 2.

Definition PROTO_TCP : Z := 6.
Definition PROTO_UDP : Z := 17.
Definition PROTO_ICMP : Z := 1.

(** [struct service] *)
Record service := {
  svc_service_id : Z;
  svc_ip_addr : Z;
  svc_port_start : Z;
  svc_port_end : Z;
  svc_protocol : Z;
  svc_auth_type : Z;
  svc_requires_tls : Z;
  svc_allows_websocket : Z;
  svc_rate_limit_pps : Z;
  svc_bandwidth_limit : Z;
  svc_last_activity : Z;
  svc_packet_count : Z;
  svc_byte_count : Z
}.

(** [struct rate_limit_entry] *)
Record rate_limit_entry := {
  rl_key : Z;
  rl_last_update : Z;
  rl_packet_count : Z;
  rl_byte_count : Z;
  rl_tokens : Z
}.

(** [struct connection] *)
Record connection := {
  conn_src_ip : Z;
  conn_dst_ip : Z;
  conn_src_port : Z;
  conn_dst_port : Z;
  conn_protocol : Z;
  conn_state : Z;
  conn_last_activity : Z;
  conn_packets_rx : Z;
  conn_packets_tx : Z;
  conn_bytes_rx : Z;
  conn_bytes_tx : Z;
  conn_service_id : Z
}.

(** [struct auth_token] *)
Record auth_token := {
  tok_token_hash : Z;
  tok_service_id : Z;
  tok_expiry_time : Z;
  tok_permissions : Z
}.

(** [struct global_stats] *)
Record global_stats := {
  total_packets : Z;
  passed_packets : Z;
  dropped_packets : Z;
  redirected_afxdp : Z;
  redirected_go : Z;
  rate_limited : Z;
  auth_failures : Z;
  invalid_packets : Z;
  last_update : Z
}.

(** [hash_connection]: the XOR of the tuple fields, in 32 bits. *)
Definition hash_connection (src_ip dst_ip src_port dst_port proto : Z) : Z :=
  Z.lxor (Z.lxor (Z.lxor (Z.lxor src_ip dst_ip) (u32 (Z.shiftl src_port 16)))
                 dst_port) proto.

(** [check_rate_limit(key, limit_pps)]; [now] is the value its call of
    [get_time_ns] returns and [evicted] the entries the kernel evicts if the
    new entry is written to a full [rate_limit_map], an LRU hash of
    [MAX_RATE_LIMIT_ENTRIES] entries.  An entry that exists is changed
    through the pointer returned by the lookup.  [true] is the C result 1
    (allow). *)
Definition check_rate_limit (key limit_pps now : Z) (evicted : list Z)
    (rate_limit_map : gmap Z rate_limit_entry) : bool * gmap Z rate_limit_entry :=
  match rate_limit_map !! key with
  | None =>
      let new_entry :=
        {| rl_key := key; rl_last_update := now; rl_packet_count := 1;
           rl_byte_count := 0; rl_tokens := u32 (limit_pps - 1) |} in
      (true, lru_update MAX_RATE_LIMIT_ENTRIES evicted key new_entry rate_limit_map)
  | Some entry =>
      let time_diff := u64 (now - rl_last_update entry) in
      let tokens_to_add := u32 (u64 (time_diff * limit_pps) / 1000000000) in
      let entry :=
        if 0 <? tokens_to_add then
          let tokens := u32 (rl_tokens entry + tokens_to_add) in
          let tokens := if limit_pps <? tokens then limit_pps else tokens in
          {| rl_key := rl_key entry; rl_last_update := now;
             rl_packet_count := rl_packet_count entry;
             rl_byte_count := rl_byte_count entry; rl_tokens := tokens |}
        else entry in
      if 0 <? rl_tokens entry then
        (true,
         <[key := {| rl_key := rl_key entry; rl_last_update := rl_last_update entry;
                     rl_packet_count := u32 (rl_packet_count entry + 1);
                     rl_byte_count := rl_byte_count entry;
                     rl_tokens := u32 (rl_tokens entry - 1) |}]> rate_limit_map)
      else (false, <[key := entry]> rate_limit_map)
  end.

(** The scan of [check_authentication] for the literal [Auth]:
    [for (i = 0; i < 24 && payload + i + 8 < data_end; i++)].  The result
    is the value left in [token_hash]: the 32-bit word 20 bytes after the
    first match, or 0 when the loop ends without one.  [fuel] bounds the
    iterations (24 suffice). *)
Definition auth_literal_at (ctx : xdp_md) (p : Z) : bool :=
  (load_u8 ctx p =? 65) && (load_u8 ctx (p + 1) =? 117)
  && (load_u8 ctx (p + 2) =? 116) && (load_u8 ctx (p + 3) =? 104).

Fixpoint scan_auth_header (ctx : xdp_md) (payload : Z) (fuel : nat) (i : Z) : Z :=
  match fuel with
  | O => 0
  | S fuel' =>
      if (i <? 24) && (payload + i + 8 <? data_end ctx) then
        if auth_literal_at ctx (payload + i)
        then load_u32 ctx (payload + i + 20)
        else scan_auth_header ctx payload fuel' (i + 1)
      else 0
  end.

(** [check_authentication(data, data_end, service_id)]; [now] is the value
    of its [get_time_ns] call.  [true] is the C result 1 (accept). *)
Definition check_authentication (ctx : xdp_md) (service_id now : Z)
    (auth_tokens_map : gmap Z auth_token) : bool :=
  if ETH_HLEN >? data_end ctx then false
  else if negb (eth_h_proto ctx =? ETH_P_IP) then true
  else
    let ip := ETH_HLEN in
    if ip + IPHDR_SIZE >? data_end ctx then false
    else if negb (ip_protocol ctx ip =? PROTO_TCP) then true
    else
      let tcp := ip + ip_ihl ctx ip * 4 in
      if tcp + TCPHDR_SIZE >? data_end ctx then false
      else
        let payload := tcp + tcp_doff ctx tcp * 4 in
        if payload + 32 >? data_end ctx then true
        else
          let token_hash := scan_auth_header ctx payload 24 0 in
          if token_hash =? 0 then false
          else
            match auth_tokens_map !! token_hash with
            | None => false
            | Some token =>
                if now >? tok_expiry_time token then false
                else if negb (tok_service_id token =? service_id)
                        && negb (tok_service_id token =? 0) then false
                else true
            end.

(** [update_connection_tracking]; [now] is the value of its
    [get_time_ns] call and [evicted] the entries the kernel evicts if the
    new connection is written to a full [connection_map], an LRU hash of
    [MAX_CONNECTION_TRACKING] entries. *)
Definition update_connection_tracking
    (src_ip dst_ip src_port dst_port protocol service_id packet_len now : Z)
    (evicted : list Z) (connection_map : gmap Z connection) : gmap Z connection :=
  let conn_hash := hash_connection src_ip dst_ip src_port dst_port protocol in
  match connection_map !! conn_hash with
  | None =>
      let new_conn :=
        {| conn_src_ip := src_ip; conn_dst_ip := dst_ip;
           conn_src_port := src_port; conn_dst_port := dst_port;
           conn_protocol := protocol; conn_state := 1;
           conn_last_activity := now;
           conn_packets_rx := 1; conn_packets_tx := 0;
           conn_bytes_rx := packet_len; conn_bytes_tx := 0;
           conn_service_id := service_id |} in
      lru_update MAX_CONNECTION_TRACKING evicted conn_hash new_conn connection_map
  | Some conn =>
      <[conn_hash :=
          {| conn_src_ip := conn_src_ip conn; conn_dst_ip := conn_dst_ip conn;
             conn_src_port := conn_src_port conn; conn_dst_port := conn_dst_port conn;
             conn_protocol := conn_protocol conn; conn_state := conn_state conn;
             conn_last_activity := now;
             conn_packets_rx := u64 (conn_packets_rx conn + 1);
             conn_packets_tx := conn_packets_tx conn;
             conn_bytes_rx := u64 (conn_bytes_rx conn + packet_len);
             conn_bytes_tx := conn_bytes_tx conn;
             conn_service_id := conn_service_id conn |}]> connection_map
  end.

(** [needs_complex_processing(data, data_end, service)]; [None] is the
    NULL service pointer. *)
Definition needs_complex_processing (ctx : xdp_md) (service : option service) : bool :=
  match service with
  | None => true
  | Some service =>
      if nonzero (svc_requires_tls service) then true
      else if nonzero (svc_allows_websocket service) then true
      else if svc_auth_type service =? AUTH_COMPLEX then true
      else if ETH_HLEN >? data_end ctx then true
      else if negb (eth_h_proto ctx =? ETH_P_IP) then false
      else
        let ip := ETH_HLEN in
        if ip + IPHDR_SIZE >? data_end ctx then true
        else if ip_protocol ctx ip =? PROTO_TCP then
          let tcp := ip + ip_ihl ctx ip * 4 in
          if tcp + TCPHDR_SIZE >? data_end ctx then true
          else if tcp_dest ctx tcp =? 443 then true
          else
            let payload := tcp + tcp_doff ctx tcp * 4 in
            if payload + 6 <=? data_end ctx then
              if (load_u8 ctx payload =? 0x16) && (load_u8 ctx (payload + 1) =? 0x03)
              then true
              else if (load_u8 ctx payload =? 71) && (load_u8 ctx (payload + 1) =? 69)
                      && (load_u8 ctx (payload + 2) =? 84)
              then true
              else false
            else false
        else false
  end.

(** The BPF maps of the program.  [stats_map] is an array map with one slot;
    [stats_map] below is the result of looking up key 0 (the pointer
    [stats], [None] for NULL), and [rules_map] is declared by the source but
    never accessed. *)
Record maps := {
  services_map : gmap Z service;
  rate_limit_map : gmap Z rate_limit_entry;
  connection_map : gmap Z connection;
  auth_tokens_map : gmap Z auth_token;
  stats_map : option global_stats;
  afxdp_redirect_map : gmap Z Z
}.

(** The values returned by the successive calls of [get_time_ns], named by
    the calling function. *)
Record ktime := {
  t_process_packet : Z;
  t_check_rate_limit : Z;
  t_update_connection_tracking : Z;
  t_check_authentication : Z
}.

(** The entries the kernel evicts when a [bpf_map_update_elem] of the run
    finds its LRU map full, named by the map. *)
Record evictions := {
  ev_rate_limit_map : list Z;
  ev_connection_map : list Z
}.

(** Updates of one field of [struct global_stats]
    ([__sync_fetch_and_add(&stats->f, 1)]). *)
Definition add_total_packets (now : Z) (st : global_stats) : global_stats :=
  {| total_packets := u64 (total_packets st + 1);
     passed_packets := passed_packets st; dropped_packets := dropped_packets st;
     redirected_afxdp := redirected_afxdp st; redirected_go := redirected_go st;
     rate_limited := rate_limited st; auth_failures := auth_failures st;
     invalid_packets := invalid_packets st; last_update := now |}.

Definition add_passed_packets (st : global_stats) : global_stats :=
  {| total_packets := total_packets st;
     passed_packets := u64 (passed_packets st + 1);
     dropped_packets := dropped_packets st;
     redirected_afxdp := redirected_afxdp st; redirected_go := redirected_go st;
     rate_limited := rate_limited st; auth_failures := auth_failures st;
     invalid_packets := invalid_packets st; last_update := last_update st |}.

Definition add_dropped_packets (st : global_stats) : global_stats :=
  {| total_packets := total_packets st; passed_packets := passed_packets st;
     dropped_packets := u64 (dropped_packets st + 1);
     redirected_afxdp := redirected_afxdp st; redirected_go := redirected_go st;
     rate_limited := rate_limited st; auth_failures := auth_failures st;
     invalid_packets := invalid_packets st; last_update := last_update st |}.

Definition add_redirected_go (st : global_stats) : global_stats :=
  {| total_packets := total_packets st; passed_packets := passed_packets st;
     dropped_packets := dropped_packets st;
     redirected_afxdp := redirected_afxdp st;
     redirected_go := u64 (redirected_go st + 1);
     rate_limited := rate_limited st; auth_failures := auth_failures st;
     invalid_packets := invalid_packets st; last_update := last_update st |}.

Definition add_rate_limited (st : global_stats) : global_stats :=
  {| total_packets := total_packets st; passed_packets := passed_packets st;
     dropped_packets := dropped_packets st;
     redirected_afxdp := redirected_afxdp st; redirected_go := redirected_go st;
     rate_limited := u64 (rate_limited st + 1);
     auth_failures := auth_failures st;
     invalid_packets := invalid_packets st; last_update := last_update st |}.

Definition add_auth_failures (st : global_stats) : global_stats :=
  {| total_packets := total_packets st; passed_packets := passed_packets st;
     dropped_packets := dropped_packets st;
     redirected_afxdp := redirected_afxdp st; redirected_go := redirected_go st;
     rate_limited := rate_limited st;
     auth_failures := u64 (auth_failures st + 1);
     invalid_packets := invalid_packets st; last_update := last_update st |}.

Definition add_invalid_packets (st : global_stats) : global_stats :=
  {| total_packets := total_packets st; passed_packets := passed_packets st;
     dropped_packets := dropped_packets st;
     redirected_afxdp := redirected_afxdp st; redirected_go := redirected_go st;
     rate_limited := rate_limited st; auth_failures := auth_failures st;
     invalid_packets := u64 (invalid_packets st + 1);
     last_update := last_update st |}.

(** The match test of the service loop of [process_packet]. *)
Definition service_matches (service : service) (dst_ip dst_port protocol : Z) : bool :=
  (svc_ip_addr service =? dst_ip)
  && (dst_port >=? svc_port_start service)
  && (dst_port <=? svc_port_end service)
  && ((svc_protocol service =? 0) || (svc_protocol service =? protocol)).

(** The service loop of [process_packet]:
    [for (service_key = 1; service_key <= MAX_SERVICES; service_key++)].
    The result is the pair ([service_key], [service]) at the [break], or [None]
    when the loop ends with [service == NULL]. *)
Fixpoint find_service (services_map : gmap Z service) (dst_ip dst_port protocol : Z)
    (fuel : nat) (service_key : Z) : option (Z * service) :=
  match fuel with
  | O => None
  | S fuel' =>
      if service_key <=? MAX_SERVICES then
        match services_map !! service_key with
        | None => find_service services_map dst_ip dst_port protocol fuel' (service_key + 1)
        | Some service =>
            if service_matches service dst_ip dst_port protocol
            then Some (service_key, service)
            else find_service services_map dst_ip dst_port protocol fuel' (service_key + 1)
        end
      else None
  end.

(** The transport switch of [process_packet]: [None] is [goto drop_invalid],
    [Some None] the [default] case ([goto pass_simple]), and
    [Some (Some (src_port, dst_port))] falls through to the service lookup. *)
Definition parse_transport (ctx : xdp_md) (protocol transport_header : Z)
    : option (option (Z * Z)) :=
  if protocol =? PROTO_TCP then
    if transport_header + TCPHDR_SIZE >? data_end ctx then None
    else Some (Some (tcp_source ctx transport_header, tcp_dest ctx transport_header))
  else if protocol =? PROTO_UDP then
    if transport_header + UDPHDR_SIZE >? data_end ctx then None
    else Some (Some (udp_source ctx transport_header, udp_dest ctx transport_header))
  else if protocol =? PROTO_ICMP then
    if transport_header + ICMPHDR_SIZE >? data_end ctx then None
    else Some (Some (0, icmp_type ctx transport_header))
  else Some None.

(** The points at which [process_packet] leaves its main body: the four
    labels of the source and its two inline returns. *)
Inductive exit_label :=
  | drop_invalid | pass_simple | drop_rate_limited | drop_auth_failure
  | redirect_complex | pass_fast.

#[global] Instance exit_label_eq_dec : EqDecision exit_label.
Proof. solve_decision. Defined.

(** [service->packet_count], [byte_count] and [last_activity] of the
    matched service. *)
Definition touch_service (packet_len now : Z) (svc : service) : service :=
  {| svc_service_id := svc_service_id svc; svc_ip_addr := svc_ip_addr svc;
     svc_port_start := svc_port_start svc; svc_port_end := svc_port_end svc;
     svc_protocol := svc_protocol svc; svc_auth_type := svc_auth_type svc;
     svc_requires_tls := svc_requires_tls svc;
     svc_allows_websocket := svc_allows_websocket svc;
     svc_rate_limit_pps := svc_rate_limit_pps svc;
     svc_bandwidth_limit := svc_bandwidth_limit svc;
     svc_last_activity := now;
     svc_packet_count := u64 (svc_packet_count svc + 1);
     svc_byte_count := u64 (svc_byte_count svc + packet_len) |}.

(** The main body of [process_packet] up to the jump to a label (or to one
    of the two inline returns), with the map state at that point. *)
Definition process_packet_body (ctx : xdp_md) (clk : ktime) (ev : evictions) (s : maps)
    : exit_label * maps :=
  let packet_len := u32 (data_end ctx) in
  let now := t_process_packet clk in
  let stats := add_total_packets now <$> stats_map s in
  let s0 := {| services_map := services_map s; rate_limit_map := rate_limit_map s;
               connection_map := connection_map s;
               auth_tokens_map := auth_tokens_map s; stats_map := stats;
               afxdp_redirect_map := afxdp_redirect_map s |} in
  if ETH_HLEN >? data_end ctx then (drop_invalid, s0)
  else if negb (eth_h_proto ctx =? ETH_P_IP) then (pass_simple, s0)
  else
    let ip := ETH_HLEN in
    if ip + IPHDR_SIZE >? data_end ctx then (drop_invalid, s0)
    else
      let src_ip := ip_saddr ctx ip in
      let dst_ip := ip_daddr ctx ip in
      let protocol := ip_protocol ctx ip in
      let transport_header := ip + ip_ihl ctx ip * 4 in
      match parse_transport ctx protocol transport_header with
      | None => (drop_invalid, s0)
      | Some None => (pass_simple, s0)
      | Some (Some (src_port, dst_port)) =>
          match find_service (services_map s) dst_ip dst_port protocol
                  (Z.to_nat MAX_SERVICES) 1 with
          | None => (pass_simple, s0)
          | Some (service_key, service) =>
              let services := <[service_key := touch_service packet_len now service]>
                                (services_map s) in
              let '(allowed, rate_map) :=
                if svc_rate_limit_pps service >? 0
                then check_rate_limit src_ip (svc_rate_limit_pps service)
                       (t_check_rate_limit clk) (ev_rate_limit_map ev) (rate_limit_map s)
                else (true, rate_limit_map s) in
              if negb allowed then
                (drop_rate_limited,
                 {| services_map := services; rate_limit_map := rate_map;
                    connection_map := connection_map s;
                    auth_tokens_map := auth_tokens_map s;
                    stats_map := add_rate_limited <$> stats;
                    afxdp_redirect_map := afxdp_redirect_map s |})
              else
                let conns :=
                  update_connection_tracking src_ip dst_ip src_port dst_port
                    protocol service_key packet_len
                    (t_update_connection_tracking clk) (ev_connection_map ev)
                    (connection_map s) in
                let s1 stats' :=
                  {| services_map := services; rate_limit_map := rate_map;
                     connection_map := conns;
                     auth_tokens_map := auth_tokens_map s;
                     stats_map := stats';
                     afxdp_redirect_map := afxdp_redirect_map s |} in
                if (svc_auth_type service =? AUTH_SIMPLE)
                   && negb (check_authentication ctx service_key
                              (t_check_authentication clk) (auth_tokens_map s))
                then (drop_auth_failure, s1 (add_auth_failures <$> stats))
                else if needs_complex_processing ctx (Some service)
                then (redirect_complex, s1 stats)
                else (pass_fast, s1 stats)
          end
      end.

(** [bpf_redirect_map(&afxdp_redirect_map, queue_id, 0)]: [XDP_REDIRECT]
    when the queue has a socket, otherwise the low bits of the flags
    argument, here 0 = [XDP_ABORTED]. *)
Definition bpf_redirect_map (afxdp_redirect_map : gmap Z Z) (queue_id : Z) : xdp_action :=
  match afxdp_redirect_map !! queue_id with
  | Some _ => XDP_REDIRECT
  | None => XDP_ABORTED
  end.

Definition with_stats (f : global_stats -> global_stats) (s : maps) : maps :=
  {| services_map := services_map s; rate_limit_map := rate_limit_map s;
     connection_map := connection_map s; auth_tokens_map := auth_tokens_map s;
     stats_map := f <$> stats_map s;
     afxdp_redirect_map := afxdp_redirect_map s |}.

(** [process_packet]: the body followed by the code at the label reached. *)
Definition process_packet (ctx : xdp_md) (clk : ktime) (ev : evictions) (s : maps)
    : xdp_action * maps :=
  let '(label, s') := process_packet_body ctx clk ev s in
  match label with
  | drop_rate_limited => (XDP_DROP, with_stats add_dropped_packets s')
  | drop_auth_failure => (XDP_DROP, with_stats add_dropped_packets s')
  | drop_invalid =>
      (XDP_DROP, with_stats (fun st => add_invalid_packets (add_dropped_packets st)) s')
  | pass_simple => (XDP_PASS, with_stats add_passed_packets s')
  | redirect_complex =>
      (bpf_redirect_map (afxdp_redirect_map s') 0, with_stats add_redirected_go s')
  | pass_fast => (XDP_PASS, with_stats add_passed_packets s')
  end.

(** [marchproxy_xdp_main] *)
Definition marchproxy_xdp_main (ctx : xdp_md) (clk : ktime) (ev : evictions) (s : maps)
    : xdp_action * maps :=
  process_packet ctx clk ev s.

End EnhancedRules.

(* ===================================================================== *)
(** ** rate_limit.c *)
(* ===================================================================== *)

Module RateLimit.
Import Mach Packet BpfMap.

(** [struct rate_limit_config] *)
Record rate_limit_config := {
  enabled : Z;
  global_pps_limit : Z;
  per_ip_pps_limit : Z;
  window_size_ns : Z;
  burst_allowance : Z;
  action : Z
}.

(** [struct ip_rate_state] *)
Record ip_rate_state := {
  ip_last_update_ns : Z;
  ip_packet_count : Z;
  ip_total_packets : Z;
  ip_dropped_packets : Z;
  burst_tokens : Z
}.

(** [struct global_rate_state] *)
Record global_rate_state := {
  g_last_update_ns : Z;
  g_packet_count : Z;
  g_total_packets : Z;
  g_dropped_packets : Z
}.

(** [struct rate_limit_stats] *)
Record rate_limit_stats := {
  total_packets : Z;
  passed_packets : Z;
  dropped_packets : Z;
  rate_limited_ips : Z;
  global_drops : Z;
  per_ip_drops : Z
}.

(** The BPF maps of the program.  The four array maps have one slot each;
    the field is the result of looking up key 0 ([None] for NULL). *)
Record maps := {
  rate_limit_config_map : option rate_limit_config;
  ip_rate_state_map : gmap Z ip_rate_state;
  global_rate_state_map : option global_rate_state;
  rate_limit_stats_map : option rate_limit_stats;
  enterprise_license_map : option Z
}.

(** [parse_ipv4]: [None] is the result -1, [Some (src_ip, dst_ip)] is 0. *)
Definition parse_ipv4 (ctx : xdp_md) : option (Z * Z) :=
  if ETH_HLEN >? data_end ctx then None
  else if negb (eth_h_proto ctx =? ETH_P_IP) then None
  else
    let ip := ETH_HLEN in
    if ip + IPHDR_SIZE >? data_end ctx then None
    else Some (ip_saddr ctx ip, ip_daddr ctx ip).

(** [max_entries] of [ip_rate_state_map], an LRU hash. *)
Definition IP_RATE_STATE_ENTRIES : Z := 65536.

(** [check_ip_rate_limit(config, src_ip, now_ns)]; every path ends in a
    [bpf_map_update_elem] of the source's state, and [evicted] are the
    entries the kernel evicts at that call if the map is full. *)
Definition check_ip_rate_limit (config : rate_limit_config) (src_ip now_ns : Z)
    (evicted : list Z) (ip_rate_state_map : gmap Z ip_rate_state)
    : xdp_action * gmap Z ip_rate_state :=
  match ip_rate_state_map !! src_ip with
  | None =>
      let new_state :=
        {| ip_last_update_ns := now_ns; ip_packet_count := 1; ip_total_packets := 1;
           ip_dropped_packets := 0; burst_tokens := burst_allowance config |} in
      (XDP_PASS, lru_update IP_RATE_STATE_ENTRIES evicted src_ip new_state ip_rate_state_map)
  | Some state =>
      let elapsed_ns := u64 (now_ns - ip_last_update_ns state) in
      let state :=
        if elapsed_ns >=? window_size_ns config then
          {| ip_last_update_ns := now_ns; ip_packet_count := 1;
             ip_total_packets := ip_total_packets state;
             ip_dropped_packets := ip_dropped_packets state;
             burst_tokens := burst_allowance config |}
        else
          {| ip_last_update_ns := ip_last_update_ns state;
             ip_packet_count := u32 (ip_packet_count state + 1);
             ip_total_packets := ip_total_packets state;
             ip_dropped_packets := ip_dropped_packets state;
             burst_tokens := burst_tokens state |} in
      let total := u32 (ip_total_packets state + 1) in
      if ip_packet_count state >? per_ip_pps_limit config then
        if burst_tokens state >? 0 then
          (XDP_PASS,
           lru_update IP_RATE_STATE_ENTRIES evicted src_ip
             {| ip_last_update_ns := ip_last_update_ns state;
                ip_packet_count := ip_packet_count state;
                ip_total_packets := total;
                ip_dropped_packets := ip_dropped_packets state;
                burst_tokens := u32 (burst_tokens state - 1) |}
             ip_rate_state_map)
        else
          (XDP_DROP,
           lru_update IP_RATE_STATE_ENTRIES evicted src_ip
             {| ip_last_update_ns := ip_last_update_ns state;
                ip_packet_count := ip_packet_count state;
                ip_total_packets := total;
                ip_dropped_packets := u32 (ip_dropped_packets state + 1);
                burst_tokens := burst_tokens state |}
             ip_rate_state_map)
      else
        (XDP_PASS,
         lru_update IP_RATE_STATE_ENTRIES evicted src_ip
           {| ip_last_update_ns := ip_last_update_ns state;
              ip_packet_count := ip_packet_count state;
              ip_total_packets := total;
              ip_dropped_packets := ip_dropped_packets state;
              burst_tokens := burst_tokens state |}
           ip_rate_state_map)
  end.

(** [check_global_rate_limit(config, now_ns)] on the slot of
    [global_rate_state_map]. *)
Definition check_global_rate_limit (config : rate_limit_config) (now_ns : Z)
    (global_rate_state_map : option global_rate_state)
    : xdp_action * option global_rate_state :=
  match global_rate_state_map with
  | None =>
      (XDP_PASS,
       Some {| g_last_update_ns := now_ns; g_packet_count := 1;
               g_total_packets := 1; g_dropped_packets := 0 |})
  | Some state =>
      let elapsed_ns := u64 (now_ns - g_last_update_ns state) in
      let state :=
        if elapsed_ns >=? window_size_ns config then
          {| g_last_update_ns := now_ns; g_packet_count := 1;
             g_total_packets := g_total_packets state;
             g_dropped_packets := g_dropped_packets state |}
        else
          {| g_last_update_ns := g_last_update_ns state;
             g_packet_count := u32 (g_packet_count state + 1);
             g_total_packets := g_total_packets state;
             g_dropped_packets := g_dropped_packets state |} in
      let total := u32 (g_total_packets state + 1) in
      if g_packet_count state >? global_pps_limit config then
        (XDP_DROP,
         Some {| g_last_update_ns := g_last_update_ns state;
                 g_packet_count := g_packet_count state;
                 g_total_packets := total;
                 g_dropped_packets := u32 (g_dropped_packets state + 1) |})
      else
        (XDP_PASS,
         Some {| g_last_update_ns := g_last_update_ns state;
                 g_packet_count := g_packet_count state;
                 g_total_packets := total;
                 g_dropped_packets := g_dropped_packets state |})
  end.

(** [struct rate_limit_stats new_stats = {0}] of [update_stats]. *)
Definition new_stats : rate_limit_stats :=
  {| total_packets := 0; passed_packets := 0; dropped_packets := 0;
     rate_limited_ips := 0; global_drops := 0; per_ip_drops := 0 |}.

(** [update_stats(action, global_drop, ip_drop)] on the slot of
    [rate_limit_stats_map]; a NULL lookup starts from the zeroed
    [new_stats], and the result is written back with
    [bpf_map_update_elem]. *)
Definition update_stats (act : xdp_action) (global_drop ip_drop : bool)
    (rate_limit_stats_map : option rate_limit_stats) : option rate_limit_stats :=
  let stats := default new_stats rate_limit_stats_map in
  let total := u64 (total_packets stats + 1) in
  if decide (act = XDP_DROP) then
    Some {| total_packets := total;
            passed_packets := passed_packets stats;
            dropped_packets := u64 (dropped_packets stats + 1);
            rate_limited_ips := rate_limited_ips stats;
            global_drops := if global_drop then u64 (global_drops stats + 1)
                            else global_drops stats;
            per_ip_drops := if ip_drop then u64 (per_ip_drops stats + 1)
                            else per_ip_drops stats |}
  else
    Some {| total_packets := total;
            passed_packets := u64 (passed_packets stats + 1);
            dropped_packets := dropped_packets stats;
            rate_limited_ips := rate_limited_ips stats;
            global_drops := global_drops stats;
            per_ip_drops := per_ip_drops stats |}.

(** [xdp_rate_limiter]; [now_ns] is the value of [bpf_ktime_get_ns] and
    [evicted] the entries evicted from a full [ip_rate_state_map]. *)
Definition xdp_rate_limiter (ctx : xdp_md) (now_ns : Z) (evicted : list Z) (s : maps)
    : xdp_action * maps :=
  match enterprise_license_map s with
  | None => (XDP_PASS, s)
  | Some enterprise_enabled =>
      if enterprise_enabled =? 0 then (XDP_PASS, s)
      else
        match rate_limit_config_map s with
        | None => (XDP_PASS, s)
        | Some config =>
            if enabled config =? 0 then (XDP_PASS, s)
            else
              match parse_ipv4 ctx with
              | None => (XDP_PASS, s)
              | Some (src_ip, dst_ip) =>
                  let '(act, global_drop, gstate) :=
                    if global_pps_limit config >? 0 then
                      let '(a, g) := check_global_rate_limit config now_ns
                                       (global_rate_state_map s) in
                      (a, bool_decide (a = XDP_DROP), g)
                    else (XDP_PASS, false, global_rate_state_map s) in
                  if global_drop then
                    (act,
                     {| rate_limit_config_map := rate_limit_config_map s;
                        ip_rate_state_map := ip_rate_state_map s;
                        global_rate_state_map := gstate;
                        rate_limit_stats_map :=
                          update_stats act true false (rate_limit_stats_map s);
                        enterprise_license_map := enterprise_license_map s |})
                  else
                    let '(act, ip_drop, ipmap) :=
                      if per_ip_pps_limit config >? 0 then
                        let '(a, m) := check_ip_rate_limit config src_ip now_ns evicted
                                         (ip_rate_state_map s) in
                        (a, bool_decide (a = XDP_DROP), m)
                      else (act, false, ip_rate_state_map s) in
                    (act,
                     {| rate_limit_config_map := rate_limit_config_map s;
                        ip_rate_state_map := ipmap;
                        global_rate_state_map := gstate;
                        rate_limit_stats_map :=
                          update_stats act false ip_drop (rate_limit_stats_map s);
                        enterprise_license_map := enterprise_license_map s |})
              end
        end
  end.

End RateLimit.

(* ===================================================================== *)
(** ** marchproxy.c (TC ingress filter) *)
(* ===================================================================== *)

Module Marchproxy.
Import Mach Packet BpfMap.

Definition MAX_MAPPINGS : Z := 512.
Definition MAX_PORTS : Z := 16.

(** [max_entries] of [connections_map], a plain hash. *)
Definition CONNECTIONS_ENTRIES : Z := 65536.

(** [struct service] *)
Record service := {
  svc_id : Z;
  svc_ip_addr : Z;
  svc_port : Z;
  svc_auth_required : Z;
  svc_auth_type : Z;
  svc_flags : Z
}.

(** [struct mapping]; the three arrays are lists indexed from 0. *)
Record mapping := {
  map_id : Z;
  source_services : list Z;
  dest_services : list Z;
  ports : list Z;
  protocols : Z;
  map_auth_required : Z;
  priority : Z;
  port_count : Z;
  src_count : Z;
  dest_count : Z
}.

(** [struct connection_key] as a tuple
    (src_ip, dst_ip, src_port, dst_port, protocol). *)
Definition connection_key : Type := Z * Z * Z * Z * Z.

(** [struct connection_value] *)
Record connection_value := {
  packets : Z;
  bytes : Z;
  timestamp : Z;
  cv_service_id : Z;
  authenticated : Z
}.

(** [struct proxy_stats] *)
Record proxy_stats := {
  total_packets : Z;
  total_bytes : Z;
  tcp_packets : Z;
  udp_packets : Z;
  icmp_packets : Z;
  dropped_packets : Z;
  forwarded_packets : Z;
  auth_required : Z;
  fallback_to_userspace : Z
}.

Record maps := {
  services_map : gmap Z service;
  mappings_map : gmap Z mapping;
  connections_map : gmap connection_key connection_value;
  stats_map : option proxy_stats
}.

(** [parse_eth_hdr]: [None] is -1, otherwise the header size and
    [eth_proto]. *)
Definition parse_eth_hdr (skb : xdp_md) : option (Z * Z) :=
  if ETH_HLEN >? data_end skb then None
  else Some (ETH_HLEN, eth_h_proto skb).

(** [parse_ip_hdr]: [None] is -1, otherwise [ip->ihl * 4]; the header
    pointer it stores is [offset]. *)
Definition parse_ip_hdr (skb : xdp_md) (offset : Z) : option Z :=
  let ip := offset in
  if ip + IPHDR_SIZE >? data_end skb then None
  else if negb (ip_version skb ip =? 4) then None
  else if ip_ihl skb ip <? 5 then None
  else Some (ip_ihl skb ip * 4).

(** The port loop of [find_mapping]:
    [for (i = 0; i < mapping->port_count && i < MAX_PORTS; i++)]. *)
Fixpoint port_matched (m : mapping) (dst_port : Z) (fuel : nat) (i : Z) : bool :=
  match fuel with
  | O => false
  | S fuel' =>
      if (i <? port_count m) && (i <? MAX_PORTS) then
        if default 0 (ports m !! Z.to_nat i) =? dst_port then true
        else port_matched m dst_port fuel' (i + 1)
      else false
  end.

(** [find_mapping]: the loop over [map_id] from 1 to [MAX_MAPPINGS]. *)
Fixpoint find_mapping_from (mappings_map : gmap Z mapping) (dst_port protocol : Z)
    (fuel : nat) (map_id : Z) : option mapping :=
  match fuel with
  | O => None
  | S fuel' =>
      if map_id <=? MAX_MAPPINGS then
        match mappings_map !! map_id with
        | None => find_mapping_from mappings_map dst_port protocol fuel' (map_id + 1)
        | Some m =>
            let proto_mask :=
              if protocol =? IPPROTO_TCP then 1
              else if protocol =? IPPROTO_UDP then 2
              else if protocol =? IPPROTO_ICMP then 4 else 0 in
            if Z.land (protocols m) proto_mask =? 0
            then find_mapping_from mappings_map dst_port protocol fuel' (map_id + 1)
            else if port_matched m dst_port (Z.to_nat MAX_PORTS) 0 then Some m
            else find_mapping_from mappings_map dst_port protocol fuel' (map_id + 1)
        end
      else None
  end.

Definition find_mapping (mappings_map : gmap Z mapping) (dst_ip dst_port protocol : Z)
    : option mapping :=
  find_mapping_from mappings_map dst_port protocol (Z.to_nat MAX_MAPPINGS) 1.

(** [find_dest_service] *)
Definition find_dest_service (services_map : gmap Z service) (m : option mapping)
    : option service :=
  match m with
  | None => None
  | Some m =>
      if dest_count m =? 0 then None
      else services_map !! default 0 (dest_services m !! 0%nat)
  end.

(** [update_stats(bytes, protocol, action)] *)
Definition update_stats (nbytes protocol act : Z) (stats_map : option proxy_stats)
    : option proxy_stats :=
  match stats_map with
  | None => None
  | Some stats =>
      Some {| total_packets := u64 (total_packets stats + 1);
              total_bytes := u64 (total_bytes stats + nbytes);
              tcp_packets := if protocol =? IPPROTO_TCP
                             then u64 (tcp_packets stats + 1) else tcp_packets stats;
              udp_packets := if negb (protocol =? IPPROTO_TCP) && (protocol =? IPPROTO_UDP)
                             then u64 (udp_packets stats + 1) else udp_packets stats;
              icmp_packets := if negb (protocol =? IPPROTO_TCP)
                                 && negb (protocol =? IPPROTO_UDP)
                                 && (protocol =? IPPROTO_ICMP)
                              then u64 (icmp_packets stats + 1) else icmp_packets stats;
              dropped_packets := if act =? 0 then u64 (dropped_packets stats + 1)
                                 else dropped_packets stats;
              forwarded_packets := if act =? 1 then u64 (forwarded_packets stats + 1)
                                   else forwarded_packets stats;
              auth_required := auth_required stats;
              fallback_to_userspace := if act =? 2
                                       then u64 (fallback_to_userspace stats + 1)
                                       else fallback_to_userspace stats |}
  end.

Definition with_stats (st : option proxy_stats) (s : maps) : maps :=
  {| services_map := services_map s; mappings_map := mappings_map s;
     connections_map := connections_map s; stats_map := st |}.

(** [marchproxy_ingress]; [skb_len] is [skb->len] and [now] the value of
    [bpf_ktime_get_ns].  A connection that exists is changed through the
    pointer returned by the lookup; a new one is written with
    [bpf_map_update_elem], whose result is ignored. *)
Definition marchproxy_ingress (skb : xdp_md) (skb_len now : Z) (s : maps)
    : tc_action * maps :=
  match parse_eth_hdr skb with
  | None => (TC_ACT_OK, s)
  | Some (eth_hdr_len, eth_proto) =>
      if negb (eth_proto =? ETH_P_IP) then (TC_ACT_OK, s)
      else
        match parse_ip_hdr skb eth_hdr_len with
        | None => (TC_ACT_OK, s)
        | Some ip_hdr_len =>
            let ip := eth_hdr_len in
            let src_ip := ip_saddr skb ip in
            let dst_ip := ip_daddr skb ip in
            let protocol := ip_protocol skb ip in
            let transport_offset := eth_hdr_len + ip_hdr_len in
            let ports_opt :=
              if protocol =? IPPROTO_TCP then
                if transport_offset + TCPHDR_SIZE >? data_end skb then None
                else Some (tcp_source skb transport_offset, tcp_dest skb transport_offset)
              else if protocol =? IPPROTO_UDP then
                if transport_offset + UDPHDR_SIZE >? data_end skb then None
                else Some (udp_source skb transport_offset, udp_dest skb transport_offset)
              else Some (0, 0) in
            match ports_opt with
            | None => (TC_ACT_OK, s)
            | Some (src_port, dst_port) =>
                match find_mapping (mappings_map s) dst_ip dst_port protocol with
                | None =>
                    (TC_ACT_SHOT, with_stats (update_stats skb_len protocol 0 (stats_map s)) s)
                | Some m =>
                    match find_dest_service (services_map s) (Some m) with
                    | None =>
                        (TC_ACT_SHOT,
                         with_stats (update_stats skb_len protocol 0 (stats_map s)) s)
                    | Some dest_service =>
                        if nonzero (map_auth_required m)
                           || nonzero (svc_auth_required dest_service)
                        then
                          (TC_ACT_OK,
                           with_stats (update_stats skb_len protocol 2 (stats_map s)) s)
                        else
                          let conn_key := (src_ip, dst_ip, src_port, dst_port, protocol) in
                          let conns :=
                            match connections_map s !! conn_key with
                            | Some conn_val =>
                                <[conn_key :=
                                    {| packets := u64 (packets conn_val + 1);
                                       bytes := u64 (bytes conn_val + skb_len);
                                       timestamp := now;
                                       cv_service_id := cv_service_id conn_val;
                                       authenticated := authenticated conn_val |}]>
                                  (connections_map s)
                            | None =>
                                hash_update CONNECTIONS_ENTRIES conn_key
                                  {| packets := 1; bytes := skb_len; timestamp := now;
                                     cv_service_id := svc_id dest_service;
                                     authenticated := 0 |}
                                  (connections_map s)
                            end in
                          (TC_ACT_OK,
                           {| services_map := services_map s;
                              mappings_map := mappings_map s;
                              connections_map := conns;
                              stats_map := update_stats skb_len protocol 1 (stats_map s) |})
                    end
                end
            end
        end
  end.

(** [marchproxy_egress]; [skb_len] is [skb->len]. *)
Definition marchproxy_egress (skb : xdp_md) (skb_len : Z) (s : maps) : tc_action * maps :=
  match parse_eth_hdr skb with
  | None => (TC_ACT_OK, s)
  | Some (eth_hdr_len, eth_proto) =>
      if negb (eth_proto =? ETH_P_IP) then (TC_ACT_OK, s)
      else
        match parse_ip_hdr skb eth_hdr_len with
        | None => (TC_ACT_OK, s)
        | Some ip_hdr_len =>
            (TC_ACT_OK,
             with_stats (update_stats skb_len (ip_protocol skb eth_hdr_len) 1 (stats_map s))
               s)
        end
  end.

End Marchproxy.

(* ===================================================================== *)
(** ** filter.c (simple XDP filter) *)
(* ===================================================================== *)

Module Filter.
Import Mach Packet.

(** [struct rule_key] as a tuple (src_ip, dst_ip, dst_port, protocol); the
    [pad] byte stays 0. *)
Definition rule_key : Type := Z * Z * Z * Z.

(** [struct rule_value] *)
Record rule_value := {
  rule_action : Z;
  auth_required : Z;
  redirect_port : Z;
  redirect_ip : Z;
  rule_id : Z
}.

Definition STAT_PACKETS_PROCESSED : Z := 0.
Definition STAT_PACKETS_ALLOWED : Z := 1.
Definition STAT_PACKETS_DROPPED : Z := 2.
Definition STAT_PACKETS_REDIRECTED : Z := 3.
Definition STAT_PACKETS_TO_USERSPACE : Z := 4.
Definition STAT_AUTH_REQUIRED : Z := 5.

Record maps := {
  source_allow_map : gmap Z Z;
  proxy_rules : gmap rule_key rule_value;
  stats_map : gmap Z Z
}.

(** [update_stat(key)] *)
Definition update_stat (key : Z) (s : maps) : maps :=
  match stats_map s !! key with
  | Some counter =>
      {| source_allow_map := source_allow_map s; proxy_rules := proxy_rules s;
         stats_map := <[key := u64 (counter + 1)]> (stats_map s) |}
  | None => s
  end.

(** [parse_eth]: [None] is -1, otherwise the header size and [eth_type]. *)
Definition parse_eth (ctx : xdp_md) : option (Z * Z) :=
  if ETH_HLEN >? data_end ctx then None
  else Some (ETH_HLEN, eth_h_proto ctx).

(** [parse_ip(data + offset, data_end, &iph)]: [None] is -1, otherwise
    [ip_len]. *)
Definition parse_ip (ctx : xdp_md) (ip : Z) : option Z :=
  if ip + IPHDR_SIZE >? data_end ctx then None
  else if negb (ip_version ctx ip =? 4) || (ip_ihl ctx ip <? 5) then None
  else
    let ip_len := ip_ihl ctx ip * 4 in
    if ip + ip_len >? data_end ctx then None
    else Some ip_len.

(** [marchproxy_filter] *)
Definition marchproxy_filter (ctx : xdp_md) (s : maps) : xdp_action * maps :=
  let s := update_stat STAT_PACKETS_PROCESSED s in
  let to_userspace := (XDP_PASS, update_stat STAT_PACKETS_TO_USERSPACE s) in
  let dropped := (XDP_DROP, update_stat STAT_PACKETS_DROPPED s) in
  match parse_eth ctx with
  | None => to_userspace
  | Some (offset, eth_type) =>
      if negb (eth_type =? ETH_P_IP) then to_userspace
      else
        match parse_ip ctx offset with
        | None => dropped
        | Some ip_offset =>
            let ip := offset in
            let transport := offset + ip_offset in
            let protocol := ip_protocol ctx ip in
            let dst_port_opt :=
              if protocol =? IPPROTO_TCP then
                if transport + TCPHDR_SIZE >? data_end ctx then None
                else Some (Some (tcp_dest ctx transport))
              else if protocol =? IPPROTO_UDP then
                if transport + UDPHDR_SIZE >? data_end ctx then None
                else Some (Some (udp_dest ctx transport))
              else if protocol =? IPPROTO_ICMP then Some (Some 0)
              else Some None in
            match dst_port_opt with
            | None => to_userspace
            | Some None => to_userspace
            | Some (Some dst_port) =>
                let key := (ip_saddr ctx ip, ip_daddr ctx ip, dst_port, protocol) in
                match proxy_rules s !! key with
                | None =>
                    match source_allow_map s !! ip_saddr ctx ip with
                    | None => dropped
                    | Some _ => to_userspace
                    end
                | Some rule =>
                    if rule_action rule =? 0 then dropped
                    else if rule_action rule =? 1 then
                      if nonzero (auth_required rule)
                      then (XDP_PASS, update_stat STAT_AUTH_REQUIRED s)
                      else (XDP_PASS, update_stat STAT_PACKETS_ALLOWED s)
                    else if rule_action rule =? 2
                    then (XDP_PASS, update_stat STAT_PACKETS_REDIRECTED s)
                    else to_userspace
                end
            end
        end
  end.

(** [marchproxy_egress], the TC program of filter.c. *)
Definition marchproxy_egress (skb : xdp_md) (s : maps) : tc_action * maps :=
  let s := update_stat STAT_PACKETS_PROCESSED s in
  match parse_eth skb with
  | None => (TC_ACT_OK, s)
  | Some (offset, eth_type) =>
      if negb (eth_type =? ETH_P_IP) then (TC_ACT_OK, s)
      else
        match parse_ip skb offset with
        | None => (TC_ACT_SHOT, s)
        | Some ip_offset => (TC_ACT_OK, s)
        end
  end.

(** [marchproxy_socket_filter] *)
Definition marchproxy_socket_filter (skb : xdp_md) : Z := 0.

End Filter.

(* ===================================================================== *)
(** ** envoy_xdp.c (protocol detection) *)
(* ===================================================================== *)

Module EnvoyXdp.
Import Mach Packet BpfMap.

(** [detect_tls(data, data_end)]; [payload] is the offset passed as [data].
    [true] is the C result 1. *)
Definition detect_tls (ctx : xdp_md) (payload : Z) : bool :=
  if payload + 3 >? data_end ctx then false
  else
    ((load_u8 ctx payload =? 0x16) || (load_u8 ctx payload =? 0x17))
    && (load_u8 ctx (payload + 1) =? 0x03)
    && ((load_u8 ctx (payload + 2) >=? 0x01) && (load_u8 ctx (payload + 2) <=? 0x04)).

(** [struct rate_limit_value]; the key [struct rate_limit_key] is its one
    field [src_ip]. *)
Record rate_limit_value := {
  packet_count : Z;
  last_reset_ns : Z;
  dropped_count : Z
}.

(** [struct rate_limit_config] *)
Record rate_limit_config := {
  window_ns : Z;
  max_packets : Z;
  enabled : Z
}.

(** [struct stats] *)
Record stats := {
  total_packets : Z;
  total_bytes : Z;
  http_packets : Z;
  https_packets : Z;
  http2_packets : Z;
  grpc_packets : Z;
  websocket_packets : Z;
  rate_limited : Z;
  dropped : Z
}.

(** The BPF maps of the program; the two array maps have one slot each,
    given as the result of looking up key 0. *)
Record maps := {
  rate_limit_map : gmap Z rate_limit_value;
  rate_limit_config_map : option rate_limit_config;
  stats_map : option stats
}.

(** A raw load of a [__be16] field on the little-endian target, and
    [bpf_htons] there. *)
Definition load_raw16 (ctx : xdp_md) (off : Z) : Z :=
  load_u8 ctx off + load_u8 ctx (off + 1) * 256.

Definition bpf_htons (x : Z) : Z := (x mod 256) * 256 + (x / 256) mod 256.

(** [parse_ethhdr]: -1, or [eth->h_proto] as loaded. *)
Definition parse_ethhdr (ctx : xdp_md) : Z :=
  if ETH_HLEN >? data_end ctx then -1 else load_raw16 ctx 12.

(** [parse_iphdr(data, data_end, &iph)] with [data] at offset [ip]: -1, or
    [iph->protocol]. *)
Definition parse_iphdr (ctx : xdp_md) (ip : Z) : Z :=
  if ip + IPHDR_SIZE >? data_end ctx then -1
  else if ip_ihl ctx ip <? 5 then -1
  else ip_protocol ctx ip.

(** [parse_tcphdr]: -1 or 0. *)
Definition parse_tcphdr (ctx : xdp_md) (tcp : Z) : Z :=
  if tcp + TCPHDR_SIZE >? data_end ctx then -1 else 0.

(** The first four payload bytes are the given characters. *)
Definition starts_with4 (ctx : xdp_md) (payload c0 c1 c2 c3 : Z) : bool :=
  (load_u8 ctx payload =? c0) && (load_u8 ctx (payload + 1) =? c1)
  && (load_u8 ctx (payload + 2) =? c2) && (load_u8 ctx (payload + 3) =? c3).

(** [detect_http]: the method prefixes [GET ], [POST], [PUT ], [DELE],
    [HEAD], [OPTI], [PATC]. *)
Definition detect_http (ctx : xdp_md) (payload : Z) : bool :=
  if payload + 4 >? data_end ctx then false
  else
    starts_with4 ctx payload 71 69 84 32
    || starts_with4 ctx payload 80 79 83 84
    || starts_with4 ctx payload 80 85 84 32
    || starts_with4 ctx payload 68 69 76 69
    || starts_with4 ctx payload 72 69 65 68
    || starts_with4 ctx payload 79 80 84 73
    || starts_with4 ctx payload 80 65 84 67.

(** [detect_http2] *)
Definition detect_http2 (ctx : xdp_md) (payload : Z) : bool :=
  if payload + 9 >? data_end ctx then false
  else if starts_with4 ctx payload 80 82 73 32 then true
  else if (payload + 9 <=? data_end ctx) && (load_u8 ctx (payload + 3) =? 0x04) then true
  else false.

(** [detect_grpc] *)
Definition detect_grpc (ctx : xdp_md) (payload : Z) (is_http2 : bool) : bool :=
  if negb is_http2 then false else false.

(** [detect_websocket] *)
Definition detect_websocket (ctx : xdp_md) (payload : Z) : bool :=
  if payload + 16 >? data_end ctx then false
  else if (load_u8 ctx payload =? 71) && (load_u8 ctx (payload + 1) =? 69)
          && (load_u8 ctx (payload + 2) =? 84)
  then false
  else false.

(** [max_entries] of [rate_limit_map], an LRU hash. *)
Definition RATE_LIMIT_ENTRIES : Z := 1000000.

(** [check_rate_limit(src_ip, now_ns)] of envoy_xdp.c; [evicted] are the
    entries the kernel evicts if the entry of a new source is written to a
    full [rate_limit_map].  An entry that exists is changed through the
    pointer returned by the lookup. *)
Definition check_rate_limit (src_ip now_ns : Z) (evicted : list Z) (s : maps)
    : xdp_action * maps :=
  match rate_limit_config_map s with
  | None => (XDP_PASS, s)
  | Some config =>
      if enabled config =? 0 then (XDP_PASS, s)
      else
        match rate_limit_map s !! src_ip with
        | None =>
            let new_val :=
              {| packet_count := 1; last_reset_ns := now_ns; dropped_count := 0 |} in
            (XDP_PASS,
             {| rate_limit_map :=
                  lru_update RATE_LIMIT_ENTRIES evicted src_ip new_val (rate_limit_map s);
                rate_limit_config_map := rate_limit_config_map s;
                stats_map := stats_map s |})
        | Some val =>
            if u64 (now_ns - last_reset_ns val) >? window_ns config then
              (XDP_PASS,
               {| rate_limit_map :=
                    <[src_ip := {| packet_count := 1; last_reset_ns := now_ns;
                                   dropped_count := dropped_count val |}]>
                      (rate_limit_map s);
                  rate_limit_config_map := rate_limit_config_map s;
                  stats_map := stats_map s |})
            else if packet_count val >=? max_packets config then
              (XDP_DROP,
               {| rate_limit_map :=
                    <[src_ip := {| packet_count := packet_count val;
                                   last_reset_ns := last_reset_ns val;
                                   dropped_count := u64 (dropped_count val + 1) |}]>
                      (rate_limit_map s);
                  rate_limit_config_map := rate_limit_config_map s;
                  stats_map :=
                    (fun st =>
                       {| total_packets := total_packets st;
                          total_bytes := total_bytes st;
                          http_packets := http_packets st;
                          https_packets := https_packets st;
                          http2_packets := http2_packets st;
                          grpc_packets := grpc_packets st;
                          websocket_packets := websocket_packets st;
                          rate_limited := u64 (rate_limited st + 1);
                          dropped := u64 (dropped st + 1) |}) <$> stats_map s |})
            else
              (XDP_PASS,
               {| rate_limit_map :=
                    <[src_ip := {| packet_count := u64 (packet_count val + 1);
                                   last_reset_ns := last_reset_ns val;
                                   dropped_count := dropped_count val |}]>
                      (rate_limit_map s);
                  rate_limit_config_map := rate_limit_config_map s;
                  stats_map := stats_map s |})
        end
  end.

(** The counters written at the entry of [xdp_envoy_filter]. *)
Definition count_packet (len : Z) (st : stats) : stats :=
  {| total_packets := u64 (total_packets st + 1);
     total_bytes := u64 (total_bytes st + len);
     http_packets := http_packets st; https_packets := https_packets st;
     http2_packets := http2_packets st; grpc_packets := grpc_packets st;
     websocket_packets := websocket_packets st;
     rate_limited := rate_limited st; dropped := dropped st |}.

(** The protocol counters written at the end of [xdp_envoy_filter]. *)
Definition count_protocols (is_http is_https is_http2 is_grpc is_websocket : bool)
    (st : stats) : stats :=
  {| total_packets := total_packets st; total_bytes := total_bytes st;
     http_packets := if is_http then u64 (http_packets st + 1) else http_packets st;
     https_packets := if is_https then u64 (https_packets st + 1) else https_packets st;
     http2_packets := if is_http2 then u64 (http2_packets st + 1) else http2_packets st;
     grpc_packets := if is_grpc then u64 (grpc_packets st + 1) else grpc_packets st;
     websocket_packets := if is_websocket then u64 (websocket_packets st + 1)
                          else websocket_packets st;
     rate_limited := rate_limited st; dropped := dropped st |}.

Definition with_stats (f : stats -> stats) (s : maps) : maps :=
  {| rate_limit_map := rate_limit_map s;
     rate_limit_config_map := rate_limit_config_map s;
     stats_map := f <$> stats_map s |}.

(** [xdp_envoy_filter]; [now_ns] is the value of [bpf_ktime_get_ns] and
    [evicted] the entries evicted from a full [rate_limit_map]. *)
Definition xdp_envoy_filter (ctx : xdp_md) (now_ns : Z) (evicted : list Z) (s : maps)
    : xdp_action * maps :=
  let s := with_stats (count_packet (data_end ctx)) s in
  let eth_proto := parse_ethhdr ctx in
  if eth_proto <? 0 then (XDP_DROP, s)
  else if negb (eth_proto =? bpf_htons ETH_P_IP) then (XDP_PASS, s)
  else
    let iph := ETH_HLEN in
    let ip_proto := parse_iphdr ctx iph in
    if ip_proto <? 0 then (XDP_DROP, s)
    else
      let '(rate_limit_action, s) :=
        check_rate_limit (ip_saddr ctx iph) now_ns evicted s in
      if decide (rate_limit_action = XDP_DROP) then (XDP_DROP, s)
      else if negb (ip_proto =? IPPROTO_TCP) then (XDP_PASS, s)
      else
        let tcp := iph + ip_ihl ctx iph * 4 in
        if parse_tcphdr ctx tcp <? 0 then (XDP_DROP, s)
        else
          let payload := tcp + tcp_doff ctx tcp * 4 in
          if payload >=? data_end ctx then (XDP_PASS, s)
          else
            let dest_port := tcp_dest ctx tcp in
            let '(is_http, is_https, is_http2, is_grpc, is_websocket) :=
              if (dest_port =? 80) || (dest_port =? 8080) then
                (detect_http ctx payload, false, detect_http2 ctx payload, false,
                 detect_websocket ctx payload)
              else if (dest_port =? 443) || (dest_port =? 8443) then
                (false, detect_tls ctx payload, false, false, false)
              else if dest_port =? 50051 then (false, false, true, true, false)
              else (false, false, false, false, false) in
            (XDP_PASS,
             with_stats (count_protocols is_http is_https is_http2 is_grpc is_websocket) s).

End EnvoyXdp.

(* ===================================================================== *)
(** ** Traces, reference definitions and sample inputs *)
(* ===================================================================== *)

Module Trace.
Import Mach Packet.

(** Successive calls of [EnhancedRules.check_rate_limit] with one limit;
    each call is the triple of the key, the clock value and the kernel's
    evictions at that call. *)
Fixpoint run_check_rate_limit (limit_pps : Z) (calls : list (Z * Z * list Z))
    (m : gmap Z EnhancedRules.rate_limit_entry)
    : list bool * gmap Z EnhancedRules.rate_limit_entry :=
  match calls with
  | [] => ([], m)
  | (key, now, evicted) :: calls' =>
      let '(r, m1) := EnhancedRules.check_rate_limit key limit_pps now evicted m in
      let '(rs, m2) := run_check_rate_limit limit_pps calls' m1 in
      (r :: rs, m2)
  end.

(** Successive calls of [RateLimit.check_ip_rate_limit]; each packet is
    the triple of its source address, the clock value at its arrival and
    the kernel's evictions at its call. *)
Fixpoint run_check_ip_rate_limit (config : RateLimit.rate_limit_config)
    (packets : list (Z * Z * list Z)) (m : gmap Z RateLimit.ip_rate_state)
    : list xdp_action * gmap Z RateLimit.ip_rate_state :=
  match packets with
  | [] => ([], m)
  | (src_ip, now_ns, evicted) :: packets' =>
      let '(r, m1) := RateLimit.check_ip_rate_limit config src_ip now_ns evicted m in
      let '(rs, m2) := run_check_ip_rate_limit config packets' m1 in
      (r :: rs, m2)
  end.

(** The number of packets of [src_ip] in a trace. *)
Definition sent_by (src_ip : Z) (packets : list (Z * Z * list Z)) : Z :=
  Z.of_nat (length (filter (fun p : Z * Z * list Z => fst (fst p) = src_ip) packets)).

(** Successive calls of [RateLimit.check_global_rate_limit] at the clock
    values [nows]. *)
Fixpoint run_check_global_rate_limit (config : RateLimit.rate_limit_config)
    (nows : list Z) (g : option RateLimit.global_rate_state)
    : list xdp_action * option RateLimit.global_rate_state :=
  match nows with
  | [] => ([], g)
  | now_ns :: nows' =>
      let '(r, g1) := RateLimit.check_global_rate_limit config now_ns g in
      let '(rs, g2) := run_check_global_rate_limit config nows' g1 in
      (r :: rs, g2)
  end.

(** Successive runs of [RateLimit.xdp_rate_limiter]; each packet comes with
    the clock value at its arrival and the kernel's evictions during its
    run. *)
Fixpoint run_xdp_rate_limiter (packets : list (xdp_md * Z * list Z)) (s : RateLimit.maps)
    : list xdp_action * RateLimit.maps :=
  match packets with
  | [] => ([], s)
  | (ctx, now_ns, evicted) :: packets' =>
      let '(r, s1) := RateLimit.xdp_rate_limiter ctx now_ns evicted s in
      let '(rs, s2) := run_xdp_rate_limiter packets' s1 in
      (r :: rs, s2)
  end.

(** Successive calls of [EnhancedRules.update_connection_tracking] for the
    packets of one flow; each packet is the service id, the packet length
    and the clock value passed with it, and the kernel's evictions at its
    call. *)
Fixpoint run_update_connection_tracking (src_ip dst_ip src_port dst_port protocol : Z)
    (packets : list (Z * Z * Z * list Z)) (m : gmap Z EnhancedRules.connection)
    : gmap Z EnhancedRules.connection :=
  match packets with
  | [] => m
  | (service_id, packet_len, now, evicted) :: packets' =>
      run_update_connection_tracking src_ip dst_ip src_port dst_port protocol packets'
        (EnhancedRules.update_connection_tracking src_ip dst_ip src_port dst_port
           protocol service_id packet_len now evicted m)
  end.

(** Successive calls of [EnvoyXdp.check_rate_limit] for one source; each
    call is the pair of the clock value and the kernel's evictions. *)
Fixpoint run_envoy_check_rate_limit (src_ip : Z) (calls : list (Z * list Z))
    (s : EnvoyXdp.maps) : list xdp_action * EnvoyXdp.maps :=
  match calls with
  | [] => ([], s)
  | (now_ns, evicted) :: nows' =>
      let '(r, s1) := EnvoyXdp.check_rate_limit src_ip now_ns evicted s in
      let '(rs, s2) := run_envoy_check_rate_limit src_ip nows' s1 in
      (r :: rs, s2)
  end.


(** Successive runs of [Filter.marchproxy_filter]. *)
Fixpoint run_marchproxy_filter (packets : list xdp_md) (s : Filter.maps) : Filter.maps :=
  match packets with
  | [] => s
  | ctx :: packets' => run_marchproxy_filter packets' (snd (Filter.marchproxy_filter ctx s))
  end.

End Trace.

Module Reference.
Import Mach Packet.

(** The refill of the specification's token bucket, in its words:
    [tokens = min(capacity, tokens + elapsed * rate)] with
    [capacity = burst_allowance + rate]; the elapsed time is in
    nanoseconds and the rate in packets per second. *)
Definition spec_capacity (burst_allowance rate : Z) : Z := burst_allowance + rate.

Definition spec_refill (burst_allowance rate tokens elapsed_ns : Z) : Z :=
  Z.min (spec_capacity burst_allowance rate) (tokens + elapsed_ns * rate / 1000000000).

(** The bucket after one packet, in the specification's words: if
    [tokens >= 1], decrement by 1 and admit; else reject. *)
Definition spec_bucket_step (burst_allowance rate tokens elapsed_ns : Z) : bool * Z :=
  let t := spec_refill burst_allowance rate tokens elapsed_ns in
  if 1 <=? t then (true, t - 1) else (false, t).

(** The TLS rule of the specification's protocol sniffer on the first
    three payload bytes. *)
Definition spec_tls_prefix (b0 b1 b2 : Z) : bool :=
  ((b0 =? 0x16) || (b0 =? 0x17)) && (b1 =? 0x03) && ((0x01 <=? b2) && (b2 <=? 0x04)).

(** The specification's match condition of [find_service]. *)
Definition service_match (svc : EnhancedRules.service) (dst_ip dst_port protocol : Z)
    : Prop :=
  EnhancedRules.svc_ip_addr svc = dst_ip
  /\ EnhancedRules.svc_port_start svc <= dst_port <= EnhancedRules.svc_port_end svc
  /\ (EnhancedRules.svc_protocol svc = 0 \/ EnhancedRules.svc_protocol svc = protocol).

(** A frame with a header cut short: fewer than 14 bytes; or IPv4 with
    fewer than the 20 bytes of the fixed IP header; or TCP, UDP or ICMP
    whose fixed transport header (20, 8 and 8 bytes), placed [ihl * 4]
    bytes after the start of the IP header, does not fit. *)
Definition truncated_headers (ctx : xdp_md) : bool :=
  if data_end ctx <? ETH_HLEN then true
  else if negb (eth_h_proto ctx =? ETH_P_IP) then false
  else if data_end ctx <? ETH_HLEN + IPHDR_SIZE then true
  else
    let transport := ETH_HLEN + ip_ihl ctx ETH_HLEN * 4 in
    let protocol := ip_protocol ctx ETH_HLEN in
    ((protocol =? IPPROTO_TCP) && (data_end ctx <? transport + TCPHDR_SIZE))
    || ((protocol =? IPPROTO_UDP) && (data_end ctx <? transport + UDPHDR_SIZE))
    || ((protocol =? IPPROTO_ICMP) && (data_end ctx <? transport + ICMPHDR_SIZE)).

End Reference.

Module Samples.
Import Mach Packet.

(** Ethernet header with EtherType IPv4. *)
Definition eth_ipv4 : list Z :=
  [2; 0; 0; 0; 0; 1;  2; 0; 0; 0; 0; 2;  0x08; 0x00].

(** IPv4 header without options (ihl = 5) from 10.0.0.1 to 10.0.0.5. *)
Definition ipv4_header (protocol : Z) : list Z :=
  [0x45; 0; 0; 0;  0; 0; 0; 0;  64; protocol; 0; 0;  10; 0; 0; 1;  10; 0; 0; 5].

(** TCP header without options (doff = 5), source port 40000. *)
Definition tcp_header (dst_port : Z) : list Z :=
  [0x9c; 0x40; dst_port / 256; dst_port mod 256;  0; 0; 0; 0;  0; 0; 0; 0;
   0x50; 0x18; 0xff; 0xff;  0; 0; 0; 0].

(** UDP header, source port 40000. *)
Definition udp_header (dst_port : Z) : list Z :=
  [0x9c; 0x40; dst_port / 256; dst_port mod 256;  0; 8; 0; 0].

Definition tcp_packet (dst_port : Z) (payload : list Z) : xdp_md :=
  frame (eth_ipv4 ++ ipv4_header 6 ++ tcp_header dst_port ++ payload).

Definition udp_packet (dst_port : Z) (payload : list Z) : xdp_md :=
  frame (eth_ipv4 ++ ipv4_header 17 ++ udp_header dst_port ++ payload).

(** 10.0.0.1 and 10.0.0.5 as loaded from the packet. *)
Definition ip_10_0_0_1 : Z := 0x0100000a.
Definition ip_10_0_0_5 : Z := 0x0500000a.

(** Nothing is evicted. *)
Definition no_evictions : EnhancedRules.evictions :=
  {| EnhancedRules.ev_rate_limit_map := []; EnhancedRules.ev_connection_map := [] |}.

Definition clock0 : EnhancedRules.ktime :=
  {| EnhancedRules.t_process_packet := 1000;
     EnhancedRules.t_check_rate_limit := 1001;
     EnhancedRules.t_update_connection_tracking := 1002;
     EnhancedRules.t_check_authentication := 1003 |}.

Definition zero_stats : EnhancedRules.global_stats :=
  {| EnhancedRules.total_packets := 0; EnhancedRules.passed_packets := 0;
     EnhancedRules.dropped_packets := 0; EnhancedRules.redirected_afxdp := 0;
     EnhancedRules.redirected_go := 0; EnhancedRules.rate_limited := 0;
     EnhancedRules.auth_failures := 0; EnhancedRules.invalid_packets := 0;
     EnhancedRules.last_update := 0 |}.

(** A service on 10.0.0.5, one port, TCP. *)
Definition tcp_service (port auth_type rate_limit_pps : Z) : EnhancedRules.service :=
  {| EnhancedRules.svc_service_id := 1; EnhancedRules.svc_ip_addr := ip_10_0_0_5;
     EnhancedRules.svc_port_start := port; EnhancedRules.svc_port_end := port;
     EnhancedRules.svc_protocol := 6; EnhancedRules.svc_auth_type := auth_type;
     EnhancedRules.svc_requires_tls := 0; EnhancedRules.svc_allows_websocket := 0;
     EnhancedRules.svc_rate_limit_pps := rate_limit_pps;
     EnhancedRules.svc_bandwidth_limit := 0; EnhancedRules.svc_last_activity := 0;
     EnhancedRules.svc_packet_count := 0; EnhancedRules.svc_byte_count := 0 |}.

Definition one_service (svc : EnhancedRules.service) : EnhancedRules.maps :=
  {| EnhancedRules.services_map := {[ 1 := svc ]};
     EnhancedRules.rate_limit_map := ∅;
     EnhancedRules.connection_map := ∅;
     EnhancedRules.auth_tokens_map := ∅;
     EnhancedRules.stats_map := Some zero_stats;
     EnhancedRules.afxdp_redirect_map := ∅ |}.

(** 32 payload bytes that do not contain the literal [Auth]. *)
Definition plain_payload : list Z := replicate 32 120.

(** A frame that ends six bytes into the IPv4 header. *)
Definition truncated_ip_frame : xdp_md :=
  frame (eth_ipv4 ++ [0x45; 0; 0; 0; 0; 0]).

(** A frame that ends four bytes into the TCP header. *)
Definition truncated_tcp_frame : xdp_md :=
  frame (eth_ipv4 ++ ipv4_header 6 ++ [0x9c; 0x40; 0x1f; 0x90]).

(** An IPv4 frame of protocol 47 (GRE) whose header declares 60 bytes
    (ihl = 15) in a buffer that holds 20 of them. *)
Definition short_options_frame : xdp_md :=
  frame (eth_ipv4
         ++ [0x4f; 0; 0; 0;  0; 0; 0; 0;  64; 47; 0; 0;  10; 0; 0; 1;  10; 0; 0; 5]).

Definition marchproxy_state : Marchproxy.maps :=
  {| Marchproxy.services_map := ∅; Marchproxy.mappings_map := ∅;
     Marchproxy.connections_map := ∅;
     Marchproxy.stats_map :=
       Some {| Marchproxy.total_packets := 0; Marchproxy.total_bytes := 0;
               Marchproxy.tcp_packets := 0; Marchproxy.udp_packets := 0;
               Marchproxy.icmp_packets := 0; Marchproxy.dropped_packets := 0;
               Marchproxy.forwarded_packets := 0; Marchproxy.auth_required := 0;
               Marchproxy.fallback_to_userspace := 0 |} |}.

(** The counters of filter.c, all 0 except as given. *)
Definition filter_state (processed dropped to_userspace : Z) : Filter.maps :=
  {| Filter.source_allow_map := ∅; Filter.proxy_rules := ∅;
     Filter.stats_map :=
       {[ Filter.STAT_PACKETS_PROCESSED := processed;
          Filter.STAT_PACKETS_ALLOWED := 0;
          Filter.STAT_PACKETS_DROPPED := dropped;
          Filter.STAT_PACKETS_REDIRECTED := 0;
          Filter.STAT_PACKETS_TO_USERSPACE := to_userspace;
          Filter.STAT_AUTH_REQUIRED := 0 ]} |}.

End Samples.

(* ===================================================================== *)
(** ** Predicates and sample states used by the statements *)
(* ===================================================================== *)

Module EnhancedRulesSpec.
Import Mach Packet EnhancedRules.

(** Every bucket of the table holds between 0 and [limit] tokens. *)
Definition buckets_bounded (limit : Z) (m : gmap Z rate_limit_entry) : Prop :=
  forall key e, m !! key = Some e -> 0 <= rl_tokens e <= limit.

(** The literal [Auth] first occurs at offset [k] of the payload. *)
Definition first_auth_literal (ctx : xdp_md) (payload from k : Z) : Prop :=
  from <= k < 24
  /\ auth_literal_at ctx (payload + k) = true
  /\ forall j, from <= j < k -> auth_literal_at ctx (payload + j) = false.

(** The token found in the payload is valid for [service_id] at [now]: the
    word 20 bytes after the first [Auth] in the first 24 offsets is not 0,
    is a key of the token table, and its token is not expired and is bound
    to no service or to this one. *)
Definition token_accepted (ctx : xdp_md) (payload service_id now : Z)
    (auth_tokens_map : gmap Z auth_token) : Prop :=
  exists k token,
    first_auth_literal ctx payload 0 k
    /\ load_u32 ctx (payload + k + 20) <> 0
    /\ auth_tokens_map !! load_u32 ctx (payload + k + 20) = Some token
    /\ now <= tok_expiry_time token
    /\ (tok_service_id token = 0 \/ tok_service_id token = service_id).

(** The packet is classified: its Ethernet and fixed IPv4 headers are
    complete, it is IPv4, the transport switch yields the ports
    [src_port] and [dst_port], and the service loop stops at the service
    [svc] stored under [service_key]. *)
Definition classified (ctx : xdp_md) (s : maps) (service_key : Z) (svc : service)
    (src_port dst_port : Z) : Prop :=
  ETH_HLEN <= data_end ctx
  /\ eth_h_proto ctx = ETH_P_IP
  /\ ETH_HLEN + IPHDR_SIZE <= data_end ctx
  /\ parse_transport ctx (ip_protocol ctx ETH_HLEN) (ETH_HLEN + ip_ihl ctx ETH_HLEN * 4)
     = Some (Some (src_port, dst_port))
  /\ find_service (services_map s) (ip_daddr ctx ETH_HLEN) dst_port
       (ip_protocol ctx ETH_HLEN) (Z.to_nat MAX_SERVICES) 1
     = Some (service_key, svc).

(** The rate limiter refuses the packet: the service has a rate and
    [check_rate_limit], called for the source address, returns 0. *)
Definition rate_limit_refuses (ctx : xdp_md) (clk : ktime) (ev : evictions) (s : maps)
    (svc : service) : Prop :=
  0 < svc_rate_limit_pps svc
  /\ fst (check_rate_limit (ip_saddr ctx ETH_HLEN) (svc_rate_limit_pps svc)
            (t_check_rate_limit clk) (ev_rate_limit_map ev) (rate_limit_map s))
     = false.

(** Authentication refuses the packet: the service uses simple
    authentication and [check_authentication] returns 0. *)
Definition authentication_refuses (ctx : xdp_md) (clk : ktime) (s : maps)
    (service_key : Z) (svc : service) : Prop :=
  svc_auth_type svc = AUTH_SIMPLE
  /\ check_authentication ctx service_key (t_check_authentication clk)
       (auth_tokens_map s) = false.

(** The rate-limit table after a classified packet: the limiter runs only
    for a service with a rate. *)
Definition rate_limit_map_after (ctx : xdp_md) (clk : ktime) (ev : evictions) (s : maps)
    (svc : service) : gmap Z rate_limit_entry :=
  if 0 <? svc_rate_limit_pps svc
  then snd (check_rate_limit (ip_saddr ctx ETH_HLEN) (svc_rate_limit_pps svc)
              (t_check_rate_limit clk) (ev_rate_limit_map ev) (rate_limit_map s))
  else rate_limit_map s.

(** A request whose [Authorization] header starts the payload and carries
    a known, unexpired token bound to no service. *)
Definition auth_payload : list Z :=
  [65; 117; 116; 104] ++ replicate 16 32 ++ [0x78; 0x56; 0x34; 0x12] ++ replicate 8 0.

Definition auth_table : gmap Z auth_token :=
  {[ 0x12345678 := {| tok_token_hash := 0x12345678; tok_service_id := 0;
                      tok_expiry_time := 5000; tok_permissions := 1 |} ]}.

End EnhancedRulesSpec.

Module RateLimitSpec.
Import Mach Packet RateLimit.

(** The packet at [t] falls in the window opened at [t0]. *)
Definition in_window (config : rate_limit_config) (t0 t : Z) : Prop :=
  u64 (t - t0) < window_size_ns config.

(** A packet of [src_ip] at [t0] opens a window: the source is new, or a
    full window has elapsed since the start of its last one. *)
Definition opens_window (config : rate_limit_config) (src_ip t0 : Z)
    (m : gmap Z ip_rate_state) : Prop :=
  m !! src_ip = None
  \/ exists st, m !! src_ip = Some st
                /\ window_size_ns config <= u64 (t0 - ip_last_update_ns st).

(** A packet of the trace that comes from [src_ip] arrives in the window
    opened at [t0]. *)
Definition arrives_in_window (config : rate_limit_config) (src_ip t0 : Z)
    (p : Z * Z * list Z) : Prop :=
  fst (fst p) = src_ip -> in_window config t0 (snd (fst p)).

(** A packet of the trace that comes from another source does not make
    the kernel evict the state of [src_ip]. *)
Definition keeps_state_of (src_ip : Z) (p : Z * Z * list Z) : Prop :=
  fst (fst p) <> src_ip -> src_ip ∉ snd p.

(** The state of a source after [n] packets of the window opened at
    [t0]. *)
Definition window_state (config : rate_limit_config) (src_ip t0 n : Z)
    (m : gmap Z ip_rate_state) : Prop :=
  exists st, m !! src_ip = Some st
             /\ ip_last_update_ns st = t0
             /\ ip_packet_count st = n
             /\ burst_tokens st
                = Z.max 0 (burst_allowance config
                           - Z.max 0 (n - per_ip_pps_limit config)).

(** A limit of one packet per window and no burst allowance. *)
Definition strict_config : rate_limit_config :=
  {| enabled := 1; global_pps_limit := 0; per_ip_pps_limit := 1;
     window_size_ns := 1000000000; burst_allowance := 0; action := 1 |}.

(** The state of a source that has sent one packet in the window opened
    at time 0. *)
Definition one_packet_sent : ip_rate_state :=
  {| ip_last_update_ns := 0; ip_packet_count := 1; ip_total_packets := 1;
     ip_dropped_packets := 0; burst_tokens := 0 |}.

(** A full table: the sources 1 to [IP_RATE_STATE_ENTRIES] have each sent
    one packet at time 0. *)
Definition full_table : gmap Z ip_rate_state :=
  list_to_map ((fun src_ip => (src_ip, one_packet_sent))
               <$> seqZ 1 IP_RATE_STATE_ENTRIES).

(** [s] with its per-source table replaced. *)
Definition with_ip_rate_state_map (m : gmap Z ip_rate_state) (s : maps) : maps :=
  {| rate_limit_config_map := rate_limit_config_map s;
     ip_rate_state_map := m;
     global_rate_state_map := global_rate_state_map s;
     rate_limit_stats_map := rate_limit_stats_map s;
     enterprise_license_map := enterprise_license_map s |}.

Definition sample_config : rate_limit_config :=
  {| enabled := 1; global_pps_limit := 0; per_ip_pps_limit := 1000;
     window_size_ns := 1000000000; burst_allowance := 100; action := 1 |}.

(** A licensed, enabled limiter with a global limit of 2 packets whose
    window already counts 2. *)
Definition saturated_state : maps :=
  {| rate_limit_config_map :=
       Some {| enabled := 1; global_pps_limit := 2; per_ip_pps_limit := 1000;
               window_size_ns := 1000000000; burst_allowance := 100; action := 1 |};
     ip_rate_state_map := ∅;
     global_rate_state_map :=
       Some {| g_last_update_ns := 0; g_packet_count := 2; g_total_packets := 2;
               g_dropped_packets := 0 |};
     rate_limit_stats_map := Some new_stats;
     enterprise_license_map := Some 1 |}.

End RateLimitSpec.

Module EngineTraceSpec.
Import Mach Packet EnhancedRules.

(** The bucket of [key] after [j] packets of a burst started at [t0]. *)
Definition burst_state (key limit t0 j : Z) (m : gmap Z rate_limit_entry) : Prop :=
  exists e, m !! key = Some e /\ rl_last_update e = t0
            /\ rl_tokens e = Z.max 0 (limit - j).

(** Sum of the packet lengths of a trace. *)
Definition total_len (packets : list (Z * Z * Z * list Z)) : Z :=
  foldr (fun p acc => snd (fst (fst p)) + acc) 0 packets.

(** The time of the last packet of a trace, [t] for the empty trace. *)
Definition last_time (t : Z) (packets : list (Z * Z * Z * list Z)) : Z :=
  foldl (fun _ p => snd (fst p)) t packets.

(** The calls of a burst of one key: each is a clock value and the
    kernel's evictions. *)
Definition burst_calls (key : Z) (calls : list (Z * list Z)) : list (Z * Z * list Z) :=
  map (fun c => (key, fst c, snd c)) calls.

End EngineTraceSpec.

Module LimiterSpec.
Import Mach Packet RateLimit RateLimitSpec.

(** The global state after [n] packets of the window opened at [t0]. *)
Definition global_window_state (t0 n : Z) (g : option global_rate_state) : Prop :=
  exists st, g = Some st /\ g_last_update_ns st = t0 /\ g_packet_count st = n.

(** A packet at [t0] opens a global window: there is no state yet, or a
    full window has elapsed since the start of the last one. *)
Definition opens_global_window (config : rate_limit_config) (t0 : Z)
    (g : option global_rate_state) : Prop :=
  g = None
  \/ exists st, g = Some st /\ window_size_ns config <= u64 (t0 - g_last_update_ns st).

(** The statistics are consistent: [total_packets] is the sum of
    [passed_packets] and [dropped_packets], and [dropped_packets] the sum
    of [global_drops] and [per_ip_drops], modulo 2^64. *)
Definition stats_consistent (o : option rate_limit_stats) : Prop :=
  forall st, o = Some st ->
    u64 (total_packets st) = u64 (passed_packets st + dropped_packets st)
    /\ u64 (dropped_packets st) = u64 (global_drops st + per_ip_drops st).

(** A limiter whose source 10.0.0.1 has used up its limit of 1 and its
    burst of 0 in the current window. *)
Definition exhausted_source_state : maps :=
  {| rate_limit_config_map :=
       Some {| enabled := 1; global_pps_limit := 1000; per_ip_pps_limit := 1;
               window_size_ns := 1000000000; burst_allowance := 0; action := 1 |};
     ip_rate_state_map :=
       {[ Samples.ip_10_0_0_1 :=
            {| ip_last_update_ns := 0; ip_packet_count := 1; ip_total_packets := 1;
               ip_dropped_packets := 0; burst_tokens := 0 |} ]};
     global_rate_state_map := None;
     rate_limit_stats_map := None;
     enterprise_license_map := Some 1 |}.

(** A licensed, enabled limiter with both limits 0. *)
Definition unlimited_state : maps :=
  {| rate_limit_config_map :=
       Some {| enabled := 1; global_pps_limit := 0; per_ip_pps_limit := 0;
               window_size_ns := 1; burst_allowance := 0; action := 1 |};
     ip_rate_state_map := ∅; global_rate_state_map := None;
     rate_limit_stats_map := None; enterprise_license_map := Some 1 |}.

(** [config] with another [action]. *)
Definition with_action (a : Z) (config : rate_limit_config) : rate_limit_config :=
  {| enabled := enabled config; global_pps_limit := global_pps_limit config;
     per_ip_pps_limit := per_ip_pps_limit config;
     window_size_ns := window_size_ns config;
     burst_allowance := burst_allowance config; action := a |}.

(** [s] with another configuration slot. *)
Definition with_config (c : option rate_limit_config) (s : maps) : maps :=
  {| rate_limit_config_map := c;
     ip_rate_state_map := ip_rate_state_map s;
     global_rate_state_map := global_rate_state_map s;
     rate_limit_stats_map := rate_limit_stats_map s;
     enterprise_license_map := enterprise_license_map s |}.

End LimiterSpec.

Module MarchproxySpec.
Import Mach Packet Marchproxy.

(** The protocol bit that [find_mapping] tests in [mapping->protocols]. *)
Definition proto_mask (protocol : Z) : Z :=
  if protocol =? IPPROTO_TCP then 1
  else if protocol =? IPPROTO_UDP then 2
  else if protocol =? IPPROTO_ICMP then 4 else 0.

(** A mapping admits the packet: its protocol mask holds the packet's
    protocol bit and one of its first [port_count] ports, at most
    [MAX_PORTS], is the destination port. *)
Definition mapping_admits (m : mapping) (dst_port protocol : Z) : Prop :=
  Z.land (protocols m) (proto_mask protocol) <> 0
  /\ exists i, 0 <= i < port_count m /\ i < MAX_PORTS
               /\ default 0 (ports m !! Z.to_nat i) = dst_port.

(** A GRE packet (protocol 47). *)
Definition gre_frame : xdp_md :=
  frame (Samples.eth_ipv4 ++ Samples.ipv4_header 47 ++ replicate 8 0).

(** A frame that both TC programs parse: IPv4 with a complete fixed header
    of version 4 and [ihl >= 5]. *)
Definition parsed_ipv4 (skb : xdp_md) : Prop :=
  ETH_HLEN + IPHDR_SIZE <= data_end skb
  /\ eth_h_proto skb = ETH_P_IP
  /\ ip_version skb ETH_HLEN = 4 /\ 5 <= ip_ihl skb ETH_HLEN.

(** The ports the ingress program reads: those of a complete TCP or UDP
    header at [ETH_HLEN + ihl * 4], and 0 for every other protocol. *)
Definition transport_ports (skb : xdp_md) (src_port dst_port : Z) : Prop :=
  let off := ETH_HLEN + ip_ihl skb ETH_HLEN * 4 in
  let protocol := ip_protocol skb ETH_HLEN in
  (protocol = IPPROTO_TCP /\ off + TCPHDR_SIZE <= data_end skb
   /\ src_port = tcp_source skb off /\ dst_port = tcp_dest skb off)
  \/ (protocol = IPPROTO_UDP /\ off + UDPHDR_SIZE <= data_end skb
      /\ src_port = udp_source skb off /\ dst_port = udp_dest skb off)
  \/ (protocol <> IPPROTO_TCP /\ protocol <> IPPROTO_UDP
      /\ src_port = 0 /\ dst_port = 0).

(** The packet is one the ingress program forwards: it parses, a mapping
    [m] admits it, the mapping's first destination service [svc] exists,
    and neither of them requires authentication. *)
Definition forwards (skb : xdp_md) (s : maps) (src_port dst_port : Z)
    (m : mapping) (svc : service) : Prop :=
  parsed_ipv4 skb
  /\ transport_ports skb src_port dst_port
  /\ find_mapping (mappings_map s) (ip_daddr skb ETH_HLEN) dst_port
       (ip_protocol skb ETH_HLEN) = Some m
  /\ find_dest_service (services_map s) (Some m) = Some svc
  /\ map_auth_required m = 0 /\ svc_auth_required svc = 0.

(** The counters every counted packet advances: one more packet, its
    bytes, and one more packet of its protocol when that is TCP, UDP or
    ICMP.  [auth_required] is never written. *)
Definition counts_packet (nbytes protocol : Z) (st st' : proxy_stats) : Prop :=
  total_packets st' = u64 (total_packets st + 1)
  /\ total_bytes st' = u64 (total_bytes st + nbytes)
  /\ tcp_packets st' = (if protocol =? IPPROTO_TCP then u64 (tcp_packets st + 1)
                        else tcp_packets st)
  /\ udp_packets st' = (if protocol =? IPPROTO_UDP then u64 (udp_packets st + 1)
                        else udp_packets st)
  /\ icmp_packets st' = (if protocol =? IPPROTO_ICMP then u64 (icmp_packets st + 1)
                         else icmp_packets st)
  /\ auth_required st' = auth_required st.

(** The statistics slot before and after a packet: an absent slot stays
    absent, a present one changes as [change] says. *)
Definition stats_step (change : proxy_stats -> proxy_stats -> Prop)
    (before after : option proxy_stats) : Prop :=
  match before with
  | None => after = None
  | Some st => exists st', after = Some st' /\ change st st'
  end.

(** One mapping for TCP port 8080 to service 7, without authentication. *)
Definition forwarding_state : maps :=
  {| services_map :=
       {[ 7 := {| svc_id := 7; svc_ip_addr := Samples.ip_10_0_0_5; svc_port := 8080;
                  svc_auth_required := 0; svc_auth_type := 0; svc_flags := 0 |} ]};
     mappings_map :=
       {[ 1 := {| map_id := 1; source_services := []; dest_services := [7];
                  ports := [8080]; protocols := 1; map_auth_required := 0;
                  priority := 0; port_count := 1; src_count := 0; dest_count := 1 |} ]};
     connections_map := ∅;
     stats_map := stats_map Samples.marchproxy_state |}.

End MarchproxySpec.

Module FilterSpec.
Import Mach Packet Filter.

(** The value of a counter of [stats_map]. *)
Definition counter (s : maps) (key : Z) : Z := default 0 (stats_map s !! key).

(** The six counters used by the programs exist (the map is an array). *)
Definition counters_present (s : maps) : Prop :=
  forall key, 0 <= key <= 5 -> is_Some (stats_map s !! key).

(** Every processed packet has been counted under one outcome. *)
Definition stats_balanced (s : maps) : Prop :=
  u64 (counter s STAT_PACKETS_PROCESSED)
  = u64 (counter s STAT_PACKETS_ALLOWED + counter s STAT_PACKETS_DROPPED
         + counter s STAT_PACKETS_REDIRECTED + counter s STAT_PACKETS_TO_USERSPACE
         + counter s STAT_AUTH_REQUIRED).

(** The destination port [marchproxy_filter] puts in the rule key: [None]
    when the packet leaves for user space before the lookup. *)
Definition rule_port (ctx : xdp_md) (transport : Z) (protocol : Z) : option Z :=
  if protocol =? IPPROTO_TCP then
    if transport + TCPHDR_SIZE >? data_end ctx then None
    else Some (tcp_dest ctx transport)
  else if protocol =? IPPROTO_UDP then
    if transport + UDPHDR_SIZE >? data_end ctx then None
    else Some (udp_dest ctx transport)
  else if protocol =? IPPROTO_ICMP then Some 0
  else None.

End FilterSpec.

Module EnvoyXdpSpec.
Import Mach Packet EnvoyXdp.

(** The limiter is configured by [config], and the entry of [src_ip] holds
    [n] packets of the window started at [t0]. *)
Definition source_window_state (config : rate_limit_config) (src_ip t0 n : Z)
    (s : maps) : Prop :=
  rate_limit_config_map s = Some config
  /\ exists v, rate_limit_map s !! src_ip = Some v
               /\ packet_count v = n /\ last_reset_ns v = t0.

(** A packet of [src_ip] at [t0] starts a window: the source has no entry,
    or more than [window_ns] has elapsed since its window started. *)
Definition starts_source_window (config : rate_limit_config) (src_ip t0 : Z)
    (s : maps) : Prop :=
  rate_limit_config_map s = Some config
  /\ (rate_limit_map s !! src_ip = None
      \/ exists v, rate_limit_map s !! src_ip = Some v
                   /\ window_ns config < u64 (t0 - last_reset_ns v)).

(** [t] is at most [window_ns] after [t0]. *)
Definition within_window (config : rate_limit_config) (t0 t : Z) : Prop :=
  0 <= t - t0 <= window_ns config /\ t - t0 < 2^64.

(** A state with the limiter enabled for [max] packets per second and no
    entry yet. *)
Definition limiter_state (max : Z) : maps :=
  {| rate_limit_map := ∅;
     rate_limit_config_map :=
       Some {| window_ns := 1000000000; max_packets := max; enabled := 1 |};
     stats_map := None |}.

(** The counters written by [check_rate_limit] when it refuses a packet. *)
Definition count_rate_limited (st : stats) : stats :=
  {| total_packets := total_packets st; total_bytes := total_bytes st;
     http_packets := http_packets st; https_packets := https_packets st;
     http2_packets := http2_packets st; grpc_packets := grpc_packets st;
     websocket_packets := websocket_packets st;
     rate_limited := u64 (rate_limited st + 1);
     dropped := u64 (dropped st + 1) |}.

(** What one run of [xdp_envoy_filter] with verdict [v] does to the
    counters [st], for a TCP destination port [dest_port]. *)
Definition counters_advance (dest_port : Z) (len : Z) (v : xdp_action)
    (st st' : stats) : Prop :=
  total_packets st' = u64 (total_packets st + 1)
  /\ total_bytes st' = u64 (total_bytes st + len)
  /\ websocket_packets st' = websocket_packets st
  /\ (http_packets st' <> http_packets st -> dest_port = 80 \/ dest_port = 8080)
  /\ (https_packets st' <> https_packets st -> dest_port = 443 \/ dest_port = 8443)
  /\ (http2_packets st' <> http2_packets st
      -> dest_port = 80 \/ dest_port = 8080 \/ dest_port = 50051)
  /\ (grpc_packets st' <> grpc_packets st -> dest_port = 50051)
  /\ ((rate_limited st' = rate_limited st /\ dropped st' = dropped st)
      \/ (v = XDP_DROP /\ rate_limited st' = u64 (rate_limited st + 1)
          /\ dropped st' = u64 (dropped st + 1))).

(** A state of the L7 filter with all counters 0 and the limiter off. *)
Definition counting_state : maps :=
  {| rate_limit_map := ∅; rate_limit_config_map := None;
     stats_map :=
       Some {| total_packets := 0; total_bytes := 0; http_packets := 0;
               https_packets := 0; http2_packets := 0; grpc_packets := 0;
               websocket_packets := 0; rate_limited := 0; dropped := 0 |} |}.

End EnvoyXdpSpec.

(* ===================================================================== *)
(** ** Properties *)
(* ===================================================================== *)

Section MachFacts.
Import Mach.

Lemma u32_range x : 0 <= u32 x < 2^32.
Proof. unfold u32. apply Z.mod_pos_bound. lia. Qed.

Lemma u64_range x : 0 <= u64 x < 2^64.
Proof. unfold u64. apply Z.mod_pos_bound. lia. Qed.

Lemma u32_small x : 0 <= x < 2^32 -> u32 x = x.
Proof. intros H. unfold u32. now apply Z.mod_small. Qed.

Lemma u64_small x : 0 <= x < 2^64 -> u64 x = x.
Proof. intros H. unfold u64. now apply Z.mod_small. Qed.

(** An increment modulo 2^64 never returns the starting value. *)
Lemma u64_succ_neq x : u64 (x + 1) <> x.
Proof.
  unfold u64. intros H.
  assert (Hx : 0 <= x < 2^64) by (rewrite <- H; apply Z.mod_pos_bound; lia).
  destruct (Z.eq_dec x (2^64 - 1)) as [-> | Hne].
  - vm_compute in H. discriminate.
  - rewrite Z.mod_small in H by lia. lia.
Qed.

End MachFacts.
(* --------------------------------------------------------------------- *)
(** *** Updates of bounded hash maps *)
(* --------------------------------------------------------------------- *)

Section BpfMapFacts.
Import BpfMap.
Context `{Countable K} {V : Type}.

Lemma lookup_evict_notin (evicted : list K) (m : gmap K V) k :
  k ∉ evicted -> evict evicted m !! k = m !! k.
Proof.
  unfold evict. induction evicted as [| e evicted IH]; intros Hk; [reflexivity |].
  apply not_elem_of_cons in Hk. destruct Hk as [Hne Hk]. cbn [foldr].
  rewrite lookup_delete_ne by congruence. now apply IH.
Qed.

Lemma lookup_evict_in (evicted : list K) (m : gmap K V) k :
  k ∈ evicted -> evict evicted m !! k = None.
Proof.
  unfold evict. induction evicted as [| e evicted IH]; intros Hk.
  - now apply elem_of_nil in Hk.
  - cbn [foldr]. destruct (decide (e = k)) as [-> | Hne].
    + apply lookup_delete_eq.
    + rewrite lookup_delete_ne by assumption. apply IH.
      apply elem_of_cons in Hk. destruct Hk as [-> | Hk]; [congruence | assumption].
Qed.

(** The updated key holds the new value, whatever is evicted. *)
Lemma lru_update_lookup max_entries evicted k (v : V) (m : gmap K V) :
  lru_update max_entries evicted k v m !! k = Some v.
Proof. unfold lru_update. apply lookup_insert_eq. Qed.

(** Another key keeps its entry when the map has room or the key is not
    evicted, and loses it when the map is full and the key is evicted. *)
Lemma lru_update_lookup_ne max_entries evicted k k' (v : V) (m : gmap K V) :
  k' <> k ->
  lru_update max_entries evicted k v m !! k'
  = if full max_entries m && bool_decide (k' ∈ evicted) then None else m !! k'.
Proof.
  intros Hne. unfold lru_update. rewrite lookup_insert_ne by congruence.
  destruct (full max_entries m); cbn [andb]; [| reflexivity].
  destruct (bool_decide (k' ∈ evicted)) eqn:E.
  - apply bool_decide_eq_true_1 in E. now apply lookup_evict_in.
  - apply bool_decide_eq_false_1 in E. now apply lookup_evict_notin.
Qed.

(** Writing the updated key again replaces the value only. *)
Lemma insert_lru_update max_entries evicted k (v v' : V) (m : gmap K V) :
  <[k := v']> (lru_update max_entries evicted k v m)
  = lru_update max_entries evicted k v' m.
Proof. unfold lru_update. apply insert_insert_eq. Qed.

Lemma lru_update_room max_entries evicted k (v : V) (m : gmap K V) :
  full max_entries m = false ->
  lru_update max_entries evicted k v m = <[k := v]> m.
Proof. intros Hf. unfold lru_update. now rewrite Hf. Qed.

(** An update of a map declared with at least one entry that evicts one of
    its entries keeps the map within [max_entries]. *)
Lemma lru_update_size max_entries evicted k (v : V) (m : gmap K V) :
  0 < max_entries ->
  Z.of_nat (size m) <= max_entries ->
  (exists k', k' ∈ evicted /\ is_Some (m !! k')) ->
  Z.of_nat (size (lru_update max_entries evicted k v m)) <= max_entries.
Proof.
  intros Hpos Hsize (k' & Hin & [v' Hk']). unfold lru_update, full.
  destruct (max_entries <=? Z.of_nat (size m)) eqn:Hfull;
    [apply Z.leb_le in Hfull | apply Z.leb_gt in Hfull].
  - assert (Hsub : evict evicted m ⊆ delete k' m).
    { apply map_subseteq_spec. intros j x Hj.
      destruct (decide (j ∈ evicted)) as [Hje | Hje].
      - rewrite lookup_evict_in in Hj by assumption. discriminate.
      - rewrite lookup_evict_notin in Hj by assumption.
        rewrite lookup_delete_ne; [assumption |]. intros ->. contradiction. }
    apply map_subseteq_size in Hsub.
    rewrite map_size_delete_Some in Hsub by (eexists; eassumption).
    destruct (evict evicted m !! k) eqn:Hk.
    + rewrite map_size_insert_Some by (eexists; eassumption). lia.
    + rewrite map_size_insert_None by assumption. lia.
  - destruct (m !! k) eqn:Hk.
    + rewrite map_size_insert_Some by (eexists; eassumption). lia.
    + rewrite map_size_insert_None by assumption. lia.
Qed.

Lemma hash_update_present max_entries k (v v0 : V) (m : gmap K V) :
  m !! k = Some v0 -> hash_update max_entries k v m = <[k := v]> m.
Proof. intros Hk. unfold hash_update. now rewrite Hk. Qed.

Lemma hash_update_full max_entries k (v : V) (m : gmap K V) :
  m !! k = None -> full max_entries m = true -> hash_update max_entries k v m = m.
Proof. intros Hk Hf. unfold hash_update. now rewrite Hk, Hf. Qed.

Lemma hash_update_room max_entries k (v : V) (m : gmap K V) :
  full max_entries m = false -> hash_update max_entries k v m = <[k := v]> m.
Proof.
  intros Hf. unfold hash_update. rewrite Hf. now destruct (m !! k).
Qed.

End BpfMapFacts.


(* --------------------------------------------------------------------- *)
(** *** Connection tracking (enhanced_rules.c) *)
(* --------------------------------------------------------------------- *)

Section ConnectionTracking.
Import Mach Packet EnhancedRules EnhancedRulesSpec.

(** Once an entry exists under a hash, the tuple passed to
    [update_connection_tracking] matters only through that hash, and
    nothing is evicted. *)
Lemma update_connection_tracking_hit
    (src_ip dst_ip src_port dst_port protocol service_id packet_len now : Z)
    (evicted : list Z) (m : gmap Z connection) (c : connection) :
  m !! hash_connection src_ip dst_ip src_port dst_port protocol = Some c ->
  update_connection_tracking src_ip dst_ip src_port dst_port protocol
    service_id packet_len now evicted m
  = <[hash_connection src_ip dst_ip src_port dst_port protocol :=
        {| conn_src_ip := conn_src_ip c; conn_dst_ip := conn_dst_ip c;
           conn_src_port := conn_src_port c; conn_dst_port := conn_dst_port c;
           conn_protocol := conn_protocol c; conn_state := conn_state c;
           conn_last_activity := now;
           conn_packets_rx := u64 (conn_packets_rx c + 1);
           conn_packets_tx := conn_packets_tx c;
           conn_bytes_rx := u64 (conn_bytes_rx c + packet_len);
           conn_bytes_tx := conn_bytes_tx c;
           conn_service_id := conn_service_id c |}]> m.
Proof. intros H. unfold update_connection_tracking. now rewrite H. Qed.

Lemma update_connection_tracking_miss
    (src_ip dst_ip src_port dst_port protocol service_id packet_len now : Z)
    (evicted : list Z) (m : gmap Z connection) :
  m !! hash_connection src_ip dst_ip src_port dst_port protocol = None ->
  update_connection_tracking src_ip dst_ip src_port dst_port protocol
    service_id packet_len now evicted m
  = BpfMap.lru_update MAX_CONNECTION_TRACKING evicted
      (hash_connection src_ip dst_ip src_port dst_port protocol)
      {| conn_src_ip := src_ip; conn_dst_ip := dst_ip;
         conn_src_port := src_port; conn_dst_port := dst_port;
         conn_protocol := protocol; conn_state := 1;
         conn_last_activity := now;
         conn_packets_rx := 1; conn_packets_tx := 0;
         conn_bytes_rx := packet_len; conn_bytes_tx := 0;
         conn_service_id := service_id |} m.
Proof. intros H. unfold update_connection_tracking. now rewrite H. Qed.

(** Every call changes the table: it creates the entry or increments its
    packet counter. *)
Lemma update_connection_tracking_changes
    (src_ip dst_ip src_port dst_port protocol service_id packet_len now : Z)
    (evicted : list Z) (m : gmap Z connection) :
  update_connection_tracking src_ip dst_ip src_port dst_port protocol
    service_id packet_len now evicted m <> m.
Proof.
  set (h := hash_connection src_ip dst_ip src_port dst_port protocol).
  intros Heq.
  assert (Hl := f_equal (fun x => x !! h) Heq). cbv beta in Hl.
  destruct (m !! h) as [c|] eqn:Hm.
  - rewrite (update_connection_tracking_hit _ _ _ _ _ _ _ _ _ _ c Hm) in Hl.
    fold h in Hl. rewrite lookup_insert_eq in Hl.
    injection Hl as Hrx. apply (f_equal conn_packets_rx) in Hrx. simpl in Hrx.
    eapply u64_succ_neq; eassumption.
  - rewrite (update_connection_tracking_miss _ _ _ _ _ _ _ _ _ _ Hm) in Hl.
    fold h in Hl. rewrite lru_update_lookup in Hl. discriminate.
Qed.

Lemma lxor_below n a b :
  0 < n -> 0 <= a < 2^n -> 0 <= b < 2^n -> 0 <= Z.lxor a b < 2^n.
Proof.
  intros Hn Ha Hb.
  assert (H0 : 0 <= Z.lxor a b) by (apply Z.lxor_nonneg; lia).
  split; [assumption |].
  destruct (Z.eq_dec (Z.lxor a b) 0) as [-> | Hne]; [apply Z.pow_pos_nonneg; lia |].
  apply Z.log2_lt_pow2; [lia |].
  pose proof (Z.log2_lxor a b ltac:(lia) ltac:(lia)) as Hlog.
  assert (Hla : Z.log2 a < n).
  { destruct (Z.eq_dec a 0) as [-> | ?]; [cbn; lia | apply Z.log2_lt_pow2; lia]. }
  assert (Hlb : Z.log2 b < n).
  { destruct (Z.eq_dec b 0) as [-> | ?]; [cbn; lia | apply Z.log2_lt_pow2; lia]. }
  lia.
Qed.

(** The hash of a tuple of in-range fields is a 32-bit value. *)
Lemma hash_connection_u32 src_ip dst_ip src_port dst_port proto :
  0 <= src_ip < 2^32 -> 0 <= dst_ip < 2^32 ->
  0 <= src_port < 2^16 -> 0 <= dst_port < 2^16 -> 0 <= proto < 2^8 ->
  0 <= hash_connection src_ip dst_ip src_port dst_port proto < 2^32.
Proof.
  intros. unfold hash_connection.
  repeat apply lxor_below; try lia; try apply u32_range.
Qed.

(** XOR with a fixed value is injective. *)
Lemma lxor_cancel_l a x y : Z.lxor a x = Z.lxor a y -> x = y.
Proof.
  intros Heq. apply (f_equal (Z.lxor a)) in Heq.
  now rewrite <- (Z.lxor_assoc a a x), <- (Z.lxor_assoc a a y), Z.lxor_nilpotent,
    !Z.lxor_0_l in Heq.
Qed.

Lemma lxor_cancel_r a x y : Z.lxor x a = Z.lxor y a -> x = y.
Proof. rewrite !(Z.lxor_comm _ a). apply lxor_cancel_l. Qed.

(** C10.  The connection table is keyed by the XOR of the five tuple
    fields, a 32-bit value, and the stored tuple is never compared.
    (1) The key is [src_ip ^ dst_ip ^ (src_port << 16) ^ dst_port ^ proto];
    it depends on every field (two tuples that differ in the protocol only,
    or in the source address only, have different keys), and it is the same
    for any tuple and the tuple with source and destination address
    exchanged, so distinct tuples with one key exist.  (2) On a hit any
    tuple with the key of the entry is treated alike.  (3) The first packets
    of two colliding flows leave one shared entry, which carries the tuple
    and service of the first flow and the merged counters of both; the
    entry is written by the first packet, which on a full table evicts the
    entries the kernel chooses, and the second packet changes nothing
    else. *)
Theorem C10_hash_collision_shares_entry :
  (forall s d sp dp p,
      hash_connection s d sp dp p
      = Z.lxor s (Z.lxor d (Z.lxor (Z.shiftl sp 16 mod 2^32) (Z.lxor dp p)))
      /\ hash_connection s d sp dp p = hash_connection d s sp dp p
      /\ (forall p', p' <> p -> hash_connection s d sp dp p' <> hash_connection s d sp dp p)
      /\ (forall s', s' <> s -> hash_connection s' d sp dp p <> hash_connection s d sp dp p))
  /\ (exists a b : Z * Z * Z * Z * Z,
        a <> b /\
        (let '(s1, d1, sp1, dp1, p1) := a in hash_connection s1 d1 sp1 dp1 p1)
        = (let '(s2, d2, sp2, dp2, p2) := b in hash_connection s2 d2 sp2 dp2 p2))
  /\ (forall s1 d1 sp1 dp1 p1 s2 d2 sp2 dp2 p2 sid len now ev m c,
        hash_connection s1 d1 sp1 dp1 p1 = hash_connection s2 d2 sp2 dp2 p2 ->
        m !! hash_connection s1 d1 sp1 dp1 p1 = Some c ->
        update_connection_tracking s1 d1 sp1 dp1 p1 sid len now ev m
        = update_connection_tracking s2 d2 sp2 dp2 p2 sid len now ev m)
  /\ (forall s1 d1 sp1 dp1 p1 s2 d2 sp2 dp2 p2 sid1 sid2 len1 len2 now1 now2 ev1 ev2 m,
        hash_connection s1 d1 sp1 dp1 p1 = hash_connection s2 d2 sp2 dp2 p2 ->
        m !! hash_connection s1 d1 sp1 dp1 p1 = None ->
        let shared :=
          {| conn_src_ip := s1; conn_dst_ip := d1;
             conn_src_port := sp1; conn_dst_port := dp1;
             conn_protocol := p1; conn_state := 1;
             conn_last_activity := now2;
             conn_packets_rx := u64 (1 + 1); conn_packets_tx := 0;
             conn_bytes_rx := u64 (len1 + len2); conn_bytes_tx := 0;
             conn_service_id := sid1 |} in
        let m' := update_connection_tracking s2 d2 sp2 dp2 p2 sid2 len2 now2 ev2
                    (update_connection_tracking s1 d1 sp1 dp1 p1 sid1 len1 now1 ev1 m) in
        m' = BpfMap.lru_update MAX_CONNECTION_TRACKING ev1
               (hash_connection s1 d1 sp1 dp1 p1) shared m
        /\ m' !! hash_connection s1 d1 sp1 dp1 p1 = Some shared
        /\ (forall k, k <> hash_connection s1 d1 sp1 dp1 p1 ->
              m' !! k
              = if BpfMap.full MAX_CONNECTION_TRACKING m && bool_decide (k ∈ ev1)
                then None else m !! k))
  /\ (forall src_ip dst_ip src_port dst_port proto,
        0 <= src_ip < 2^32 -> 0 <= dst_ip < 2^32 ->
        0 <= src_port < 2^16 -> 0 <= dst_port < 2^16 -> 0 <= proto < 2^8 ->
        0 <= hash_connection src_ip dst_ip src_port dst_port proto < 2^32).
Proof.
  split; [| split; [| split; [| split]]]; [| | | | exact hash_connection_u32].
  - intros s d sp dp p. unfold hash_connection, u32.
    split; [now rewrite !Z.lxor_assoc |].
    split; [now rewrite (Z.lxor_comm s d) |].
    split.
    + intros p' Hne Heq. apply lxor_cancel_l in Heq. contradiction.
    + intros s' Hne Heq. do 4 apply lxor_cancel_r in Heq. contradiction.
  - exists (Samples.ip_10_0_0_1, Samples.ip_10_0_0_5, 40000, 443, 6),
           (Samples.ip_10_0_0_5, Samples.ip_10_0_0_1, 40000, 443, 6).
    split; [| reflexivity ].
    intros H. apply (f_equal (fun t => fst (fst (fst (fst t))))) in H.
    vm_compute in H. discriminate.
  - intros * Hh Hm.
    rewrite (update_connection_tracking_hit s1 _ _ _ _ _ _ _ _ _ c Hm).
    rewrite Hh in Hm.
    rewrite (update_connection_tracking_hit s2 _ _ _ _ _ _ _ _ _ c Hm).
    now rewrite Hh.
  - intros * Hh Hm shared m'. subst m' shared.
    rewrite (update_connection_tracking_miss s1 _ _ _ _ _ _ _ _ _ Hm).
    erewrite (update_connection_tracking_hit s2);
      [| rewrite <- Hh; apply lru_update_lookup ].
    rewrite <- Hh. cbn [conn_src_ip conn_dst_ip conn_src_port conn_dst_port
      conn_protocol conn_state conn_packets_rx conn_packets_tx conn_bytes_rx
      conn_bytes_tx conn_service_id].
    rewrite insert_lru_update.
    split; [reflexivity |]. split; [apply lru_update_lookup |].
    intros k Hk. now apply lru_update_lookup_ne.
Qed.

Lemma C10_witness :
  let shared :=
    {| conn_src_ip := Samples.ip_10_0_0_1; conn_dst_ip := Samples.ip_10_0_0_5;
       conn_src_port := 40000; conn_dst_port := 443;
       conn_protocol := 6; conn_state := 1;
       conn_last_activity := 2000;
       conn_packets_rx := u64 (1 + 1); conn_packets_tx := 0;
       conn_bytes_rx := u64 (100 + 60); conn_bytes_tx := 0;
       conn_service_id := 1 |} in
  let m' := update_connection_tracking Samples.ip_10_0_0_5 Samples.ip_10_0_0_1
              40000 443 6 2 60 2000 []
              (update_connection_tracking Samples.ip_10_0_0_1 Samples.ip_10_0_0_5
                 40000 443 6 1 100 1000 [] ∅) in
  m' = BpfMap.lru_update MAX_CONNECTION_TRACKING []
         (hash_connection Samples.ip_10_0_0_1 Samples.ip_10_0_0_5 40000 443 6) shared ∅
  /\ m' !! hash_connection Samples.ip_10_0_0_1 Samples.ip_10_0_0_5 40000 443 6
     = Some shared
  /\ (forall k, k <> hash_connection Samples.ip_10_0_0_1 Samples.ip_10_0_0_5 40000 443 6 ->
        m' !! k
        = if BpfMap.full MAX_CONNECTION_TRACKING (∅ : gmap Z connection)
             && bool_decide (k ∈ ([] : list Z))
          then None else (∅ : gmap Z connection) !! k).
Proof.
  apply (proj1 (proj2 (proj2 (proj2 C10_hash_collision_shares_entry)))
           Samples.ip_10_0_0_1 Samples.ip_10_0_0_5 40000 443 6
           Samples.ip_10_0_0_5 Samples.ip_10_0_0_1 40000 443 6
           1 2 100 60 1000 2000 [] [] ∅).
  - reflexivity.
  - reflexivity.
Defined.

End ConnectionTracking.

(* --------------------------------------------------------------------- *)
(** *** Token bucket (enhanced_rules.c) *)
(* --------------------------------------------------------------------- *)

Section TokenBucket.
Import Mach Packet EnhancedRules EnhancedRulesSpec.

(** A call leaves the buckets of the other keys as they were, except that
    the creation of a bucket in a full table evicts the buckets the kernel
    chooses. *)
Lemma check_rate_limit_other key key' limit now ev m :
  key <> key' ->
  snd (check_rate_limit key limit now ev m) !! key'
  = if bool_decide (m !! key = None) && BpfMap.full MAX_RATE_LIMIT_ENTRIES m
       && bool_decide (key' ∈ ev)
    then None else m !! key'.
Proof.
  intros Hne. unfold check_rate_limit.
  destruct (m !! key) as [e|] eqn:Hm; cbv zeta.
  - rewrite bool_decide_eq_false_2 by discriminate. cbn [andb].
    repeat match goal with
           | |- context [if ?b then _ else _] => destruct b
           end; cbn [snd]; now rewrite lookup_insert_ne.
  - rewrite bool_decide_eq_true_2 by reflexivity. cbn [andb snd].
    apply lru_update_lookup_ne. congruence.
Qed.

(** A bucket of another key found after a call was there before it. *)
Lemma check_rate_limit_other_Some key key' limit now ev m e :
  key <> key' ->
  snd (check_rate_limit key limit now ev m) !! key' = Some e -> m !! key' = Some e.
Proof.
  intros Hne. rewrite check_rate_limit_other by assumption.
  now destruct (_ && _).
Qed.

Lemma check_rate_limit_bounded key limit now ev m :
  0 < limit < 2^32 ->
  buckets_bounded limit m ->
  buckets_bounded limit (snd (check_rate_limit key limit now ev m)).
Proof.
  intros Hl Hb key' e'.
  destruct (Z.eq_dec key key') as [<- | Hne];
    [| intros He; apply (Hb key' e');
       now apply (check_rate_limit_other_Some key key' limit now ev m)].
  unfold check_rate_limit.
  destruct (m !! key) as [e|] eqn:Hm.
  - specialize (Hb key e Hm).
    set (add := u32 (u64 (u64 (now - rl_last_update e) * limit) / 1000000000)).
    destruct (0 <? add) eqn:Hadd; cbn [rl_tokens].
    + set (t := u32 (rl_tokens e + add)).
      assert (Ht := u32_range (rl_tokens e + add)). fold t in Ht.
      set (t' := if limit <? t then limit else t).
      assert (Ht' : 0 <= t' <= limit).
      { subst t'. destruct (limit <? t) eqn:E; [lia|]. apply Z.ltb_ge in E. lia. }
      destruct (0 <? t') eqn:Hpos; cbn [snd]; rewrite lookup_insert_eq;
        intros [= <-]; cbn [rl_tokens]; [| lia].
      apply Z.ltb_lt in Hpos. rewrite u32_small by lia. lia.
    + destruct (0 <? rl_tokens e) eqn:Hpos; cbn [snd]; rewrite lookup_insert_eq;
        intros [= <-]; cbn [rl_tokens]; [| lia].
      apply Z.ltb_lt in Hpos. rewrite u32_small by lia. lia.
  - cbn [snd]. rewrite lru_update_lookup. intros [= <-]. cbn [rl_tokens].
    rewrite u32_small by lia. lia.
Qed.

Lemma run_check_rate_limit_bounded limit calls :
  0 < limit < 2^32 ->
  forall m, buckets_bounded limit m ->
            buckets_bounded limit (snd (Trace.run_check_rate_limit limit calls m)).
Proof.
  intros Hl. induction calls as [| [[key now] ev] calls IH]; intros m Hb; [exact Hb |].
  cbn [Trace.run_check_rate_limit].
  pose proof (check_rate_limit_bounded key limit now ev m Hl Hb) as H1.
  destruct (check_rate_limit key limit now ev m) as [r m1]. cbn [snd] in H1.
  specialize (IH m1 H1).
  destruct (Trace.run_check_rate_limit limit calls m1) as [rs m2].
  exact IH.
Qed.

(** One call on an existing bucket, when no 32- or 64-bit quantity wraps:
    the refill is [elapsed * limit_pps / 10^9] tokens, capped at
    [limit_pps], and the packet is admitted exactly when a token is left. *)
Lemma check_rate_limit_refill key limit now ev m e :
  0 < limit < 2^32 ->
  m !! key = Some e ->
  0 <= rl_tokens e <= limit ->
  0 <= now - rl_last_update e ->
  (now - rl_last_update e) * limit < 2^64 ->
  rl_tokens e + (now - rl_last_update e) * limit / 1000000000 < 2^32 ->
  let refilled :=
    Z.min limit (rl_tokens e + (now - rl_last_update e) * limit / 1000000000) in
  fst (check_rate_limit key limit now ev m) = (0 <? refilled)
  /\ exists e', snd (check_rate_limit key limit now ev m) !! key = Some e'
                /\ rl_tokens e' = Z.max 0 (refilled - 1).
Proof.
  intros Hl Hm Ht Hel Hmul Hsum refilled.
  set (el := now - rl_last_update e) in *.
  assert (Hq : 0 <= el * limit / 1000000000).
  { apply Z.div_pos; nia. }
  unfold check_rate_limit. rewrite Hm. fold el.
  assert (Hel64 : u64 el = el).
  { apply u64_small. split; [lia|]. nia. }
  rewrite Hel64. rewrite (u64_small (el * limit)) by nia.
  rewrite (u32_small (el * limit / 1000000000)) by lia.
  destruct (0 <? el * limit / 1000000000) eqn:Hadd; cbn [rl_tokens].
  - rewrite (u32_small (rl_tokens e + el * limit / 1000000000)) by lia.
    assert (Hr : (if limit <? rl_tokens e + el * limit / 1000000000
                  then limit else rl_tokens e + el * limit / 1000000000) = refilled).
    { subst refilled. destruct (limit <? _) eqn:E;
        [apply Z.ltb_lt in E | apply Z.ltb_ge in E]; lia. }
    rewrite Hr.
    destruct (0 <? refilled) eqn:Hpos; cbn [fst snd]; (split; [reflexivity|]);
      eexists; (split; [apply lookup_insert_eq|]); cbn [rl_tokens].
    + apply Z.ltb_lt in Hpos. rewrite u32_small by (subst refilled; lia). lia.
    + apply Z.ltb_ge in Hpos. subst refilled. lia.
  - apply Z.ltb_ge in Hadd.
    assert (Hr : rl_tokens e = refilled) by (subst refilled; lia).
    rewrite Hr.
    destruct (0 <? refilled) eqn:Hpos; cbn [fst snd]; (split; [reflexivity|]);
      eexists; (split; [apply lookup_insert_eq|]); cbn [rl_tokens].
    + apply Z.ltb_lt in Hpos. rewrite u32_small by (subst refilled; lia). lia.
    + apply Z.ltb_ge in Hpos. lia.
Qed.

(** C2, in the form the code satisfies. When every update uses one limit
    [limit_pps > 0], no bucket ever holds more than [limit_pps] tokens, over
    any sequence of packet-triggered updates of any keys and whatever the
    kernel evicts from a full table: the capacity is the rate, and there is
    no burst allowance. Each refill adds [elapsed_ns * limit_pps / 10^9]
    tokens, capped at [limit_pps]. *)
Theorem C2_tokens_capped_at_rate (limit : Z) (Hlimit : 0 < limit < 2^32) :
  (forall calls m,
      buckets_bounded limit m ->
      buckets_bounded limit (snd (Trace.run_check_rate_limit limit calls m)))
  /\ (forall key now ev m e,
        m !! key = Some e ->
        0 <= rl_tokens e <= limit ->
        0 <= now - rl_last_update e ->
        (now - rl_last_update e) * limit < 2^64 ->
        rl_tokens e + (now - rl_last_update e) * limit / 1000000000 < 2^32 ->
        let refilled :=
          Z.min limit (rl_tokens e + (now - rl_last_update e) * limit / 1000000000) in
        fst (check_rate_limit key limit now ev m) = (0 <? refilled)
        /\ exists e', snd (check_rate_limit key limit now ev m) !! key = Some e'
                      /\ rl_tokens e' = Z.max 0 (refilled - 1)).
Proof.
  split.
  - intros calls m. now apply run_check_rate_limit_bounded.
  - intros key now ev m e. now apply check_rate_limit_refill.
Qed.

Lemma C2_witness :
  buckets_bounded 1000
    (snd (Trace.run_check_rate_limit 1000
            [(7, 0, []); (7, 5, []); (9, 6, [7]); (7, 2000000000, []);
             (7, 2000000001, [])] ∅)).
Proof.
  apply (proj1 (C2_tokens_capped_at_rate 1000 ltac:(lia))).
  intros key e He. rewrite lookup_empty in He. discriminate.
Defined.

(** Where the specification's bucket and the code differ.  With rate 1000
    and a burst allowance of 100 the specification refills an empty bucket to
    1100 tokens after two idle seconds and holds 1099 after the packet,
    while [check_rate_limit] holds 999: it caps at the rate.  And a bucket
    created under limit 1000 and next used under limit 10 one millisecond
    later holds 998 tokens, above the limit in force. *)
Lemma C2_counterexample :
  (let e := {| rl_key := 7; rl_last_update := 0; rl_packet_count := 1;
               rl_byte_count := 0; rl_tokens := 0 |} in
   rl_tokens <$> (snd (check_rate_limit 7 1000 2000000000 [] {[ 7 := e ]}) !! 7)
   = Some 999
   /\ Reference.spec_bucket_step 100 1000 0 2000000000 = (true, 1099))
  /\ (let m1 := snd (check_rate_limit 7 1000 0 [] ∅) in
      check_rate_limit 7 10 1000000 [] m1
      = (true, {[ 7 := {| rl_key := 7; rl_last_update := 0; rl_packet_count := 2;
                          rl_byte_count := 0; rl_tokens := 998 |} ]})).
Proof. split; [split|]; vm_compute; reflexivity. Qed.

End TokenBucket.

(* --------------------------------------------------------------------- *)
(** *** Service lookup (enhanced_rules.c) *)
(* --------------------------------------------------------------------- *)

Section ServiceLookup.
Import Mach Packet EnhancedRules EnhancedRulesSpec.

Lemma service_matches_spec svc dst_ip dst_port protocol :
  service_matches svc dst_ip dst_port protocol = true
  <-> Reference.service_match svc dst_ip dst_port protocol.
Proof.
  unfold service_matches, Reference.service_match.
  rewrite !andb_true_iff, orb_true_iff, !Z.eqb_eq, Z.geb_le, Z.leb_le. tauto.
Qed.

(** The loop started at [k0] with enough fuel to reach [MAX_SERVICES]. *)
Lemma find_service_from m dst_ip dst_port protocol fuel :
  forall k0,
    1 <= k0 ->
    MAX_SERVICES + 1 <= k0 + Z.of_nat fuel ->
    match find_service m dst_ip dst_port protocol fuel k0 with
    | Some (k, svc) =>
        k0 <= k <= MAX_SERVICES /\ m !! k = Some svc
        /\ Reference.service_match svc dst_ip dst_port protocol
        /\ (forall k' svc', k0 <= k' < k -> m !! k' = Some svc' ->
                            ~ Reference.service_match svc' dst_ip dst_port protocol)
    | None =>
        forall k' svc', k0 <= k' <= MAX_SERVICES -> m !! k' = Some svc' ->
                        ~ Reference.service_match svc' dst_ip dst_port protocol
    end.
Proof.
  induction fuel as [| fuel IH]; intros k0 Hk0 Hfuel.
  - cbn [find_service]. intros k' svc' Hk'. lia.
  - cbn [find_service].
    destruct (k0 <=? MAX_SERVICES) eqn:Hle;
      [apply Z.leb_le in Hle | apply Z.leb_gt in Hle; intros k' svc' Hk'; lia].
    assert (Hrec := IH (k0 + 1) ltac:(lia) ltac:(lia)).
    assert (Hskip :
      (forall svc, m !! k0 = Some svc ->
                   ~ Reference.service_match svc dst_ip dst_port protocol) ->
      match find_service m dst_ip dst_port protocol fuel (k0 + 1) with
      | Some (k, svc) =>
          k0 <= k <= MAX_SERVICES /\ m !! k = Some svc
          /\ Reference.service_match svc dst_ip dst_port protocol
          /\ (forall k' svc', k0 <= k' < k -> m !! k' = Some svc' ->
                              ~ Reference.service_match svc' dst_ip dst_port protocol)
      | None =>
          forall k' svc', k0 <= k' <= MAX_SERVICES -> m !! k' = Some svc' ->
                          ~ Reference.service_match svc' dst_ip dst_port protocol
      end).
    { intros Hk0no.
      destruct (find_service m dst_ip dst_port protocol fuel (k0 + 1)) as [[k svc]|].
      - destruct Hrec as (Hr & Hlk & Hmt & Hfirst).
        split; [lia |]. split; [assumption |]. split; [assumption |].
        intros k' svc' Hk' Hl'.
        destruct (Z.eq_dec k' k0) as [-> | Hne]; [now apply Hk0no |].
        apply (Hfirst k' svc'); [lia | assumption].
      - intros k' svc' Hk' Hl'.
        destruct (Z.eq_dec k' k0) as [-> | Hne]; [now apply Hk0no |].
        apply (Hrec k' svc'); [lia | assumption]. }
    destruct (m !! k0) as [svc0|] eqn:Hm0.
    + destruct (service_matches svc0 dst_ip dst_port protocol) eqn:Hmatch.
      * apply service_matches_spec in Hmatch.
        split; [lia |]. split; [assumption |]. split; [assumption |].
        intros k' svc' Hk'. lia.
      * apply Hskip. intros svc [= <-] Hc.
        apply service_matches_spec in Hc. congruence.
    + apply Hskip. intros svc [=].
Qed.

(** C8, in the form the code satisfies.  The service lookup of
    [process_packet] returns the service [svc]
    under key [k] exactly when [svc] is configured under [k], its
    [ip_addr] equals [dst_ip], [dst_port] lies in
    [[port_start, port_end]], its protocol is 0 or the packet's, and no
    key before [k] in the iteration order 1, 2, ..., [MAX_SERVICES] holds a
    service that satisfies the same condition; it returns no service
    exactly when no key of that range holds such a service. *)
Theorem C8_find_service_first_match
    (m : gmap Z service) (dst_ip dst_port protocol : Z) :
  let first_match k svc :=
    1 <= k <= MAX_SERVICES /\ m !! k = Some svc
    /\ Reference.service_match svc dst_ip dst_port protocol
    /\ (forall k' svc', 1 <= k' < k -> m !! k' = Some svc' ->
                        ~ Reference.service_match svc' dst_ip dst_port protocol) in
  (forall k svc,
      find_service m dst_ip dst_port protocol (Z.to_nat MAX_SERVICES) 1 = Some (k, svc)
      <-> first_match k svc)
  /\ (find_service m dst_ip dst_port protocol (Z.to_nat MAX_SERVICES) 1 = None
      <-> forall k svc, 1 <= k <= MAX_SERVICES -> m !! k = Some svc ->
                        ~ Reference.service_match svc dst_ip dst_port protocol).
Proof.
  intros first_match.
  pose proof (find_service_from m dst_ip dst_port protocol (Z.to_nat MAX_SERVICES) 1
                ltac:(lia) ltac:(vm_compute; discriminate)) as H.
  destruct (find_service m dst_ip dst_port protocol (Z.to_nat MAX_SERVICES) 1)
    as [[k0 svc0]|].
  - destruct H as (Hr & Hlk & Hmt & Hfirst).
    split.
    + intros k svc. split.
      * intros [= <- <-]. split; [lia |]. split; [assumption |]. split; assumption.
      * intros (Hr' & Hlk' & Hmt' & Hfirst').
        destruct (Z.lt_trichotomy k k0) as [Hlt | [-> | Hgt]].
        -- exfalso. apply (Hfirst k svc); [lia | assumption | assumption].
        -- congruence.
        -- exfalso. apply (Hfirst' k0 svc0); [lia | assumption | assumption].
    + split; [discriminate |].
      intros Hnone. exfalso. apply (Hnone k0 svc0); [lia | assumption | assumption].
  - split.
    + intros k svc. split; [discriminate |].
      intros (Hr' & Hlk' & Hmt' & _). exfalso. now apply (H k svc).
    + split; [intros _; exact H | reflexivity].
Qed.

(** Two services match the same packet; the one under the smaller key is
    returned. *)
Lemma C8_witness :
  find_service {[ 3 := Samples.tcp_service 443 0 0; 9 := Samples.tcp_service 443 1 0 ]}
    Samples.ip_10_0_0_5 443 6 (Z.to_nat MAX_SERVICES) 1
  = Some (3, Samples.tcp_service 443 0 0).
Proof.
  apply (proj1 (C8_find_service_first_match
                  {[ 3 := Samples.tcp_service 443 0 0; 9 := Samples.tcp_service 443 1 0 ]}
                  Samples.ip_10_0_0_5 443 6)).
  split; [unfold MAX_SERVICES; lia |]. split; [reflexivity |]. split.
  - split; [reflexivity |]. split; [cbn; lia | right; reflexivity].
  - intros k' svc' Hk' Hl'.
    assert (Hk : k' = 1 \/ k' = 2) by lia.
    destruct Hk as [-> | ->]; vm_compute in Hl'; discriminate.
Defined.

(** Where the specification and the code differ: the loop visits keys 1 to
    [MAX_SERVICES] only, while [services_map] is a hash keyed by any 32-bit
    service id.  A configured service that satisfies the match condition
    but is stored under key 2000, or under key 0, is never returned. *)
Lemma C8_counterexample :
  let svc := Samples.tcp_service 443 0 0 in
  Reference.service_match svc Samples.ip_10_0_0_5 443 6
  /\ ({[ 2000 := svc ]} : gmap Z service) !! 2000 = Some svc
  /\ find_service {[ 2000 := svc ]} Samples.ip_10_0_0_5 443 6 (Z.to_nat MAX_SERVICES) 1
     = None
  /\ ({[ 0 := svc ]} : gmap Z service) !! 0 = Some svc
  /\ find_service {[ 0 := svc ]} Samples.ip_10_0_0_5 443 6 (Z.to_nat MAX_SERVICES) 1
     = None.
Proof.
  cbv zeta. split.
  - split; [reflexivity |]. split; [cbn; lia | right; reflexivity].
  - repeat split; vm_compute; reflexivity.
Qed.

End ServiceLookup.

(* --------------------------------------------------------------------- *)
(** *** Authentication fast path (enhanced_rules.c) *)
(* --------------------------------------------------------------------- *)

Section Authentication.
Import Mach Packet EnhancedRules EnhancedRulesSpec.

Lemma scan_auth_header_nonzero ctx payload :
  payload + 32 <= data_end ctx ->
  forall fuel i h,
    0 <= i -> i + Z.of_nat fuel = 24 -> h <> 0 ->
    (scan_auth_header ctx payload fuel i = h
     <-> exists k, first_auth_literal ctx payload i k
                   /\ load_u32 ctx (payload + k + 20) = h).
Proof.
  intros Hlen. induction fuel as [| fuel IH]; intros i h Hi Hfuel Hh.
  - cbn [scan_auth_header]. split; [congruence |].
    intros (k & (Hk & _) & _). lia.
  - cbn [scan_auth_header].
    replace ((i <? 24) && (payload + i + 8 <? data_end ctx)) with true
      by (symmetry; apply andb_true_iff; split; apply Z.ltb_lt; lia).
    destruct (auth_literal_at ctx (payload + i)) eqn:Hlit.
    + split.
      * intros <-. exists i. split; [| reflexivity].
        split; [lia |]. split; [assumption |]. intros j Hj. lia.
      * intros (k & (Hk & Hkl & Hfirst) & Hload).
        destruct (Z.eq_dec k i) as [-> | Hne]; [assumption |].
        rewrite (Hfirst i) in Hlit by lia. discriminate.
    + rewrite (IH (i + 1) h) by lia. split.
      * intros (k & (Hk & Hkl & Hfirst) & Hload). exists k.
        split; [| assumption]. split; [lia |]. split; [assumption |].
        intros j Hj. destruct (Z.eq_dec j i) as [-> | Hne]; [assumption |].
        apply Hfirst. lia.
      * intros (k & (Hk & Hkl & Hfirst) & Hload). exists k.
        split; [| assumption].
        assert (k <> i) by (intros ->; congruence).
        split; [lia |]. split; [assumption |].
        intros j Hj. apply Hfirst. lia.
Qed.

Lemma token_check_accepts ctx payload service_id now toks :
  payload + 32 <= data_end ctx ->
  (let token_hash := scan_auth_header ctx payload 24 0 in
   if token_hash =? 0 then false
   else match toks !! token_hash with
        | None => false
        | Some token =>
            if now >? tok_expiry_time token then false
            else if negb (tok_service_id token =? service_id)
                    && negb (tok_service_id token =? 0) then false
            else true
        end) = true
  <-> token_accepted ctx payload service_id now toks.
Proof.
  intros Hlen. cbv zeta. unfold token_accepted.
  set (h := scan_auth_header ctx payload 24 0).
  assert (Hscan : forall h', h' <> 0 ->
            (h = h' <-> exists k, first_auth_literal ctx payload 0 k
                                  /\ load_u32 ctx (payload + k + 20) = h')).
  { intros h' Hh'. apply scan_auth_header_nonzero; [assumption | lia | reflexivity | assumption]. }
  split.
  - destruct (h =? 0) eqn:Hz; [discriminate |]. apply Z.eqb_neq in Hz.
    destruct (toks !! h) as [token|] eqn:Htok; [| discriminate].
    destruct (now >? tok_expiry_time token) eqn:Hexp; [discriminate |].
    destruct (negb (tok_service_id token =? service_id)
              && negb (tok_service_id token =? 0)) eqn:Hsvc; [discriminate |].
    intros _.
    destruct (proj1 (Hscan h Hz) eq_refl) as (k & Hfirst & Hload).
    exists k, token. rewrite Hload.
    split; [assumption |]. split; [assumption |]. split; [assumption |].
    split; [rewrite Z.gtb_ltb in Hexp; apply Z.ltb_ge in Hexp; lia |].
    apply andb_false_iff in Hsvc.
    destruct Hsvc as [H | H]; apply negb_false_iff, Z.eqb_eq in H; tauto.
  - intros (k & token & Hfirst & Hnz & Htok & Hexp & Hsvc).
    assert (Hh : h = load_u32 ctx (payload + k + 20))
      by (apply (Hscan _ Hnz); eauto).
    rewrite Hh. rewrite (proj2 (Z.eqb_neq _ _) Hnz), Htok.
    rewrite Z.gtb_ltb, (proj2 (Z.ltb_ge _ _) Hexp).
    destruct Hsvc as [-> | ->]; rewrite Z.eqb_refl; cbn;
      [rewrite andb_false_r |]; reflexivity.
Qed.

(** C5, in the form the code satisfies. [check_authentication] accepts
    exactly: a frame that is not IPv4; an IPv4 packet that is not TCP; a TCP
    packet with fewer than 32 payload bytes; and a TCP packet with at least 32
    payload bytes whose extracted token hash is not 0, is present in the token
    table, is not expired ([now <= expiry_time]) and has [service_id] 0 or
    that of the requesting service. With 32 payload bytes every miss, expiry
    or service mismatch is a reject, as is any truncated header. *)
Theorem C5_check_authentication_accepts
    (ctx : xdp_md) (service_id now : Z) (toks : gmap Z auth_token) :
  let ip := ETH_HLEN in
  let tcp := ip + ip_ihl ctx ip * 4 in
  let payload := tcp + tcp_doff ctx tcp * 4 in
  check_authentication ctx service_id now toks = true
  <-> ETH_HLEN <= data_end ctx
      /\ (eth_h_proto ctx <> ETH_P_IP
          \/ (ip + IPHDR_SIZE <= data_end ctx
              /\ (ip_protocol ctx ip <> PROTO_TCP
                  \/ (tcp + TCPHDR_SIZE <= data_end ctx
                      /\ (data_end ctx < payload + 32
                          \/ (payload + 32 <= data_end ctx
                              /\ token_accepted ctx payload service_id now toks)))))).
Proof.
  intros ip tcp payload. subst ip. unfold check_authentication. cbv zeta.
  fold tcp. fold payload.
  rewrite !Z.gtb_ltb.
  destruct (data_end ctx <? ETH_HLEN) eqn:H1;
    [apply Z.ltb_lt in H1 | apply Z.ltb_ge in H1]; cbv beta iota.
  { split; [discriminate | intros [? _]; lia]. }
  destruct (eth_h_proto ctx =? ETH_P_IP) eqn:H2;
    [apply Z.eqb_eq in H2 | apply Z.eqb_neq in H2]; cbn [negb]; cbv beta iota.
  2: { split; [intros _ | reflexivity]. split; [lia | now left]. }
  destruct (data_end ctx <? ETH_HLEN + IPHDR_SIZE) eqn:H3;
    [apply Z.ltb_lt in H3 | apply Z.ltb_ge in H3]; cbv beta iota.
  { split; [discriminate | intros [_ [? | [? _]]]; [congruence | lia]]. }
  destruct (ip_protocol ctx ETH_HLEN =? PROTO_TCP) eqn:H4;
    [apply Z.eqb_eq in H4 | apply Z.eqb_neq in H4]; cbn [negb]; cbv beta iota.
  2: { split; [intros _ | reflexivity].
       split; [lia |]. right. split; [lia |]. now left. }
  destruct (data_end ctx <? tcp + TCPHDR_SIZE) eqn:H5;
    [apply Z.ltb_lt in H5 | apply Z.ltb_ge in H5]; cbv beta iota.
  { split; [discriminate |].
    intros [_ [? | [_ [? | [? _]]]]]; [congruence | congruence | lia]. }
  destruct (data_end ctx <? payload + 32) eqn:H6;
    [apply Z.ltb_lt in H6 | apply Z.ltb_ge in H6]; cbv beta iota.
  { split; [intros _ | reflexivity].
    split; [lia |]. right. split; [lia |]. right. split; [lia |]. now left. }
  rewrite (token_check_accepts ctx payload service_id now toks H6).
  split.
  - intros Hacc. split; [lia |]. right. split; [lia |]. right. split; [lia |].
    right. split; [lia | assumption].
  - intros [_ [? | [_ [? | [_ [? | [_ Hacc]]]]]]];
      [congruence | congruence | lia | assumption].
Qed.

Lemma C5_witness :
  check_authentication (Samples.tcp_packet 8080 auth_payload) 1 1003 auth_table = true.
Proof.
  apply (proj2 (C5_check_authentication_accepts
                  (Samples.tcp_packet 8080 auth_payload) 1 1003 auth_table)).
  split; [vm_compute; discriminate |]. right.
  split; [vm_compute; discriminate |]. right.
  split; [vm_compute; discriminate |]. right.
  split; [vm_compute; discriminate |].
  exists 0, {| tok_token_hash := 0x12345678; tok_service_id := 0;
               tok_expiry_time := 5000; tok_permissions := 1 |}.
  split.
  - split; [lia |]. split; [vm_compute; reflexivity |]. intros j Hj. lia.
  - split; [vm_compute; discriminate |].
    split; [vm_compute; reflexivity |].
    split; [cbn; lia | left; reflexivity].
Defined.

(** With an empty token table nothing can be present in it, yet a UDP
    packet and a TCP segment without payload are both accepted. *)
Lemma C5_counterexample :
  check_authentication (Samples.udp_packet 8080 Samples.plain_payload) 1 1003 ∅ = true
  /\ check_authentication (Samples.tcp_packet 8080 []) 1 1003 ∅ = true.
Proof. split; vm_compute; reflexivity. Qed.

End Authentication.

(* --------------------------------------------------------------------- *)
(** *** TLS detection (enhanced_rules.c, envoy_xdp.c) *)
(* --------------------------------------------------------------------- *)

Section TlsDetection.
Import Mach Packet EnhancedRules EnhancedRulesSpec.

Lemma detect_tls_spec ctx payload :
  EnvoyXdp.detect_tls ctx payload = true
  <-> payload + 3 <= data_end ctx
      /\ Reference.spec_tls_prefix (load_u8 ctx payload) (load_u8 ctx (payload + 1))
           (load_u8 ctx (payload + 2)) = true.
Proof.
  unfold EnvoyXdp.detect_tls, Reference.spec_tls_prefix.
  rewrite Z.gtb_ltb, !Z.geb_leb.
  destruct (data_end ctx <? payload + 3) eqn:H;
    [apply Z.ltb_lt in H | apply Z.ltb_ge in H].
  - split; [discriminate | intros [? _]; lia].
  - split; [intros ->; split; [lia | reflexivity] | intros [_ ->]; reflexivity].
Qed.

(** C6, in the form the code satisfies. For a service without TLS, WebSocket
    or complex authentication and a well-formed TCP segment to a port other
    than 443 that does not begin with [GET], [needs_complex_processing]
    reports the payload exactly when at least 6 payload bytes are present,
    byte 0 is 0x16 and byte 1 is 0x03; byte 0 = 0x17 is not recognised and
    byte 2 is not examined. [detect_tls] of the L7 filter reports TLS exactly
    when at least 3 bytes are present, byte 0 is 0x16 or 0x17, byte 1 is 0x03
    and byte 2 lies in [0x01, 0x04]. With fewer bytes both checks return 0,
    the result they give for a payload that is not TLS. *)
Theorem C6_tls_checks :
  (forall (ctx : xdp_md) (svc : service),
      let tcp := ETH_HLEN + ip_ihl ctx ETH_HLEN * 4 in
      let payload := tcp + tcp_doff ctx tcp * 4 in
      svc_requires_tls svc = 0 ->
      svc_allows_websocket svc = 0 ->
      svc_auth_type svc <> AUTH_COMPLEX ->
      eth_h_proto ctx = ETH_P_IP ->
      ip_protocol ctx ETH_HLEN = PROTO_TCP ->
      tcp + TCPHDR_SIZE <= data_end ctx ->
      ETH_HLEN + IPHDR_SIZE <= data_end ctx ->
      tcp_dest ctx tcp <> 443 ->
      ~ (load_u8 ctx payload = 71 /\ load_u8 ctx (payload + 1) = 69
         /\ load_u8 ctx (payload + 2) = 84) ->
      (needs_complex_processing ctx (Some svc) = true
       <-> payload + 6 <= data_end ctx
           /\ load_u8 ctx payload = 0x16 /\ load_u8 ctx (payload + 1) = 0x03))
  /\ (forall (ctx : xdp_md) (payload : Z),
        EnvoyXdp.detect_tls ctx payload = true
        <-> payload + 3 <= data_end ctx
            /\ (load_u8 ctx payload = 0x16 \/ load_u8 ctx payload = 0x17)
            /\ load_u8 ctx (payload + 1) = 0x03
            /\ 0x01 <= load_u8 ctx (payload + 2) <= 0x04).
Proof.
  split.
  - intros ctx svc tcp payload Htls Hws Hauth Heth Hproto Htcp Hip Hport Hget.
    unfold needs_complex_processing, nonzero. cbv zeta. fold tcp. fold payload.
    rewrite Htls, Hws, Heth, Hproto. cbn [Z.eqb negb]. cbv beta iota.
    rewrite (proj2 (Z.eqb_neq _ _) Hauth).
    rewrite !Z.gtb_ltb.
    rewrite (proj2 (Z.ltb_ge (data_end ctx) ETH_HLEN))
      by (unfold ETH_HLEN, IPHDR_SIZE in *; lia).
    rewrite (proj2 (Z.ltb_ge _ _) Hip).
    rewrite !Z.eqb_refl. cbn [negb].
    rewrite (proj2 (Z.ltb_ge _ _) Htcp).
    rewrite (proj2 (Z.eqb_neq _ _) Hport).
    destruct (payload + 6 <=? data_end ctx) eqn:H6;
      [apply Z.leb_le in H6 | apply Z.leb_gt in H6].
    + destruct ((load_u8 ctx payload =? 22) && (load_u8 ctx (payload + 1) =? 3)) eqn:Ht.
      * apply andb_true_iff in Ht. rewrite !Z.eqb_eq in Ht. tauto.
      * destruct ((load_u8 ctx payload =? 71) && (load_u8 ctx (payload + 1) =? 69)
                  && (load_u8 ctx (payload + 2) =? 84)) eqn:Hg.
        -- rewrite !andb_true_iff, !Z.eqb_eq in Hg. tauto.
        -- split; [discriminate |]. intros (_ & H0 & H1).
           rewrite H0, H1 in Ht. discriminate.
    + split; [discriminate | intros [? _]; lia].
  - intros ctx payload. rewrite detect_tls_spec. unfold Reference.spec_tls_prefix.
    rewrite !andb_true_iff, orb_true_iff, !Z.eqb_eq, !Z.leb_le. tauto.
Qed.

Lemma C6_witness :
  needs_complex_processing (Samples.tcp_packet 8443 [0x16; 0x03; 0x03; 0; 0; 0])
    (Some (Samples.tcp_service 8443 0 0)) = true.
Proof.
  apply (proj1 C6_tls_checks
           (Samples.tcp_packet 8443 [0x16; 0x03; 0x03; 0; 0; 0])
           (Samples.tcp_service 8443 0 0));
    try reflexivity; try (vm_compute; discriminate).
  - vm_compute. intros (H & _). discriminate.
  - split; [vm_compute; discriminate |]. split; reflexivity.
Defined.

(** The specification's rule calls [17 03 03] TLS and [16 03 09] not TLS;
    [needs_complex_processing] answers the other way round in both cases,
    and for the three bytes [16 03 03] alone, which suffice for the
    specification's rule, it returns 0 as for a payload that is not TLS.
    [detect_tls] likewise returns 0 both for the two bytes [16 03] and for
    three bytes that are not TLS. *)
Lemma C6_counterexample :
  (Reference.spec_tls_prefix 0x17 0x03 0x03 = true
   /\ needs_complex_processing (Samples.tcp_packet 8443 [0x17; 0x03; 0x03; 0; 0; 0])
        (Some (Samples.tcp_service 8443 0 0)) = false)
  /\ (Reference.spec_tls_prefix 0x16 0x03 0x09 = false
      /\ needs_complex_processing (Samples.tcp_packet 8443 [0x16; 0x03; 0x09; 0; 0; 0])
           (Some (Samples.tcp_service 8443 0 0)) = true)
  /\ (Reference.spec_tls_prefix 0x16 0x03 0x03 = true
      /\ needs_complex_processing (Samples.tcp_packet 8443 [0x16; 0x03; 0x03])
           (Some (Samples.tcp_service 8443 0 0)) = false
      /\ needs_complex_processing (Samples.tcp_packet 8443 [0; 0; 0])
           (Some (Samples.tcp_service 8443 0 0)) = false)
  /\ (EnvoyXdp.detect_tls (frame [0x16; 0x03]) 0 = false
      /\ EnvoyXdp.detect_tls (frame [0; 0; 0]) 0 = false).
Proof. repeat split; vm_compute; reflexivity. Qed.

End TlsDetection.

(* --------------------------------------------------------------------- *)
(** *** The decision engine (enhanced_rules.c) *)
(* --------------------------------------------------------------------- *)

Section DecisionEngine.
Import Mach Packet EnhancedRules EnhancedRulesSpec.

(** Case analysis on the next [if] or [match] of the goal. *)
Ltac break_step :=
  match goal with
  | |- context [if ?b then _ else _] => destruct b eqn:?
  | |- context [match ?x with _ => _ end] => destruct x eqn:?
  end; cbv beta iota; cbn [fst snd].

Lemma parse_transport_none ctx protocol th :
  parse_transport ctx protocol th = None
  <-> ((protocol =? IPPROTO_TCP) && (data_end ctx <? th + TCPHDR_SIZE))
      || ((protocol =? IPPROTO_UDP) && (data_end ctx <? th + UDPHDR_SIZE))
      || ((protocol =? IPPROTO_ICMP) && (data_end ctx <? th + ICMPHDR_SIZE)) = true.
Proof.
  unfold parse_transport, PROTO_TCP, PROTO_UDP, PROTO_ICMP,
    IPPROTO_TCP, IPPROTO_UDP, IPPROTO_ICMP.
  rewrite !Z.gtb_ltb.
  destruct (protocol =? 6) eqn:E6.
  { apply Z.eqb_eq in E6. subst protocol. cbn [Z.eqb Pos.eqb andb orb].
    rewrite ?orb_false_r. destruct (data_end ctx <? th + TCPHDR_SIZE); split; congruence. }
  destruct (protocol =? 17) eqn:E17.
  { apply Z.eqb_eq in E17. subst protocol. cbn [Z.eqb Pos.eqb andb orb].
    rewrite ?orb_false_r. destruct (data_end ctx <? th + UDPHDR_SIZE); split; congruence. }
  destruct (protocol =? 1) eqn:E1; cbn [andb orb].
  { destruct (data_end ctx <? th + ICMPHDR_SIZE); split; congruence. }
  split; congruence.
Qed.

(** The body jumps to [drop_invalid] exactly on a truncated header. *)
Lemma body_drop_invalid_iff ctx clk ev s :
  fst (process_packet_body ctx clk ev s) = drop_invalid
  <-> Reference.truncated_headers ctx = true.
Proof.
  unfold process_packet_body, Reference.truncated_headers. cbv zeta.
  rewrite !Z.gtb_ltb.
  destruct (data_end ctx <? ETH_HLEN) eqn:H1; cbv beta iota; cbn [fst];
    [split; reflexivity |].
  destruct (eth_h_proto ctx =? ETH_P_IP) eqn:H2; cbn [negb]; cbv beta iota; cbn [fst];
    [| split; discriminate].
  destruct (data_end ctx <? ETH_HLEN + IPHDR_SIZE) eqn:H3; cbv beta iota; cbn [fst];
    [split; reflexivity |].
  rewrite <- parse_transport_none.
  destruct (parse_transport ctx (ip_protocol ctx ETH_HLEN)
              (ETH_HLEN + ip_ihl ctx ETH_HLEN * 4)) as [[[sp dp]|]|];
    cbn [fst]; [| split; discriminate | split; reflexivity].
  repeat break_step; split; discriminate.
Qed.

(** Case analysis on the next [if] or [match] of hypothesis [H]. *)
Ltac break_in H :=
  match type of H with
  | context [if ?b then _ else _] => destruct b eqn:?
  | context [match ?x with _ => _ end] => destruct x eqn:?
  end; cbv beta iota in H.

(** What the body does to the maps, by the exit it takes. *)
Lemma process_packet_body_inv ctx clk ev s l s' :
  process_packet_body ctx clk ev s = (l, s') ->
  auth_tokens_map s' = auth_tokens_map s
  /\ afxdp_redirect_map s' = afxdp_redirect_map s
  /\ stats_map s'
     = match l with
       | drop_rate_limited =>
           add_rate_limited <$> (add_total_packets (t_process_packet clk) <$> stats_map s)
       | drop_auth_failure =>
           add_auth_failures <$> (add_total_packets (t_process_packet clk) <$> stats_map s)
       | _ => add_total_packets (t_process_packet clk) <$> stats_map s
       end
  /\ match l with
     | drop_invalid | pass_simple =>
         services_map s' = services_map s
         /\ rate_limit_map s' = rate_limit_map s
         /\ connection_map s' = connection_map s
     | drop_rate_limited => connection_map s' = connection_map s
     | drop_auth_failure | redirect_complex | pass_fast =>
         exists service_id src_port dst_port,
           connection_map s'
           = update_connection_tracking (ip_saddr ctx ETH_HLEN) (ip_daddr ctx ETH_HLEN)
               src_port dst_port (ip_protocol ctx ETH_HLEN) service_id
               (u32 (data_end ctx)) (t_update_connection_tracking clk)
               (ev_connection_map ev) (connection_map s)
     end.
Proof.
  unfold process_packet_body. cbv zeta. intros H.
  repeat break_in H; injection H as <- <-;
    cbn [auth_tokens_map afxdp_redirect_map stats_map services_map rate_limit_map
         connection_map];
    (split; [reflexivity |]); (split; [reflexivity |]); (split; [reflexivity |]);
    first [ reflexivity
          | split; [reflexivity |]; split; reflexivity
          | do 3 eexists; reflexivity ].
Qed.


(** Whether authentication refuses is decided by two tests. *)
Lemma classic_auth ctx clk s k svc :
  authentication_refuses ctx clk s k svc \/ ~ authentication_refuses ctx clk s k svc.
Proof.
  unfold authentication_refuses.
  destruct (Z.eq_dec (svc_auth_type svc) AUTH_SIMPLE) as [Ht | Ht]; [| right; tauto].
  destruct (check_authentication ctx k (t_check_authentication clk)
              (auth_tokens_map s)); [right | left; auto].
  intros [_ H]. discriminate.
Qed.

(** The guards passed by a classified packet. *)
Lemma classified_guards ctx s k svc sp dp :
  classified ctx s k svc sp dp ->
  (ETH_HLEN >? data_end ctx) = false
  /\ negb (eth_h_proto ctx =? ETH_P_IP) = false
  /\ (ETH_HLEN + IPHDR_SIZE >? data_end ctx) = false.
Proof.
  intros (H1 & H2 & H3 & _). rewrite !Z.gtb_ltb.
  rewrite (proj2 (Z.ltb_ge _ _) H1), (proj2 (Z.ltb_ge _ _) H3).
  rewrite (proj2 (Z.eqb_eq _ _) H2). auto.
Qed.

(** A classified packet has no truncated header. *)
Lemma classified_not_truncated ctx s k svc sp dp :
  classified ctx s k svc sp dp -> Reference.truncated_headers ctx = false.
Proof.
  intros Hc. destruct (classified_guards _ _ _ _ _ _ Hc) as (G1 & G2 & G3).
  destruct Hc as (_ & _ & _ & Hpt & _).
  unfold Reference.truncated_headers. rewrite !Z.gtb_ltb in G1, G3.
  rewrite G1, G2, G3. cbv zeta.
  destruct (_ || _) eqn:E; [| reflexivity].
  apply parse_transport_none in E. congruence.
Qed.

(** A packet that is not classified leaves by [drop_invalid] or
    [pass_simple]. *)
Lemma body_unclassified ctx clk ev s :
  (forall k svc sp dp, ~ classified ctx s k svc sp dp) ->
  fst (process_packet_body ctx clk ev s) = drop_invalid
  \/ fst (process_packet_body ctx clk ev s) = pass_simple.
Proof.
  intros Hno. unfold process_packet_body. cbv zeta. rewrite !Z.gtb_ltb.
  destruct (data_end ctx <? ETH_HLEN) eqn:E1; [now left |]. apply Z.ltb_ge in E1.
  destruct (eth_h_proto ctx =? ETH_P_IP) eqn:E2; cbn [negb]; [| now right].
  apply Z.eqb_eq in E2.
  destruct (data_end ctx <? ETH_HLEN + IPHDR_SIZE) eqn:E3; [now left |].
  apply Z.ltb_ge in E3.
  destruct (parse_transport ctx (ip_protocol ctx ETH_HLEN)
              (ETH_HLEN + ip_ihl ctx ETH_HLEN * 4)) as [[[sp dp] |] |] eqn:Hpt;
    [| now right | now left].
  destruct (find_service (services_map s) (ip_daddr ctx ETH_HLEN) dp
              (ip_protocol ctx ETH_HLEN) (Z.to_nat MAX_SERVICES) 1)
    as [[k svc] |] eqn:Hfind; [| now right].
  exfalso. apply (Hno k svc sp dp). unfold classified. auto.
Qed.

(** The result for a classified packet that the limiter refuses. *)
Lemma process_packet_rate_limited ctx clk ev s k svc sp dp :
  classified ctx s k svc sp dp ->
  rate_limit_refuses ctx clk ev s svc ->
  process_packet ctx clk ev s
  = (XDP_DROP,
     {| services_map :=
          <[k := touch_service (u32 (data_end ctx)) (t_process_packet clk) svc]>
            (services_map s);
        rate_limit_map := rate_limit_map_after ctx clk ev s svc;
        connection_map := connection_map s;
        auth_tokens_map := auth_tokens_map s;
        stats_map :=
          add_dropped_packets
          <$> (add_rate_limited
               <$> (add_total_packets (t_process_packet clk) <$> stats_map s));
        afxdp_redirect_map := afxdp_redirect_map s |}).
Proof.
  intros Hc [Hrate Href].
  destruct (classified_guards _ _ _ _ _ _ Hc) as (G1 & G2 & G3).
  destruct Hc as (_ & _ & _ & Hpt & Hfind).
  unfold process_packet, process_packet_body, rate_limit_map_after. cbv zeta.
  rewrite G1, G2, G3, Hpt, Hfind. cbv beta iota.
  rewrite Z.gtb_ltb, (proj2 (Z.ltb_lt _ _) Hrate).
  destruct (check_rate_limit (ip_saddr ctx ETH_HLEN) (svc_rate_limit_pps svc)
              (t_check_rate_limit clk) (ev_rate_limit_map ev) (rate_limit_map s))
    as [allowed rate_map].
  cbn [fst snd] in Href |- *. subst allowed. reflexivity.
Qed.

(** The result for a classified packet that the limiter lets through: the
    connection table is written before the authentication check. *)
Lemma process_packet_admitted ctx clk ev s k svc sp dp :
  classified ctx s k svc sp dp ->
  ~ rate_limit_refuses ctx clk ev s svc ->
  let stats := add_total_packets (t_process_packet clk) <$> stats_map s in
  let s1 stats' :=
    {| services_map :=
         <[k := touch_service (u32 (data_end ctx)) (t_process_packet clk) svc]>
           (services_map s);
       rate_limit_map := rate_limit_map_after ctx clk ev s svc;
       connection_map :=
         update_connection_tracking (ip_saddr ctx ETH_HLEN) (ip_daddr ctx ETH_HLEN)
           sp dp (ip_protocol ctx ETH_HLEN) k (u32 (data_end ctx))
           (t_update_connection_tracking clk) (ev_connection_map ev) (connection_map s);
       auth_tokens_map := auth_tokens_map s;
       stats_map := stats';
       afxdp_redirect_map := afxdp_redirect_map s |} in
  (authentication_refuses ctx clk s k svc ->
   process_packet ctx clk ev s
   = (XDP_DROP, s1 (add_dropped_packets <$> (add_auth_failures <$> stats))))
  /\ (~ authentication_refuses ctx clk s k svc ->
      process_packet ctx clk ev s
      = if needs_complex_processing ctx (Some svc)
        then (bpf_redirect_map (afxdp_redirect_map s) 0,
              s1 (add_redirected_go <$> stats))
        else (XDP_PASS, s1 (add_passed_packets <$> stats))).
Proof.
  intros Hc Hadm stats s1. subst stats s1.
  destruct (classified_guards _ _ _ _ _ _ Hc) as (G1 & G2 & G3).
  destruct Hc as (_ & _ & _ & Hpt & Hfind).
  unfold process_packet, process_packet_body, rate_limit_map_after,
    rate_limit_refuses, authentication_refuses in *. cbv zeta.
  rewrite G1, G2, G3, Hpt, Hfind. cbv beta iota. rewrite Z.gtb_ltb.
  assert (Hallowed :
            (if 0 <? svc_rate_limit_pps svc
             then check_rate_limit (ip_saddr ctx ETH_HLEN) (svc_rate_limit_pps svc)
                    (t_check_rate_limit clk) (ev_rate_limit_map ev) (rate_limit_map s)
             else (true, rate_limit_map s))
            = (true,
               if 0 <? svc_rate_limit_pps svc
               then snd (check_rate_limit (ip_saddr ctx ETH_HLEN)
                           (svc_rate_limit_pps svc) (t_check_rate_limit clk)
                           (ev_rate_limit_map ev) (rate_limit_map s))
               else rate_limit_map s)).
  { destruct (0 <? svc_rate_limit_pps svc) eqn:Hr; [| reflexivity].
    apply Z.ltb_lt in Hr.
    destruct (check_rate_limit (ip_saddr ctx ETH_HLEN) (svc_rate_limit_pps svc)
                (t_check_rate_limit clk) (ev_rate_limit_map ev) (rate_limit_map s))
      as [[|] rm]; [reflexivity |].
    exfalso. apply Hadm. split; [assumption | reflexivity]. }
  rewrite Hallowed. cbv beta iota. cbn [negb].
  split.
  - intros [Htype Hauth]. rewrite Htype, Hauth, Z.eqb_refl. reflexivity.
  - intros Hnauth.
    assert (Hcond : (svc_auth_type svc =? AUTH_SIMPLE)
                    && negb (check_authentication ctx k (t_check_authentication clk)
                               (auth_tokens_map s)) = false).
    { destruct (svc_auth_type svc =? AUTH_SIMPLE) eqn:Ht; [| reflexivity].
      apply Z.eqb_eq in Ht.
      destruct (check_authentication ctx k (t_check_authentication clk)
                  (auth_tokens_map s)) eqn:Ha; [reflexivity |].
      exfalso. apply Hnauth. split; first [assumption | reflexivity]. }
    rewrite Hcond.
    destruct (needs_complex_processing ctx (Some svc)); reflexivity.
Qed.

(** C1, in the form the code satisfies.  In the enhanced XDP engine, with
    the statistics slot present: (1) every frame with a truncated Ethernet
    header, a truncated fixed IPv4 header, or a fixed TCP, UDP or ICMP
    header that does not fit at the offset [14 + 4 * ihl] the packet
    declares gets the verdict [XDP_DROP]; [invalid_packets] and the shared
    [dropped_packets] each grow by exactly 1, and the policy counters
    [rate_limited] and [auth_failures] and every other map stay as they
    were.  (2) For every other frame [invalid_packets] stays as it was.
    (3) The policy drops are counted by cause: a classified packet that the
    rate limiter refuses is dropped with [rate_limited] and
    [dropped_packets] grown by 1 and [auth_failures] unchanged, and one
    that the limiter lets through and [check_authentication] refuses is
    dropped with [auth_failures] and [dropped_packets] grown by 1 and
    [rate_limited] unchanged. *)
Theorem C1_truncated_headers_dropped
    (ctx : xdp_md) (clk : ktime) (ev : evictions) (s : maps) (st : global_stats)
    (Hst : stats_map s = Some st) :
  (Reference.truncated_headers ctx = true ->
   fst (process_packet ctx clk ev s) = XDP_DROP
   /\ (exists st',
         stats_map (snd (process_packet ctx clk ev s)) = Some st'
         /\ invalid_packets st' = u64 (invalid_packets st + 1)
         /\ dropped_packets st' = u64 (dropped_packets st + 1)
         /\ total_packets st' = u64 (total_packets st + 1)
         /\ rate_limited st' = rate_limited st
         /\ auth_failures st' = auth_failures st
         /\ passed_packets st' = passed_packets st
         /\ redirected_go st' = redirected_go st)
   /\ services_map (snd (process_packet ctx clk ev s)) = services_map s
   /\ rate_limit_map (snd (process_packet ctx clk ev s)) = rate_limit_map s
   /\ connection_map (snd (process_packet ctx clk ev s)) = connection_map s)
  /\ (Reference.truncated_headers ctx = false ->
      exists st',
        stats_map (snd (process_packet ctx clk ev s)) = Some st'
        /\ invalid_packets st' = invalid_packets st)
  /\ (forall k svc sp dp,
        classified ctx s k svc sp dp ->
        (rate_limit_refuses ctx clk ev s svc ->
         fst (process_packet ctx clk ev s) = XDP_DROP
         /\ exists st',
              stats_map (snd (process_packet ctx clk ev s)) = Some st'
              /\ invalid_packets st' = invalid_packets st
              /\ dropped_packets st' = u64 (dropped_packets st + 1)
              /\ rate_limited st' = u64 (rate_limited st + 1)
              /\ auth_failures st' = auth_failures st)
        /\ (~ rate_limit_refuses ctx clk ev s svc ->
            authentication_refuses ctx clk s k svc ->
            fst (process_packet ctx clk ev s) = XDP_DROP
            /\ exists st',
                 stats_map (snd (process_packet ctx clk ev s)) = Some st'
                 /\ invalid_packets st' = invalid_packets st
                 /\ dropped_packets st' = u64 (dropped_packets st + 1)
                 /\ rate_limited st' = rate_limited st
                 /\ auth_failures st' = u64 (auth_failures st + 1))).
Proof.
  split; [| split].
  - pose proof (body_drop_invalid_iff ctx clk ev s) as Hiff.
    unfold process_packet.
    destruct (process_packet_body ctx clk ev s) as [l s'] eqn:Hbody.
    destruct (process_packet_body_inv ctx clk ev s l s' Hbody)
      as (_ & _ & Hstats & Hmaps).
    cbn [fst] in Hiff |- *. rewrite Hst in Hstats.
    intros Htr. apply Hiff in Htr. subst l.
    destruct Hmaps as (Hsvc & Hrl & Hconn).
    cbn [fst snd with_stats stats_map services_map rate_limit_map connection_map].
    split; [reflexivity |]. split; [| auto].
    rewrite Hstats. cbn. eexists. split; [reflexivity |]. cbn. tauto.
  - pose proof (body_drop_invalid_iff ctx clk ev s) as Hiff.
    unfold process_packet.
    destruct (process_packet_body ctx clk ev s) as [l s'] eqn:Hbody.
    destruct (process_packet_body_inv ctx clk ev s l s' Hbody)
      as (_ & _ & Hstats & _).
    cbn [fst] in Hiff. rewrite Hst in Hstats.
    intros Htr.
    assert (Hl : l <> drop_invalid).
    { intros Hl. apply Hiff in Hl. congruence. }
    destruct l; try congruence; cbn [snd with_stats stats_map]; rewrite Hstats;
      cbn; eexists; (split; [reflexivity |]); reflexivity.
  - intros k svc sp dp Hc. split.
    + intros Href.
      rewrite (process_packet_rate_limited ctx clk ev s k svc sp dp Hc Href).
      cbn [fst snd stats_map]. rewrite Hst. cbn.
      split; [reflexivity |]. eexists. split; [reflexivity |]. cbn. tauto.
    + intros Hadm Hauth.
      rewrite (proj1 (process_packet_admitted ctx clk ev s k svc sp dp Hc Hadm) Hauth).
      cbn [fst snd stats_map]. rewrite Hst. cbn.
      split; [reflexivity |]. eexists. split; [reflexivity |]. cbn. tauto.
Qed.

(** A frame that ends three bytes into the IPv4 header. *)
Lemma C1_witness :
  fst (process_packet (frame (Samples.eth_ipv4 ++ [0x45; 0; 0])) Samples.clock0
         Samples.no_evictions
         (Samples.one_service (Samples.tcp_service 8080 0 0))) = XDP_DROP.
Proof.
  apply (proj1 (C1_truncated_headers_dropped
                  (frame (Samples.eth_ipv4 ++ [0x45; 0; 0])) Samples.clock0
                  Samples.no_evictions
                  (Samples.one_service (Samples.tcp_service 8080 0 0))
                  Samples.zero_stats eq_refl)).
  vm_compute. reflexivity.
Defined.

(** The TC ingress filter passes a frame cut inside the IPv4 header and a
    frame cut inside the TCP header, and counts nothing; the simple XDP
    filter passes the second, counted as handed to user space; and the
    enhanced engine itself passes a frame whose IPv4 header declares more
    bytes than the buffer holds when the protocol is not TCP, UDP or
    ICMP. *)
Lemma C1_counterexample :
  (Reference.truncated_headers Samples.truncated_ip_frame = true
   /\ Marchproxy.marchproxy_ingress Samples.truncated_ip_frame 20 5
        Samples.marchproxy_state
      = (TC_ACT_OK, Samples.marchproxy_state))
  /\ (Reference.truncated_headers Samples.truncated_tcp_frame = true
      /\ Marchproxy.marchproxy_ingress Samples.truncated_tcp_frame 38 5
           Samples.marchproxy_state
         = (TC_ACT_OK, Samples.marchproxy_state)
      /\ Filter.marchproxy_filter Samples.truncated_tcp_frame
           (Samples.filter_state 0 0 0)
         = (XDP_PASS, Samples.filter_state 1 0 1))
  /\ (data_end Samples.short_options_frame
      < ETH_HLEN + ip_ihl Samples.short_options_frame ETH_HLEN * 4
      /\ fst (process_packet Samples.short_options_frame Samples.clock0
                Samples.no_evictions
                (Samples.one_service (Samples.tcp_service 8080 0 0))) = XDP_PASS
      /\ invalid_packets
         <$> stats_map (snd (process_packet Samples.short_options_frame Samples.clock0
                               Samples.no_evictions
                               (Samples.one_service (Samples.tcp_service 8080 0 0))))
         = Some 0).
Proof. repeat split; vm_compute; reflexivity. Qed.

(** C4, in the form the code satisfies.  [process_packet] writes the
    connection table exactly for a classified packet that the rate limiter
    lets through, and it does so before the authentication check and the
    choice between redirect and pass.  (1) A packet that is not classified
    (truncated header, not IPv4, a protocol other than TCP, UDP and ICMP, or
    no matching service) leaves the table unchanged.  (2) A classified
    packet that the limiter refuses is dropped and leaves the table
    unchanged.  (3) For a classified packet that the limiter lets through
    the table becomes the result of [update_connection_tracking] for the
    packet's addresses, ports and protocol, the key of the service and the
    packet length, which differs from the table before; this holds also
    when [check_authentication] then refuses the packet and the verdict is
    [XDP_DROP]. *)
Theorem C4_connection_table_written_before_auth
    (ctx : xdp_md) (clk : ktime) (ev : evictions) (s : maps) :
  let r := process_packet ctx clk ev s in
  ((forall k svc sp dp, ~ classified ctx s k svc sp dp) ->
   connection_map (snd r) = connection_map s)
  /\ (forall k svc sp dp,
        classified ctx s k svc sp dp ->
        (rate_limit_refuses ctx clk ev s svc ->
         fst r = XDP_DROP /\ connection_map (snd r) = connection_map s)
        /\ (~ rate_limit_refuses ctx clk ev s svc ->
            connection_map (snd r)
            = update_connection_tracking (ip_saddr ctx ETH_HLEN) (ip_daddr ctx ETH_HLEN)
                sp dp (ip_protocol ctx ETH_HLEN) k (u32 (data_end ctx))
                (t_update_connection_tracking clk) (ev_connection_map ev)
                (connection_map s)
            /\ connection_map (snd r) <> connection_map s
            /\ (authentication_refuses ctx clk s k svc -> fst r = XDP_DROP)
            /\ (~ authentication_refuses ctx clk s k svc ->
                fst r = if needs_complex_processing ctx (Some svc)
                        then bpf_redirect_map (afxdp_redirect_map s) 0
                        else XDP_PASS))).
Proof.
  intros r. subst r. split.
  - intros Hno. pose proof (body_unclassified ctx clk ev s Hno) as Hl.
    unfold process_packet.
    destruct (process_packet_body ctx clk ev s) as [l s'] eqn:Hbody.
    destruct (process_packet_body_inv ctx clk ev s l s' Hbody) as (_ & _ & _ & Hmaps).
    cbn [fst] in Hl.
    destruct Hl as [-> | ->]; cbn [snd with_stats connection_map]; tauto.
  - intros k svc sp dp Hc. split.
    + intros Href.
      rewrite (process_packet_rate_limited ctx clk ev s k svc sp dp Hc Href).
      split; reflexivity.
    + intros Hadm.
      destruct (process_packet_admitted ctx clk ev s k svc sp dp Hc Hadm)
        as [Hrefused Haccepted].
      assert (Hconn : connection_map (snd (process_packet ctx clk ev s))
                      = update_connection_tracking (ip_saddr ctx ETH_HLEN)
                          (ip_daddr ctx ETH_HLEN) sp dp (ip_protocol ctx ETH_HLEN) k
                          (u32 (data_end ctx)) (t_update_connection_tracking clk)
                          (ev_connection_map ev) (connection_map s)).
      { destruct (classic_auth ctx clk s k svc) as [Ha | Ha].
        - now rewrite (Hrefused Ha).
        - rewrite (Haccepted Ha).
          now destruct (needs_complex_processing ctx (Some svc)). }
      split; [exact Hconn |].
      split; [rewrite Hconn; apply update_connection_tracking_changes |].
      split.
      * intros Ha. now rewrite (Hrefused Ha).
      * intros Ha. rewrite (Haccepted Ha).
        now destruct (needs_complex_processing ctx (Some svc)).
Qed.

(** A TCP segment for a service with simple authentication and no rate:
    the packet is classified and not limited, so the table is written. *)
Lemma C4_witness :
  connection_map
    (snd (process_packet (Samples.tcp_packet 8080 Samples.plain_payload) Samples.clock0
            Samples.no_evictions
            (Samples.one_service (Samples.tcp_service 8080 AUTH_SIMPLE 0))))
  <> connection_map (Samples.one_service (Samples.tcp_service 8080 AUTH_SIMPLE 0)).
Proof.
  apply (proj2 (C4_connection_table_written_before_auth
                  (Samples.tcp_packet 8080 Samples.plain_payload) Samples.clock0
                  Samples.no_evictions
                  (Samples.one_service (Samples.tcp_service 8080 AUTH_SIMPLE 0)))
           1 (Samples.tcp_service 8080 AUTH_SIMPLE 0) 40000 8080).
  - unfold classified. repeat split; vm_compute; congruence.
  - intros [Hrate _]. vm_compute in Hrate. discriminate.
Defined.

(** A TCP segment for a service with simple authentication whose payload
    carries no token: the verdict is [XDP_DROP], counted as an
    authentication failure, and the connection table, empty before, holds
    the flow. *)
Lemma C4_counterexample :
  let s := Samples.one_service (Samples.tcp_service 8080 AUTH_SIMPLE 0) in
  let r := process_packet (Samples.tcp_packet 8080 Samples.plain_payload)
             Samples.clock0 Samples.no_evictions s in
  connection_map s = ∅
  /\ fst r = XDP_DROP
  /\ auth_failures <$> stats_map (snd r) = Some 1
  /\ connection_map (snd r)
     = {[ hash_connection Samples.ip_10_0_0_1 Samples.ip_10_0_0_5 40000 8080 6 :=
            {| conn_src_ip := Samples.ip_10_0_0_1; conn_dst_ip := Samples.ip_10_0_0_5;
               conn_src_port := 40000; conn_dst_port := 8080; conn_protocol := 6;
               conn_state := 1; conn_last_activity := 1002;
               conn_packets_rx := 1; conn_packets_tx := 0;
               conn_bytes_rx := 86; conn_bytes_tx := 0; conn_service_id := 1 |} ]}.
Proof. repeat split; vm_compute; reflexivity. Qed.

End DecisionEngine.

(* --------------------------------------------------------------------- *)
(** *** The XDP rate limiter (rate_limit.c) *)
(* --------------------------------------------------------------------- *)

Section RateLimiter.
Import Mach Packet RateLimit RateLimitSpec.

Lemma check_ip_rate_limit_opens config src_ip t0 ev m :
  1 <= per_ip_pps_limit config ->
  0 <= burst_allowance config ->
  opens_window config src_ip t0 m ->
  fst (check_ip_rate_limit config src_ip t0 ev m) = XDP_PASS
  /\ window_state config src_ip t0 1 (snd (check_ip_rate_limit config src_ip t0 ev m)).
Proof.
  intros HR HB Hopen. unfold check_ip_rate_limit, window_state.
  destruct Hopen as [Hnone | (st & Hsome & Hel)].
  - rewrite Hnone. cbn [fst snd]. split; [reflexivity |].
    eexists. split; [apply lru_update_lookup |]. cbn. repeat split; lia.
  - rewrite Hsome. cbv zeta.
    rewrite Z.geb_leb, (proj2 (Z.leb_le _ _) Hel). cbn [ip_packet_count].
    rewrite Z.gtb_ltb, (proj2 (Z.ltb_ge _ _) HR). cbn [fst snd].
    split; [reflexivity |].
    eexists. split; [apply lru_update_lookup |]. cbn. repeat split; lia.
Qed.

Lemma check_ip_rate_limit_in_window config src_ip t0 n t ev m :
  1 <= n -> n + 1 < 2^32 ->
  0 <= burst_allowance config < 2^32 ->
  window_state config src_ip t0 n m ->
  in_window config t0 t ->
  fst (check_ip_rate_limit config src_ip t ev m)
  = (if n <? per_ip_pps_limit config + burst_allowance config
     then XDP_PASS else XDP_DROP)
  /\ window_state config src_ip t0 (n + 1)
       (snd (check_ip_rate_limit config src_ip t ev m)).
Proof.
  intros Hn Hn32 HB (st & Hsome & Ht0 & Hcnt & Hburst) Hin.
  unfold check_ip_rate_limit, window_state. rewrite Hsome. cbv zeta.
  unfold in_window in Hin. rewrite Ht0, Z.geb_leb, (proj2 (Z.leb_gt _ _) Hin).
  cbn [ip_packet_count burst_tokens ip_last_update_ns].
  rewrite Hcnt, Hburst, (u32_small (n + 1)) by lia.
  set (R := per_ip_pps_limit config) in *. set (B := burst_allowance config) in *.
  rewrite !Z.gtb_ltb.
  destruct (R <? n + 1) eqn:HRn; [apply Z.ltb_lt in HRn | apply Z.ltb_ge in HRn].
  - destruct (0 <? Z.max 0 (B - Z.max 0 (n - R))) eqn:Hb;
      [apply Z.ltb_lt in Hb | apply Z.ltb_ge in Hb]; cbn [fst snd].
    + rewrite (proj2 (Z.ltb_lt n (R + B))) by lia. split; [reflexivity |].
      eexists. split; [apply lru_update_lookup |]. cbn.
      repeat split; try reflexivity. rewrite u32_small by lia. lia.
    + rewrite (proj2 (Z.ltb_ge n (R + B))) by lia. split; [reflexivity |].
      eexists. split; [apply lru_update_lookup |]. cbn.
      repeat split; try reflexivity. lia.
  - cbn [fst snd]. rewrite (proj2 (Z.ltb_lt n (R + B))) by lia.
    split; [reflexivity |].
    eexists. split; [apply lru_update_lookup |]. cbn.
    repeat split; try reflexivity. lia.
Qed.

(** A packet of another source leaves the state of [src_ip] as it was,
    unless the table is full and the kernel evicts that state. *)
Lemma check_ip_rate_limit_other config src_ip src_ip' t ev m :
  src_ip' <> src_ip ->
  snd (check_ip_rate_limit config src_ip' t ev m) !! src_ip
  = if BpfMap.full IP_RATE_STATE_ENTRIES m && bool_decide (src_ip ∈ ev)
    then None else m !! src_ip.
Proof.
  intros Hne. unfold check_ip_rate_limit.
  destruct (m !! src_ip') as [st|]; cbv zeta;
    repeat match goal with
           | |- context [if ?b then XDP_PASS else _] => destruct b
           | |- context [if ?b then (_, _) else _] => destruct b
           end; cbn [snd]; apply lru_update_lookup_ne; congruence.
Qed.

Lemma sent_by_cons_same src_ip t ev packets :
  Trace.sent_by src_ip ((src_ip, t, ev) :: packets) = 1 + Trace.sent_by src_ip packets.
Proof.
  unfold Trace.sent_by. rewrite filter_cons_True by reflexivity.
  cbn [length]. lia.
Qed.

Lemma sent_by_cons_other src_ip src_ip' t ev packets :
  src_ip' <> src_ip ->
  Trace.sent_by src_ip ((src_ip', t, ev) :: packets) = Trace.sent_by src_ip packets.
Proof.
  intros Hne. unfold Trace.sent_by. now rewrite filter_cons_False by exact Hne.
Qed.

Lemma sent_by_bound src_ip packets :
  0 <= Trace.sent_by src_ip packets <= Z.of_nat (length packets).
Proof.
  unfold Trace.sent_by.
  pose proof (length_filter (fun p : Z * Z * list Z => fst (fst p) = src_ip) packets).
  lia.
Qed.

(** Packets that arrive after [n] packets of the window of [src_ip] opened
    at [t0], interleaved with packets of other sources that do not evict
    the state of [src_ip]. *)
Lemma run_in_window config src_ip t0 packets :
  0 <= burst_allowance config < 2^32 ->
  forall n m,
    1 <= n -> n + Z.of_nat (length packets) < 2^32 ->
    window_state config src_ip t0 n m ->
    Forall (arrives_in_window config src_ip t0) packets ->
    Forall (keeps_state_of src_ip) packets ->
    (forall (k : nat) t ev,
        packets !! k = Some (src_ip, t, ev) ->
        fst (Trace.run_check_ip_rate_limit config packets m) !! k
        = Some (if n + Trace.sent_by src_ip (take k packets)
                   <? per_ip_pps_limit config + burst_allowance config
                then XDP_PASS else XDP_DROP))
    /\ window_state config src_ip t0 (n + Trace.sent_by src_ip packets)
         (snd (Trace.run_check_ip_rate_limit config packets m)).
Proof.
  intros HB.
  induction packets as [| [[ip t] ev] packets IH]; intros n m Hn Hlen Hst Hall Hkeep.
  - split; [intros k t ev Hk; discriminate Hk |].
    cbn. now rewrite Z.add_0_r.
  - cbn [length] in Hlen. inversion Hall as [| ? ? Hin Hall']; subst.
    inversion Hkeep as [| ? ? Hk0 Hkeep']; subst.
    unfold arrives_in_window in Hin. unfold keeps_state_of in Hk0.
    cbn [fst snd] in Hin, Hk0. cbn [Trace.run_check_ip_rate_limit].
    pose proof (sent_by_bound src_ip packets) as Hsb.
    destruct (Z.eq_dec ip src_ip) as [-> | Hne].
    + destruct (check_ip_rate_limit_in_window config src_ip t0 n t ev m
                  Hn ltac:(lia) HB Hst (Hin eq_refl)) as [Hv Hst'].
      destruct (check_ip_rate_limit config src_ip t ev m) as [v m1].
      cbn [fst snd] in *.
      destruct (IH (n + 1) m1 ltac:(lia) ltac:(lia) Hst' Hall' Hkeep') as [IHv IHst].
      destruct (Trace.run_check_ip_rate_limit config packets m1) as [vs m2].
      cbn [fst snd] in *. split.
      * intros [| k] t' ev' Hk.
        -- cbn [take]. change (Trace.sent_by src_ip []) with 0.
           rewrite Z.add_0_r. cbn. now rewrite Hv.
        -- change (packets !! k = Some (src_ip, t', ev')) in Hk.
           rewrite lookup_cons, (IHv k t' ev' Hk).
           cbn [take]. rewrite sent_by_cons_same.
           now replace (n + (1 + Trace.sent_by src_ip (take k packets)))
             with (n + 1 + Trace.sent_by src_ip (take k packets)) by lia.
      * rewrite sent_by_cons_same.
        now replace (n + (1 + Trace.sent_by src_ip packets))
          with (n + 1 + Trace.sent_by src_ip packets) by lia.
    + assert (Hst' : window_state config src_ip t0 n
                       (snd (check_ip_rate_limit config ip t ev m))).
      { destruct Hst as (st & Hsome & Hrest). exists st.
        split; [| exact Hrest].
        rewrite (check_ip_rate_limit_other config src_ip ip t ev m Hne).
        rewrite (bool_decide_eq_false_2 _ (Hk0 Hne)), andb_false_r. exact Hsome. }
      destruct (check_ip_rate_limit config ip t ev m) as [v m1]. cbn [fst snd] in *.
      destruct (IH n m1 Hn ltac:(lia) Hst' Hall' Hkeep') as [IHv IHst].
      destruct (Trace.run_check_ip_rate_limit config packets m1) as [vs m2].
      cbn [fst snd] in *. split.
      * intros [| k] t' ev' Hk.
        -- cbn in Hk. injection Hk as Hk _ _. contradiction.
        -- change (packets !! k = Some (src_ip, t', ev')) in Hk.
           rewrite lookup_cons, (IHv k t' ev' Hk).
           cbn [take]. now rewrite (sent_by_cons_other src_ip ip t ev _ Hne).
      * now rewrite (sent_by_cons_other src_ip ip t ev _ Hne).
Qed.

(** C3, in the form the code satisfies.  With per-source limit [R >= 1]
    and burst allowance [B], let a packet of a source open a window and let
    the later packets of that source arrive within it, interleaved at will
    with packets of other sources, and let the state of the source stay in
    the table: no packet of another source makes the kernel evict it.
    Then a packet of the source is admitted exactly when fewer than
    [R + B] packets of the source precede it in the window: exactly its
    first [R + B] packets pass and packet [R + B + 1] is dropped.  A packet
    arriving a full window after the window's start opens a new window with
    the whole allowance. *)
Theorem C3_window_admits_rate_plus_burst
    (config : rate_limit_config) (src_ip t0 : Z) (ev0 : list Z)
    (packets : list (Z * Z * list Z)) (m : gmap Z ip_rate_state)
    (HR : 1 <= per_ip_pps_limit config)
    (HB : 0 <= burst_allowance config < 2^32)
    (Hopen : opens_window config src_ip t0 m)
    (Hin : Forall (arrives_in_window config src_ip t0) packets)
    (Hkept : Forall (keeps_state_of src_ip) packets)
    (Hlen : Z.of_nat (length ((src_ip, t0, ev0) :: packets)) < 2^32) :
  (forall (k : nat) t ev,
      ((src_ip, t0, ev0) :: packets) !! k = Some (src_ip, t, ev) ->
      fst (Trace.run_check_ip_rate_limit config ((src_ip, t0, ev0) :: packets) m) !! k
      = Some (if Trace.sent_by src_ip (take k ((src_ip, t0, ev0) :: packets))
                 <? per_ip_pps_limit config + burst_allowance config
              then XDP_PASS else XDP_DROP))
  /\ (forall t, ~ in_window config t0 t ->
        opens_window config src_ip t
          (snd (Trace.run_check_ip_rate_limit config ((src_ip, t0, ev0) :: packets) m))).
Proof.
  cbn [Trace.run_check_ip_rate_limit].
  destruct (check_ip_rate_limit_opens config src_ip t0 ev0 m HR ltac:(lia) Hopen)
    as [Hv Hst].
  destruct (check_ip_rate_limit config src_ip t0 ev0 m) as [v m1]. cbn [fst snd] in *.
  cbn [length] in Hlen.
  destruct (run_in_window config src_ip t0 packets HB 1 m1 ltac:(lia) ltac:(lia)
              Hst Hin Hkept) as [Hrun Hfinal].
  destruct (Trace.run_check_ip_rate_limit config packets m1) as [vs m2].
  cbn [fst snd] in *. split.
  - intros [| k] t ev Hk.
    + cbn [take]. change (Trace.sent_by src_ip []) with 0.
      cbn. rewrite Hv. rewrite (proj2 (Z.ltb_lt 0 _)) by lia. reflexivity.
    + change (packets !! k = Some (src_ip, t, ev)) in Hk.
      rewrite lookup_cons, (Hrun k t ev Hk).
      cbn [take]. now rewrite sent_by_cons_same.
  - intros t Hout. right.
    destruct Hfinal as (st & Hsome & Ht0 & _).
    exists st. split; [assumption |]. rewrite Ht0. unfold in_window in Hout. lia.
Qed.

(** Rate 1000 and burst 100: of 1101 packets of one source sent within one
    window, the 1100th is admitted and the 1101st dropped. *)
Lemma C3_witness :
  fst (Trace.run_check_ip_rate_limit sample_config
         ((Samples.ip_10_0_0_1, 0, [])
          :: replicate 1100 (Samples.ip_10_0_0_1, 500, [])) ∅)
    !! 1099%nat = Some XDP_PASS
  /\ fst (Trace.run_check_ip_rate_limit sample_config
            ((Samples.ip_10_0_0_1, 0, [])
             :: replicate 1100 (Samples.ip_10_0_0_1, 500, [])) ∅)
       !! 1100%nat = Some XDP_DROP.
Proof.
  assert (HR : 1 <= per_ip_pps_limit sample_config) by (cbn; lia).
  assert (HB : 0 <= burst_allowance sample_config < 2^32) by (cbn; lia).
  assert (Hopen : opens_window sample_config Samples.ip_10_0_0_1 0 ∅)
    by (left; apply lookup_empty).
  assert (Hin : Forall (arrives_in_window sample_config Samples.ip_10_0_0_1 0)
                  (replicate 1100 (Samples.ip_10_0_0_1, 500, [])))
    by (apply Forall_replicate; intros _; unfold in_window; vm_compute; reflexivity).
  assert (Hkept : Forall (keeps_state_of Samples.ip_10_0_0_1)
                    (replicate 1100 (Samples.ip_10_0_0_1, 500, [])))
    by (apply Forall_replicate; intros Hne; now destruct Hne).
  assert (Hlen : Z.of_nat (length ((Samples.ip_10_0_0_1, 0, [] : list Z)
                                   :: replicate 1100 (Samples.ip_10_0_0_1, 500, [])))
                 < 2^32)
    by (cbn [length]; rewrite length_replicate; lia).
  split.
  - exact (proj1 (C3_window_admits_rate_plus_burst sample_config Samples.ip_10_0_0_1
                    0 [] (replicate 1100 (Samples.ip_10_0_0_1, 500, [])) ∅
                    HR HB Hopen Hin Hkept Hlen) 1099%nat 500 [] eq_refl).
  - exact (proj1 (C3_window_admits_rate_plus_burst sample_config Samples.ip_10_0_0_1
                    0 [] (replicate 1100 (Samples.ip_10_0_0_1, 500, [])) ∅
                    HR HB Hopen Hin Hkept Hlen) 1100%nat 500 [] eq_refl).
Defined.

Lemma full_table_keys :
  ((fun src_ip => (src_ip, one_packet_sent)) <$> seqZ 1 IP_RATE_STATE_ENTRIES).*1
  = seqZ 1 IP_RATE_STATE_ENTRIES.
Proof.
  rewrite <- list_fmap_compose.
  rewrite <- (list_fmap_id (seqZ 1 IP_RATE_STATE_ENTRIES)) at 2.
  apply list_fmap_ext. intros i x _. reflexivity.
Qed.

Lemma full_table_lookup src_ip :
  1 <= src_ip <= IP_RATE_STATE_ENTRIES -> full_table !! src_ip = Some one_packet_sent.
Proof.
  intros Hi. unfold full_table. apply elem_of_list_to_map.
  - rewrite full_table_keys. apply NoDup_seqZ.
  - apply list_elem_of_fmap. exists src_ip. split; [reflexivity |].
    apply elem_of_seqZ. lia.
Qed.

Lemma full_table_lookup_None src_ip :
  IP_RATE_STATE_ENTRIES < src_ip -> full_table !! src_ip = None.
Proof.
  intros Hi. unfold full_table. apply not_elem_of_list_to_map.
  rewrite full_table_keys, elem_of_seqZ. lia.
Qed.

Lemma full_table_full : BpfMap.full IP_RATE_STATE_ENTRIES full_table = true.
Proof.
  unfold BpfMap.full, full_table. apply Z.leb_le.
  rewrite map_size_list_to_map by (rewrite full_table_keys; apply NoDup_seqZ).
  rewrite length_fmap, length_seqZ. unfold IP_RATE_STATE_ENTRIES. lia.
Qed.

(** The first packet of a source without state passes. *)
Lemma check_ip_rate_limit_new config src_ip t ev m :
  m !! src_ip = None -> fst (check_ip_rate_limit config src_ip t ev m) = XDP_PASS.
Proof. intros Hm. unfold check_ip_rate_limit. now rewrite Hm. Qed.

(** Where the specification and the code differ: the per-source state is in an
    LRU hash of 65536 entries, so a source can lose its window.  In a full
    table, source 7 has sent its one allowed packet at time 0 and its next
    packet, at time 10 in the same window, is dropped.  But when a packet
    of a new source arrives in between and the kernel evicts the state of
    source 7 to make room, that same packet of source 7 is admitted: it is
    treated as the first of a new source. *)
Lemma C3_counterexample :
  BpfMap.full IP_RATE_STATE_ENTRIES full_table = true
  /\ full_table !! 7 = Some one_packet_sent
  /\ in_window strict_config 0 10
  /\ fst (Trace.run_check_ip_rate_limit strict_config [(7, 10, [])] full_table)
     = [XDP_DROP]
  /\ fst (Trace.run_check_ip_rate_limit strict_config
            [(70000, 5, [7]); (7, 10, [])] full_table)
     = [XDP_PASS; XDP_PASS].
Proof.
  assert (H7 : full_table !! 7 = Some one_packet_sent)
    by (apply full_table_lookup; unfold IP_RATE_STATE_ENTRIES; lia).
  assert (Hnew : full_table !! 70000 = None)
    by (apply full_table_lookup_None; unfold IP_RATE_STATE_ENTRIES; lia).
  split; [exact full_table_full |]. split; [exact H7 |].
  split; [unfold in_window; vm_compute; reflexivity |]. split.
  - cbn [Trace.run_check_ip_rate_limit].
    assert (Hv : fst (check_ip_rate_limit strict_config 7 10 [] full_table) = XDP_DROP).
    { unfold check_ip_rate_limit. rewrite H7. reflexivity. }
    destruct (check_ip_rate_limit strict_config 7 10 [] full_table) as [v m1].
    cbn [fst] in *. now rewrite Hv.
  - cbn [Trace.run_check_ip_rate_limit].
    pose proof (check_ip_rate_limit_new strict_config 70000 5 [7] full_table Hnew) as Hv1.
    pose proof (check_ip_rate_limit_other strict_config 7 70000 5 [7] full_table
                  ltac:(discriminate)) as Hgone.
    rewrite full_table_full, bool_decide_eq_true_2 in Hgone by apply list_elem_of_here.
    cbn [andb] in Hgone.
    destruct (check_ip_rate_limit strict_config 70000 5 [7] full_table) as [v1 m1].
    cbn [fst snd] in *.
    pose proof (check_ip_rate_limit_new strict_config 7 10 [] m1 Hgone) as Hv2.
    destruct (check_ip_rate_limit strict_config 7 10 [] m1) as [v2 m2].
    cbn [fst] in *. now rewrite Hv1, Hv2.
Qed.

(** C7.  The global check runs first, and when it rejects, the verdict is
    [XDP_DROP], the per-source table is returned as it was and has no
    influence on the outcome (it is neither read nor written), and the
    rejection is counted in [global_drops], not in [per_ip_drops]. *)
Theorem C7_global_rejection_short_circuits
    (ctx : xdp_md) (now_ns : Z) (evicted : list Z) (s : maps)
    (license : Z) (config : rate_limit_config) (src_ip dst_ip : Z)
    (Hlicense : enterprise_license_map s = Some license)
    (Hlicensed : license <> 0)
    (Hconfig : rate_limit_config_map s = Some config)
    (Henabled : enabled config <> 0)
    (Hparse : parse_ipv4 ctx = Some (src_ip, dst_ip))
    (Hglobal : 0 < global_pps_limit config)
    (Hreject : fst (check_global_rate_limit config now_ns (global_rate_state_map s))
               = XDP_DROP) :
  let r := xdp_rate_limiter ctx now_ns evicted s in
  let stats := default new_stats (rate_limit_stats_map s) in
  fst r = XDP_DROP
  /\ ip_rate_state_map (snd r) = ip_rate_state_map s
  /\ global_rate_state_map (snd r)
     = snd (check_global_rate_limit config now_ns (global_rate_state_map s))
  /\ (exists stats',
        rate_limit_stats_map (snd r) = Some stats'
        /\ global_drops stats' = u64 (global_drops stats + 1)
        /\ per_ip_drops stats' = per_ip_drops stats
        /\ dropped_packets stats' = u64 (dropped_packets stats + 1)
        /\ passed_packets stats' = passed_packets stats)
  /\ (forall m : gmap Z ip_rate_state,
        xdp_rate_limiter ctx now_ns evicted (with_ip_rate_state_map m s)
        = (fst r, with_ip_rate_state_map m (snd r))).
Proof.
  assert (Hrun : forall s0,
             enterprise_license_map s0 = Some license ->
             rate_limit_config_map s0 = Some config ->
             global_rate_state_map s0 = global_rate_state_map s ->
             xdp_rate_limiter ctx now_ns evicted s0
             = (XDP_DROP,
                {| rate_limit_config_map := rate_limit_config_map s0;
                   ip_rate_state_map := ip_rate_state_map s0;
                   global_rate_state_map :=
                     snd (check_global_rate_limit config now_ns
                            (global_rate_state_map s));
                   rate_limit_stats_map :=
                     update_stats XDP_DROP true false (rate_limit_stats_map s0);
                   enterprise_license_map := enterprise_license_map s0 |})).
  { intros s0 Hl Hc Hg. unfold xdp_rate_limiter.
    rewrite Hl, (proj2 (Z.eqb_neq _ _) Hlicensed), Hc,
      (proj2 (Z.eqb_neq _ _) Henabled), Hparse.
    rewrite Z.gtb_ltb, (proj2 (Z.ltb_lt _ _) Hglobal), Hg.
    destruct (check_global_rate_limit config now_ns (global_rate_state_map s))
      as [a g]. cbn [fst snd] in *. subst a. reflexivity. }
  intros r stats. subst r.
  rewrite (Hrun s Hlicense Hconfig eq_refl). cbn [fst snd ip_rate_state_map
    global_rate_state_map rate_limit_stats_map].
  split; [reflexivity |]. split; [reflexivity |]. split; [reflexivity |]. split.
  - unfold update_stats. fold stats. rewrite decide_True by reflexivity.
    eexists. split; [reflexivity |]. cbn. tauto.
  - intros m. rewrite (Hrun (with_ip_rate_state_map m s) Hlicense Hconfig eq_refl).
    reflexivity.
Qed.

Lemma C7_witness :
  fst (xdp_rate_limiter (Samples.tcp_packet 8080 []) 500 [] saturated_state) = XDP_DROP
  /\ ip_rate_state_map
       (snd (xdp_rate_limiter (Samples.tcp_packet 8080 []) 500 [] saturated_state)) = ∅.
Proof.
  pose proof (C7_global_rejection_short_circuits
                (Samples.tcp_packet 8080 []) 500 [] saturated_state 1
                {| enabled := 1; global_pps_limit := 2; per_ip_pps_limit := 1000;
                   window_size_ns := 1000000000; burst_allowance := 100; action := 1 |}
                Samples.ip_10_0_0_1 Samples.ip_10_0_0_5
                eq_refl ltac:(discriminate) eq_refl ltac:(discriminate)
                eq_refl ltac:(reflexivity) eq_refl) as H.
  cbv zeta in H. destruct H as (Hv & Hip & _). split; assumption.
Defined.

(** C9.  Without an enterprise licence entry, or with the entry 0, or
    without a configuration, or with [enabled == 0], [xdp_rate_limiter]
    returns [XDP_PASS] for every packet and leaves every map, the global
    and per-source rate state and the statistics included, as it was. *)
Theorem C9_rate_limiter_inert
    (ctx : xdp_md) (now_ns : Z) (evicted : list Z) (s : maps) :
  enterprise_license_map s = None
  \/ enterprise_license_map s = Some 0
  \/ rate_limit_config_map s = None
  \/ (exists config, rate_limit_config_map s = Some config /\ enabled config = 0) ->
  xdp_rate_limiter ctx now_ns evicted s = (XDP_PASS, s).
Proof.
  intros H. unfold xdp_rate_limiter.
  destruct (enterprise_license_map s) as [license|]; [| reflexivity].
  destruct (license =? 0) eqn:Hl; [reflexivity |].
  destruct H as [H | [H | [H | (config & H & He)]]].
  - discriminate.
  - injection H as ->. discriminate.
  - now rewrite H.
  - now rewrite H, He.
Qed.

Lemma C9_witness :
  xdp_rate_limiter (Samples.tcp_packet 8080 []) 500 []
    (with_ip_rate_state_map ∅
       {| rate_limit_config_map := rate_limit_config_map saturated_state;
          ip_rate_state_map := ∅;
          global_rate_state_map := global_rate_state_map saturated_state;
          rate_limit_stats_map := rate_limit_stats_map saturated_state;
          enterprise_license_map := Some 0 |})
  = (XDP_PASS,
     with_ip_rate_state_map ∅
       {| rate_limit_config_map := rate_limit_config_map saturated_state;
          ip_rate_state_map := ∅;
          global_rate_state_map := global_rate_state_map saturated_state;
          rate_limit_stats_map := rate_limit_stats_map saturated_state;
          enterprise_license_map := Some 0 |}).
Proof.
  apply C9_rate_limiter_inert. right. left. reflexivity.
Defined.

End RateLimiter.

(* ===================================================================== *)
(** ** Further properties of the programs *)
(* ===================================================================== *)

(* --------------------------------------------------------------------- *)
(** *** enhanced_rules.c: statistics, services and rate state *)
(* --------------------------------------------------------------------- *)

Section EngineAccounting.
Import Mach Packet EnhancedRules EnhancedRulesSpec.

(** Case analysis on the next [if] or [match] of hypothesis [H]. *)
Ltac split_in H :=
  match type of H with
  | context [if ?b then _ else _] => destruct b eqn:?
  | context [match ?x with _ => _ end] => destruct x eqn:?
  end; cbv beta iota in H.

(** The part of the body that follows a successful service lookup: for
    every exit other than [drop_invalid] and [pass_simple] the packet has a
    transport header and a matching service, whose counters are written,
    and the rate limiter has run when the service has a rate. *)
Lemma process_packet_body_matched ctx clk ev s l s' :
  process_packet_body ctx clk ev s = (l, s') ->
  l <> drop_invalid -> l <> pass_simple ->
  exists service_key svc src_port dst_port,
    parse_transport ctx (ip_protocol ctx ETH_HLEN) (ETH_HLEN + ip_ihl ctx ETH_HLEN * 4)
    = Some (Some (src_port, dst_port))
    /\ find_service (services_map s) (ip_daddr ctx ETH_HLEN) dst_port
         (ip_protocol ctx ETH_HLEN) (Z.to_nat MAX_SERVICES) 1 = Some (service_key, svc)
    /\ services_map s'
       = <[service_key := touch_service (u32 (data_end ctx)) (t_process_packet clk) svc]>
           (services_map s)
    /\ (if svc_rate_limit_pps svc >? 0
        then check_rate_limit (ip_saddr ctx ETH_HLEN) (svc_rate_limit_pps svc)
               (t_check_rate_limit clk) (ev_rate_limit_map ev) (rate_limit_map s)
             = (negb (bool_decide (l = drop_rate_limited)), rate_limit_map s')
        else l <> drop_rate_limited /\ rate_limit_map s' = rate_limit_map s).
Proof.
  unfold process_packet_body. cbv zeta. intros H Hl1 Hl2.
  repeat split_in H; injection H as <- <-; try congruence;
    do 4 eexists; cbn [services_map rate_limit_map];
    (split; [reflexivity |]); (split; [eassumption |]); (split; [reflexivity |]);
    match goal with
    | Hr : (svc_rate_limit_pps _ >? 0) = _ |- _ => rewrite Hr
    end;
    match goal with
    | Hn : negb ?b = _ |- _ =>
        destruct b; try discriminate Hn
    end;
    match goal with
    | Hc : (if _ then _ else _) = _ |- _ => try (injection Hc as <- <-)
    | _ => idtac
    end;
    first [ assumption
          | split; [congruence | congruence]
          | split; [discriminate | reflexivity]
          | idtac ].
Qed.

(** A service returned by the lookup is stored under the returned key and
    matches the packet. *)
Lemma find_service_found m dst_ip dst_port protocol k svc :
  find_service m dst_ip dst_port protocol (Z.to_nat MAX_SERVICES) 1 = Some (k, svc) ->
  1 <= k <= MAX_SERVICES /\ m !! k = Some svc
  /\ Reference.service_match svc dst_ip dst_port protocol.
Proof.
  intros H.
  pose proof (find_service_from m dst_ip dst_port protocol (Z.to_nat MAX_SERVICES) 1
                ltac:(lia) ltac:(vm_compute; discriminate)) as Hf.
  rewrite H in Hf. tauto.
Qed.

(** X1.  With the statistics slot present, [process_packet] adds exactly 1
    to [total_packets] and to exactly one of [passed_packets],
    [dropped_packets] and [redirected_go], the one that belongs to its
    verdict: [XDP_PASS], [XDP_DROP], or the result of the redirect.
    [redirected_afxdp] is never written. *)
Theorem X1_verdict_counted_once
    (ctx : xdp_md) (clk : ktime) (ev : evictions) (s : maps) (st : global_stats)
    (Hst : stats_map s = Some st) :
  exists st',
    stats_map (snd (process_packet ctx clk ev s)) = Some st'
    /\ total_packets st' = u64 (total_packets st + 1)
    /\ last_update st' = t_process_packet clk
    /\ redirected_afxdp st' = redirected_afxdp st
    /\ match fst (process_packet ctx clk ev s) with
       | XDP_PASS =>
           passed_packets st' = u64 (passed_packets st + 1)
           /\ dropped_packets st' = dropped_packets st
           /\ redirected_go st' = redirected_go st
       | XDP_DROP =>
           passed_packets st' = passed_packets st
           /\ dropped_packets st' = u64 (dropped_packets st + 1)
           /\ redirected_go st' = redirected_go st
       | _ =>
           passed_packets st' = passed_packets st
           /\ dropped_packets st' = dropped_packets st
           /\ redirected_go st' = u64 (redirected_go st + 1)
       end.
Proof.
  unfold process_packet.
  destruct (process_packet_body ctx clk ev s) as [l s'] eqn:Hbody.
  destruct (process_packet_body_inv ctx clk ev s l s' Hbody) as (_ & _ & Hstats & _).
  rewrite Hst in Hstats.
  destruct l; cbn [fst snd with_stats stats_map]; rewrite Hstats; cbn;
    eexists; (split; [reflexivity |]); cbn;
    try (unfold bpf_redirect_map; destruct (afxdp_redirect_map s' !! 0));
    tauto.
Qed.

Lemma X1_witness :
  exists st',
    stats_map (snd (process_packet (Samples.tcp_packet 8080 Samples.plain_payload)
                      Samples.clock0 Samples.no_evictions
                      (Samples.one_service (Samples.tcp_service 8080 0 0)))) = Some st'
    /\ total_packets st' = u64 (total_packets Samples.zero_stats + 1).
Proof.
  destruct (X1_verdict_counted_once (Samples.tcp_packet 8080 Samples.plain_payload)
              Samples.clock0 Samples.no_evictions
              (Samples.one_service (Samples.tcp_service 8080 0 0))
              Samples.zero_stats eq_refl) as (st' & H1 & H2 & _).
  exists st'. split; assumption.
Defined.

(** X2.  [process_packet] neither adds nor removes a service and never
    changes a service's configuration: each stored service keeps its id,
    address, port range, protocol, authentication type, TLS and WebSocket
    flags and limits, and is either untouched or has had its counters
    advanced by [touch_service]. *)
Theorem X2_service_configuration_preserved
    (ctx : xdp_md) (clk : ktime) (ev : evictions) (s : maps) (k : Z) :
  match services_map s !! k with
  | None => services_map (snd (process_packet ctx clk ev s)) !! k = None
  | Some svc =>
      exists svc',
        services_map (snd (process_packet ctx clk ev s)) !! k = Some svc'
        /\ (svc' = svc
            \/ svc' = touch_service (u32 (data_end ctx)) (t_process_packet clk) svc)
        /\ svc_service_id svc' = svc_service_id svc
        /\ svc_ip_addr svc' = svc_ip_addr svc
        /\ svc_port_start svc' = svc_port_start svc
        /\ svc_port_end svc' = svc_port_end svc
        /\ svc_protocol svc' = svc_protocol svc
        /\ svc_auth_type svc' = svc_auth_type svc
        /\ svc_requires_tls svc' = svc_requires_tls svc
        /\ svc_allows_websocket svc' = svc_allows_websocket svc
        /\ svc_rate_limit_pps svc' = svc_rate_limit_pps svc
        /\ svc_bandwidth_limit svc' = svc_bandwidth_limit svc
  end.
Proof.
  assert (Hsame : forall svc, exists svc',
             Some svc = Some svc'
             /\ (svc' = svc
                 \/ svc' = touch_service (u32 (data_end ctx)) (t_process_packet clk) svc)
             /\ svc_service_id svc' = svc_service_id svc
             /\ svc_ip_addr svc' = svc_ip_addr svc
             /\ svc_port_start svc' = svc_port_start svc
             /\ svc_port_end svc' = svc_port_end svc
             /\ svc_protocol svc' = svc_protocol svc
             /\ svc_auth_type svc' = svc_auth_type svc
             /\ svc_requires_tls svc' = svc_requires_tls svc
             /\ svc_allows_websocket svc' = svc_allows_websocket svc
             /\ svc_rate_limit_pps svc' = svc_rate_limit_pps svc
             /\ svc_bandwidth_limit svc' = svc_bandwidth_limit svc).
  { intros svc. exists svc. repeat split; auto. }
  assert (Hmap : services_map (snd (process_packet ctx clk ev s))
                 = services_map (snd (process_packet_body ctx clk ev s))).
  { unfold process_packet. destruct (process_packet_body ctx clk ev s) as [l s'].
    destruct l; reflexivity. }
  rewrite Hmap.
  destruct (process_packet_body ctx clk ev s) as [l s'] eqn:Hbody. cbn [snd].
  destruct (decide (l = drop_invalid \/ l = pass_simple)) as [Hl | Hl].
  - destruct (process_packet_body_inv ctx clk ev s l s' Hbody) as (_ & _ & _ & Hmaps).
    assert (Hsvc : services_map s' = services_map s)
      by (destruct Hl as [-> | ->]; tauto).
    rewrite Hsvc. destruct (services_map s !! k) as [svc|]; [apply Hsame | reflexivity].
  - destruct (process_packet_body_matched ctx clk ev s l s' Hbody)
      as (key & svc0 & sp & dp & _ & Hfind & -> & _); [tauto | tauto |].
    destruct (find_service_found _ _ _ _ _ _ Hfind) as (_ & Hlk & _).
    destruct (Z.eq_dec key k) as [-> | Hne].
    + rewrite lookup_insert_eq, Hlk. eexists. split; [reflexivity |].
      split; [now right |]. cbn. repeat split; reflexivity.
    + rewrite lookup_insert_ne by exact Hne.
      destruct (services_map s !! k) as [svc|]; [apply Hsame | reflexivity].
Qed.

(** X3.  The counters of a service count offered packets, not admitted
    ones.  A classified packet that the rate limiter refuses, or that the
    limiter lets through and [check_authentication] refuses, is dropped,
    and the service at which the lookup stopped, stored under its key
    before, is stored there afterwards with [packet_count] grown by 1,
    [byte_count] grown by the packet length, [last_activity] the packet's
    time and its configuration unchanged. *)
Theorem X3_policy_drop_counted_on_service
    (ctx : xdp_md) (clk : ktime) (ev : evictions) (s : maps)
    (k : Z) (svc : service) (sp dp : Z)
    (Hclassified : classified ctx s k svc sp dp)
    (Hrefused : rate_limit_refuses ctx clk ev s svc
                \/ (~ rate_limit_refuses ctx clk ev s svc
                    /\ authentication_refuses ctx clk s k svc)) :
  fst (process_packet ctx clk ev s) = XDP_DROP
  /\ services_map s !! k = Some svc
  /\ exists svc',
       services_map (snd (process_packet ctx clk ev s)) !! k = Some svc'
       /\ svc_packet_count svc' = u64 (svc_packet_count svc + 1)
       /\ svc_byte_count svc' = u64 (svc_byte_count svc + u32 (data_end ctx))
       /\ svc_last_activity svc' = t_process_packet clk
       /\ svc_service_id svc' = svc_service_id svc
       /\ svc_ip_addr svc' = svc_ip_addr svc
       /\ svc_port_start svc' = svc_port_start svc
       /\ svc_port_end svc' = svc_port_end svc
       /\ svc_protocol svc' = svc_protocol svc
       /\ svc_auth_type svc' = svc_auth_type svc
       /\ svc_rate_limit_pps svc' = svc_rate_limit_pps svc.
Proof.
  assert (Hstored : services_map s !! k = Some svc).
  { destruct Hclassified as (_ & _ & _ & _ & Hfind).
    now destruct (find_service_found _ _ _ _ _ _ Hfind) as (_ & Hlk & _). }
  assert (Hres : process_packet ctx clk ev s
                 = (XDP_DROP, snd (process_packet ctx clk ev s))
                 /\ services_map (snd (process_packet ctx clk ev s))
                    = <[k := touch_service (u32 (data_end ctx)) (t_process_packet clk)
                                svc]> (services_map s)).
  { destruct Hrefused as [Href | [Hadm Hauth]].
    - rewrite (process_packet_rate_limited ctx clk ev s k svc sp dp Hclassified Href).
      split; reflexivity.
    - rewrite (proj1 (process_packet_admitted ctx clk ev s k svc sp dp
                        Hclassified Hadm) Hauth).
      split; reflexivity. }
  destruct Hres as [Hv Hsvc].
  split; [now rewrite Hv |]. split; [exact Hstored |].
  eexists. rewrite Hsvc, lookup_insert_eq. split; [reflexivity |].
  cbn. repeat split; reflexivity.
Qed.

(** A TCP segment without a token for a service with simple
    authentication and no rate. *)
Lemma X3_witness :
  fst (process_packet (Samples.tcp_packet 8080 Samples.plain_payload) Samples.clock0
         Samples.no_evictions
         (Samples.one_service (Samples.tcp_service 8080 AUTH_SIMPLE 0))) = XDP_DROP.
Proof.
  apply (X3_policy_drop_counted_on_service
           (Samples.tcp_packet 8080 Samples.plain_payload) Samples.clock0
           Samples.no_evictions
           (Samples.one_service (Samples.tcp_service 8080 AUTH_SIMPLE 0))
           1 (Samples.tcp_service 8080 AUTH_SIMPLE 0) 40000 8080).
  - unfold classified. repeat split; vm_compute; congruence.
  - right. split.
    + intros [Hrate _]. vm_compute in Hrate. discriminate.
    + split; vm_compute; reflexivity.
Defined.

(** A call for a key without a bucket creates the bucket and allows. *)
Lemma check_rate_limit_new key limit now ev m :
  m !! key = None -> fst (check_rate_limit key limit now ev m) = true.
Proof. intros H. unfold check_rate_limit. now rewrite H. Qed.

(** X4.  [process_packet] writes at most one bucket of the rate-limit
    table, that of the packet's source address.  The bucket of any other
    key is left as it was, with one exception: when the source gets a new
    bucket in a full table, the buckets that the kernel evicts are gone.
    And the first packet of a source without a bucket is never counted as
    rate-limited. *)
Theorem X4_only_source_bucket_written
    (ctx : xdp_md) (clk : ktime) (ev : evictions) (s : maps) :
  (forall key, key <> ip_saddr ctx ETH_HLEN ->
     rate_limit_map (snd (process_packet ctx clk ev s)) !! key = rate_limit_map s !! key
     \/ (rate_limit_map s !! ip_saddr ctx ETH_HLEN = None
         /\ BpfMap.full MAX_RATE_LIMIT_ENTRIES (rate_limit_map s) = true
         /\ key ∈ ev_rate_limit_map ev
         /\ rate_limit_map (snd (process_packet ctx clk ev s)) !! key = None))
  /\ (rate_limit_map s !! ip_saddr ctx ETH_HLEN = None ->
      forall st, stats_map s = Some st ->
        exists st',
          stats_map (snd (process_packet ctx clk ev s)) = Some st'
          /\ rate_limited st' = rate_limited st).
Proof.
  assert (Hmap : rate_limit_map (snd (process_packet ctx clk ev s))
                 = rate_limit_map (snd (process_packet_body ctx clk ev s))).
  { unfold process_packet. destruct (process_packet_body ctx clk ev s) as [l s'].
    destruct l; reflexivity. }
  assert (Hstats : forall st, stats_map s = Some st ->
             fst (process_packet_body ctx clk ev s) <> drop_rate_limited ->
             exists st',
               stats_map (snd (process_packet ctx clk ev s)) = Some st'
               /\ rate_limited st' = rate_limited st).
  { intros st Hst. unfold process_packet.
    destruct (process_packet_body ctx clk ev s) as [l s'] eqn:Hbody.
    destruct (process_packet_body_inv ctx clk ev s l s' Hbody) as (_ & _ & Hs & _).
    rewrite Hst in Hs. cbn [fst]. intros Hl.
    destruct l; try congruence; cbn [snd with_stats stats_map]; rewrite Hs; cbn;
      eexists; (split; [reflexivity |]); reflexivity. }
  rewrite Hmap.
  destruct (process_packet_body ctx clk ev s) as [l s'] eqn:Hbody. cbn [fst snd] in *.
  destruct (decide (l = drop_invalid \/ l = pass_simple)) as [Hl | Hl].
  - destruct (process_packet_body_inv ctx clk ev s l s' Hbody) as (_ & _ & _ & Hmaps).
    assert (Hrl : rate_limit_map s' = rate_limit_map s)
      by (destruct Hl as [-> | ->]; tauto).
    rewrite Hrl. split; [intros key _; now left |].
    intros _ st Hst. apply (Hstats st Hst). destruct Hl as [-> | ->]; discriminate.
  - destruct (process_packet_body_matched ctx clk ev s l s' Hbody)
      as (k & svc & sp & dp & _ & _ & _ & Hrate); [tauto | tauto |].
    destruct (svc_rate_limit_pps svc >? 0).
    + split.
      * intros key Hne.
        pose proof (check_rate_limit_other (ip_saddr ctx ETH_HLEN) key
                      (svc_rate_limit_pps svc) (t_check_rate_limit clk)
                      (ev_rate_limit_map ev) (rate_limit_map s) ltac:(congruence))
          as Hother.
        rewrite Hrate in Hother. cbn [snd] in Hother.
        destruct (bool_decide (rate_limit_map s !! ip_saddr ctx ETH_HLEN = None)) eqn:E1;
          [apply bool_decide_eq_true_1 in E1 | now left].
        destruct (BpfMap.full MAX_RATE_LIMIT_ENTRIES (rate_limit_map s)) eqn:E2;
          [| now left].
        destruct (bool_decide (key ∈ ev_rate_limit_map ev)) eqn:E3;
          [apply bool_decide_eq_true_1 in E3 | now left].
        cbn [andb] in Hother. right. auto.
      * intros Hnone st Hst. apply (Hstats st Hst). intros Hrl.
        pose proof (check_rate_limit_new _ (svc_rate_limit_pps svc)
                      (t_check_rate_limit clk) (ev_rate_limit_map ev) _ Hnone) as Hnew.
        rewrite Hrate in Hnew. cbn [fst] in Hnew.
        rewrite bool_decide_eq_true_2 in Hnew by exact Hrl. discriminate.
    + destruct Hrate as [Hne ->]. split; [intros key _; now left |].
      intros _ st Hst. now apply (Hstats st Hst).
Qed.

End EngineAccounting.

(* --------------------------------------------------------------------- *)
(** *** enhanced_rules.c: bursts, flows and the fast path *)
(* --------------------------------------------------------------------- *)

Section EngineTraces.
Import Mach Packet EnhancedRules EnhancedRulesSpec EngineTraceSpec.

Lemma check_rate_limit_no_refill key limit t0 j t ev m :
  0 < limit < 2^32 -> 1 <= j ->
  burst_state key limit t0 j m ->
  0 <= t - t0 -> (t - t0) * limit < 1000000000 ->
  fst (check_rate_limit key limit t ev m) = (j <? limit)
  /\ burst_state key limit t0 (j + 1) (snd (check_rate_limit key limit t ev m)).
Proof.
  intros Hl Hj (e & Hm & Ht0 & Htok) Hel Hsmall.
  unfold check_rate_limit, burst_state. rewrite Hm, Ht0. cbv zeta.
  assert (Hlt : t - t0 < 2^64) by nia.
  rewrite (u64_small (t - t0)) by lia.
  rewrite (u64_small ((t - t0) * limit)) by nia.
  rewrite (Z.div_small ((t - t0) * limit) 1000000000) by nia.
  change (u32 0) with 0. change (0 <? 0) with false. cbv iota.
  rewrite Htok.
  destruct (0 <? Z.max 0 (limit - j)) eqn:Hpos;
    [apply Z.ltb_lt in Hpos | apply Z.ltb_ge in Hpos]; cbn [fst snd].
  - rewrite (proj2 (Z.ltb_lt j limit)) by lia. split; [reflexivity |].
    eexists. split; [apply lookup_insert_eq |]. cbn.
    split; [assumption |]. rewrite u32_small by lia. lia.
  - rewrite (proj2 (Z.ltb_ge j limit)) by lia. split; [reflexivity |].
    exists e. split; [apply lookup_insert_eq |]. split; [assumption | lia].
Qed.

Lemma run_burst key limit t0 calls :
  0 < limit < 2^32 ->
  Forall (fun c : Z * list Z =>
            0 <= fst c - t0 /\ (fst c - t0) * limit < 1000000000) calls ->
  forall j m,
    1 <= j ->
    burst_state key limit t0 j m ->
    forall (k : nat),
      (k < length calls)%nat ->
      fst (Trace.run_check_rate_limit limit (burst_calls key calls) m) !! k
      = Some (j + Z.of_nat k <? limit).
Proof.
  intros Hl Hall.
  induction Hall as [| [t ev] calls [Ht1 Ht2] Hall IH]; intros j m Hj Hst k Hk.
  - cbn in Hk. lia.
  - cbn [fst snd] in Ht1, Ht2.
    cbn [burst_calls map Trace.run_check_rate_limit fst snd].
    fold (burst_calls key calls).
    destruct (check_rate_limit_no_refill key limit t0 j t ev m Hl Hj Hst Ht1 Ht2)
      as [Hv Hst'].
    destruct (check_rate_limit key limit t ev m) as [v m1]. cbn [fst snd] in *.
    specialize (IH (j + 1) m1 ltac:(lia) Hst').
    destruct (Trace.run_check_rate_limit limit (burst_calls key calls) m1)
      as [vs m2].
    cbn [fst] in *. destruct k as [| k].
    + cbn. rewrite Z.add_0_r. now rewrite Hv.
    + rewrite lookup_cons. cbn [length] in Hk. rewrite (IH k) by lia.
      now replace (j + 1 + Z.of_nat k) with (j + Z.of_nat (S k)) by lia.
Qed.

(** X5.  A burst from a new source: when the packets after the first
    arrive so soon that no token accrues ([elapsed_ns * limit_pps < 10^9]
    since the first), packet number [k + 1] is allowed exactly when
    [k + 1 <= limit_pps], whatever the kernel evicts when the entry is
    created.  The entry is created with [limit_pps - 1] tokens, so the
    first packet already counts against the limit. *)
Theorem X5_burst_admits_limit
    (key limit t0 : Z) (ev0 : list Z) (calls : list (Z * list Z))
    (m : gmap Z rate_limit_entry)
    (Hlimit : 0 < limit < 2^32)
    (Hnew : m !! key = None)
    (Hsoon : Forall (fun c : Z * list Z =>
                       0 <= fst c - t0 /\ (fst c - t0) * limit < 1000000000) calls) :
  forall k : nat,
    (k < length ((t0, ev0) :: calls))%nat ->
    fst (Trace.run_check_rate_limit limit (burst_calls key ((t0, ev0) :: calls)) m) !! k
    = Some (Z.of_nat k <? limit).
Proof.
  intros k Hk. cbn [burst_calls map Trace.run_check_rate_limit fst snd].
  fold (burst_calls key calls).
  assert (Hst : burst_state key limit t0 1
                  (snd (check_rate_limit key limit t0 ev0 m))).
  { unfold check_rate_limit, burst_state. rewrite Hnew. cbn [snd].
    eexists. split; [apply lru_update_lookup |]. cbn.
    split; [reflexivity |]. rewrite u32_small by lia. lia. }
  pose proof (check_rate_limit_new key limit t0 ev0 m Hnew) as Hv.
  destruct (check_rate_limit key limit t0 ev0 m) as [v m1]. cbn [fst snd] in *. subst v.
  pose proof (run_burst key limit t0 calls Hlimit Hsoon 1 m1 ltac:(lia) Hst) as Hrun.
  destruct (Trace.run_check_rate_limit limit (burst_calls key calls) m1) as [vs m2].
  cbn [fst] in *. destruct k as [| k].
  - change (Z.of_nat 0) with 0. rewrite (proj2 (Z.ltb_lt 0 limit)) by lia.
    reflexivity.
  - rewrite lookup_cons. cbn [length] in Hk. rewrite (Hrun k) by lia.
    now replace (1 + Z.of_nat k) with (Z.of_nat (S k)) by lia.
Qed.

(** Limit 3: of four packets within 100 microseconds the fourth is
    refused. *)
Lemma X5_witness :
  fst (Trace.run_check_rate_limit 3
         (burst_calls Samples.ip_10_0_0_1
            [(1000, []); (1010, []); (1020, []); (100000, [])]) ∅)
    !! 3%nat = Some false.
Proof.
  apply (X5_burst_admits_limit Samples.ip_10_0_0_1 3 1000 []
           [(1010, []); (1020, []); (100000, [])] ∅).
  - lia.
  - apply lookup_empty.
  - repeat constructor; cbn; lia.
  - cbn. lia.
Defined.

Lemma u64_add_idemp a b : u64 (u64 a + b) = u64 (a + b).
Proof. unfold u64. apply Zplus_mod_idemp_l. Qed.

Lemma run_update_connection_tracking_hit src_ip dst_ip src_port dst_port protocol
    packets :
  forall m c,
    m !! hash_connection src_ip dst_ip src_port dst_port protocol = Some c ->
    exists c',
      Trace.run_update_connection_tracking src_ip dst_ip src_port dst_port protocol
        packets m
      = <[hash_connection src_ip dst_ip src_port dst_port protocol := c']> m
      /\ conn_src_ip c' = conn_src_ip c /\ conn_dst_ip c' = conn_dst_ip c
      /\ conn_src_port c' = conn_src_port c /\ conn_dst_port c' = conn_dst_port c
      /\ conn_protocol c' = conn_protocol c /\ conn_state c' = conn_state c
      /\ conn_service_id c' = conn_service_id c
      /\ conn_packets_tx c' = conn_packets_tx c /\ conn_bytes_tx c' = conn_bytes_tx c
      /\ conn_last_activity c' = last_time (conn_last_activity c) packets
      /\ u64 (conn_packets_rx c') = u64 (conn_packets_rx c + Z.of_nat (length packets))
      /\ u64 (conn_bytes_rx c') = u64 (conn_bytes_rx c + total_len packets)
      /\ (packets = [] /\ c' = c
          \/ 0 <= conn_packets_rx c' < 2^64 /\ 0 <= conn_bytes_rx c' < 2^64).
Proof.
  induction packets as [| [[[sid len] now] ev] packets IH]; intros m c Hm.
  - exists c. cbn. rewrite insert_id by exact Hm.
    rewrite !Z.add_0_r. repeat split; try reflexivity. now left.
  - cbn [Trace.run_update_connection_tracking].
    rewrite (update_connection_tracking_hit _ _ _ _ _ _ _ _ _ _ c Hm).
    match goal with
    | |- context [<[?h := ?v]> m] =>
        destruct (IH (<[h := v]> m) v ltac:(apply lookup_insert_eq))
          as (c' & Hrun & H1 & H2 & H3 & H4 & H5 & H6 & H7 & H8 & H9 & H10 & H11 & H12
              & Hrange)
    end.
    assert (Hr : 0 <= conn_packets_rx c' < 2^64 /\ 0 <= conn_bytes_rx c' < 2^64).
    { destruct Hrange as [[_ ->] | Hr]; [| exact Hr].
      cbn. split; apply u64_range. }
    exists c'. rewrite Hrun, insert_insert_eq. cbn in *.
    assert (Hp : u64 (conn_packets_rx c')
                 = u64 (conn_packets_rx c + Z.of_nat (S (length packets))))
      by (rewrite H11, u64_add_idemp; f_equal; lia).
    assert (Hb : u64 (conn_bytes_rx c')
                 = u64 (conn_bytes_rx c + total_len ((sid, len, now, ev) :: packets)))
      by (rewrite H12, u64_add_idemp; unfold total_len; cbn; f_equal; lia).
    split; [reflexivity |].
    repeat (split; [first [assumption | congruence] |]).
    right. exact Hr.
Qed.

(** X6.  The packets of one flow, arriving at a table that has no entry
    under the flow's hash, leave one entry: it carries the tuple and the
    service id of the first packet and state 1, its [last_activity] is the
    time of the last packet, [packets_rx] is the number of packets and
    [bytes_rx] the sum of their lengths (both modulo 2^64), and the
    transmit counters stay 0.  The table is the one before with that entry
    written by one update: no other key changes, except that on a full
    table the entries the kernel evicts for the first packet are gone. *)
Theorem X6_flow_counters_accumulate
    (src_ip dst_ip src_port dst_port protocol sid len now : Z) (ev : list Z)
    (packets : list (Z * Z * Z * list Z)) (m : gmap Z connection)
    (Hnew : m !! hash_connection src_ip dst_ip src_port dst_port protocol = None)
    (Hlen : 0 <= len < 2^64) :
  let h := hash_connection src_ip dst_ip src_port dst_port protocol in
  let m' := Trace.run_update_connection_tracking src_ip dst_ip src_port dst_port
              protocol ((sid, len, now, ev) :: packets) m in
  exists c,
    m' = BpfMap.lru_update MAX_CONNECTION_TRACKING ev h c m
    /\ m' !! h = Some c
    /\ (forall k, k <> h ->
          m' !! k = if BpfMap.full MAX_CONNECTION_TRACKING m && bool_decide (k ∈ ev)
                    then None else m !! k)
    /\ conn_src_ip c = src_ip /\ conn_dst_ip c = dst_ip
    /\ conn_src_port c = src_port /\ conn_dst_port c = dst_port
    /\ conn_protocol c = protocol /\ conn_state c = 1
    /\ conn_service_id c = sid
    /\ conn_packets_tx c = 0 /\ conn_bytes_tx c = 0
    /\ conn_last_activity c = last_time now packets
    /\ conn_packets_rx c = u64 (Z.of_nat (length ((sid, len, now, ev) :: packets)))
    /\ conn_bytes_rx c = u64 (total_len ((sid, len, now, ev) :: packets)).
Proof.
  intros h m'. subst m'. cbn [Trace.run_update_connection_tracking].
  rewrite (update_connection_tracking_miss _ _ _ _ _ _ _ _ _ _ Hnew). fold h.
  match goal with
  | |- context [BpfMap.lru_update ?n ev h ?v m] =>
      destruct (run_update_connection_tracking_hit src_ip dst_ip src_port dst_port
                  protocol packets (BpfMap.lru_update n ev h v m) v
                  ltac:(apply lru_update_lookup))
        as (c' & Hrun & H1 & H2 & H3 & H4 & H5 & H6 & H7 & H8 & H9 & H10 & H11 & H12
            & Hrange)
  end.
  fold h in Hrun. rewrite insert_lru_update in Hrun.
  exists c'. rewrite Hrun. cbn in *.
  assert (Hr : conn_packets_rx c' = u64 (conn_packets_rx c')
               /\ conn_bytes_rx c' = u64 (conn_bytes_rx c')).
  { destruct Hrange as [[_ ->] | [Hr1 Hr2]]; cbn.
    - split; [reflexivity | symmetry; now apply u64_small].
    - split; symmetry; now apply u64_small. }
  assert (Hp : conn_packets_rx c' = u64 (Z.of_nat (S (length packets))))
    by (rewrite (proj1 Hr), H11; f_equal; lia).
  assert (Hb : conn_bytes_rx c' = u64 (total_len ((sid, len, now, ev) :: packets)))
    by (rewrite (proj2 Hr), H12; reflexivity).
  split; [reflexivity |]. split; [apply lru_update_lookup |].
  split; [intros k Hk; now apply lru_update_lookup_ne |].
  repeat split; first [assumption | congruence].
Qed.

Lemma X6_witness :
  exists c,
    Trace.run_update_connection_tracking Samples.ip_10_0_0_1 Samples.ip_10_0_0_5
      40000 443 6 [(1, 60, 1000, []); (1, 1500, 2000, []); (1, 40, 3000, [])] ∅
    = BpfMap.lru_update MAX_CONNECTION_TRACKING []
        (hash_connection Samples.ip_10_0_0_1 Samples.ip_10_0_0_5 40000 443 6) c ∅
    /\ conn_packets_rx c = u64 3.
Proof.
  destruct (X6_flow_counters_accumulate Samples.ip_10_0_0_1 Samples.ip_10_0_0_5
              40000 443 6 1 60 1000 [] [(1, 1500, 2000, []); (1, 40, 3000, [])] ∅
              (lookup_empty _) ltac:(lia))
    as (c & H1 & _ & _ & _ & _ & _ & _ & _ & _ & _ & _ & _ & _ & H2 & _).
  exists c. split; assumption.
Defined.

End EngineTraces.

(* --------------------------------------------------------------------- *)
(** *** enhanced_rules.c: pass-through and the fast path *)
(* --------------------------------------------------------------------- *)

Section EnginePaths.
Import Mach Packet EnhancedRules EnhancedRulesSpec.

(** X7.  [needs_complex_processing] keeps a packet on the fast path
    (returns 0) exactly when the service asks for neither TLS, WebSocket
    nor complex authentication, the Ethernet header is complete, and the
    frame is not IPv4, or is IPv4 with a complete fixed header and is not
    TCP, or is a TCP segment with a complete fixed header, a destination
    port other than 443 and a payload that either has fewer than 6 bytes or
    starts with neither [16 03] nor [GET].  Without a service it returns
    1. *)
Theorem X7_fast_path_condition (ctx : xdp_md) (svc : service) :
  let tcp := ETH_HLEN + ip_ihl ctx ETH_HLEN * 4 in
  let payload := tcp + tcp_doff ctx tcp * 4 in
  needs_complex_processing ctx None = true
  /\ (needs_complex_processing ctx (Some svc) = false
      <-> svc_requires_tls svc = 0
          /\ svc_allows_websocket svc = 0
          /\ svc_auth_type svc <> AUTH_COMPLEX
          /\ ETH_HLEN <= data_end ctx
          /\ (eth_h_proto ctx <> ETH_P_IP
              \/ (ETH_HLEN + IPHDR_SIZE <= data_end ctx
                  /\ (ip_protocol ctx ETH_HLEN <> PROTO_TCP
                      \/ (tcp + TCPHDR_SIZE <= data_end ctx
                          /\ tcp_dest ctx tcp <> 443
                          /\ (data_end ctx < payload + 6
                              \/ (~ (load_u8 ctx payload = 0x16
                                     /\ load_u8 ctx (payload + 1) = 0x03)
                                  /\ ~ (load_u8 ctx payload = 71
                                        /\ load_u8 ctx (payload + 1) = 69
                                        /\ load_u8 ctx (payload + 2) = 84)))))))).
Proof.
  intros tcp payload. split; [reflexivity |].
  unfold needs_complex_processing, nonzero. cbv zeta. fold tcp. fold payload.
  rewrite !Z.gtb_ltb.
  destruct (svc_requires_tls svc =? 0) eqn:E1;
    [apply Z.eqb_eq in E1 | apply Z.eqb_neq in E1]; cbn [negb]; cbv beta iota;
    [| split; [discriminate | tauto]].
  destruct (svc_allows_websocket svc =? 0) eqn:E2;
    [apply Z.eqb_eq in E2 | apply Z.eqb_neq in E2]; cbn [negb]; cbv beta iota;
    [| split; [discriminate | tauto]].
  destruct (svc_auth_type svc =? AUTH_COMPLEX) eqn:E3;
    [apply Z.eqb_eq in E3 | apply Z.eqb_neq in E3]; cbv beta iota;
    [split; [discriminate | tauto] |].
  destruct (data_end ctx <? ETH_HLEN) eqn:E4;
    [apply Z.ltb_lt in E4 | apply Z.ltb_ge in E4]; cbv beta iota;
    [split; [discriminate | intros (_ & _ & _ & ? & _); lia] |].
  destruct (eth_h_proto ctx =? ETH_P_IP) eqn:E5;
    [apply Z.eqb_eq in E5 | apply Z.eqb_neq in E5]; cbn [negb]; cbv beta iota;
    [| split; [intros _; tauto | reflexivity]].
  destruct (data_end ctx <? ETH_HLEN + IPHDR_SIZE) eqn:E6;
    [apply Z.ltb_lt in E6 | apply Z.ltb_ge in E6]; cbv beta iota;
    [split; [discriminate | intros (_ & _ & _ & _ & [? | [? _]]); [congruence | lia]] |].
  destruct (ip_protocol ctx ETH_HLEN =? PROTO_TCP) eqn:E7;
    [apply Z.eqb_eq in E7 | apply Z.eqb_neq in E7]; cbv beta iota;
    [| split; [intros _; tauto | reflexivity]].
  destruct (data_end ctx <? tcp + TCPHDR_SIZE) eqn:E8;
    [apply Z.ltb_lt in E8 | apply Z.ltb_ge in E8]; cbv beta iota.
  { split; [discriminate |].
    intros (_ & _ & _ & _ & [? | [_ [? | [? _]]]]); [congruence | congruence | lia]. }
  destruct (tcp_dest ctx tcp =? 443) eqn:E9;
    [apply Z.eqb_eq in E9 | apply Z.eqb_neq in E9]; cbv beta iota.
  { split; [discriminate |].
    intros (_ & _ & _ & _ & [? | [_ [? | (_ & ? & _)]]]); congruence. }
  destruct (payload + 6 <=? data_end ctx) eqn:E10;
    [apply Z.leb_le in E10 | apply Z.leb_gt in E10]; cbv beta iota;
    [| split; [intros _; tauto | reflexivity]].
  destruct ((load_u8 ctx payload =? 22) && (load_u8 ctx (payload + 1) =? 3)) eqn:E11.
  { apply andb_true_iff in E11. rewrite !Z.eqb_eq in E11.
    split; [discriminate |].
    intros (_ & _ & _ & _ & [? | [_ [? | (_ & _ & [? | [? _]])]]]);
      [congruence | congruence | lia | tauto]. }
  destruct ((load_u8 ctx payload =? 71) && (load_u8 ctx (payload + 1) =? 69)
            && (load_u8 ctx (payload + 2) =? 84)) eqn:E12.
  { rewrite !andb_true_iff, !Z.eqb_eq in E12.
    split; [discriminate |].
    intros (_ & _ & _ & _ & [? | [_ [? | (_ & _ & [? | [_ ?]])]]]);
      [congruence | congruence | lia | tauto]. }
  split; [intros _ | reflexivity].
  repeat (split; [assumption |]). right. split; [assumption |]. right.
  split; [assumption |]. split; [assumption |]. right. split.
  - intros [H1 H2]. rewrite H1, H2 in E11. discriminate.
  - intros (H1 & H2 & H3). rewrite H1, H2, H3 in E12. discriminate.
Qed.

(** The service lookup fails when no key of its range holds a matching
    service. *)
Lemma find_service_none m dst_ip dst_port protocol :
  (forall k svc, 1 <= k <= MAX_SERVICES -> m !! k = Some svc ->
                 ~ Reference.service_match svc dst_ip dst_port protocol) ->
  find_service m dst_ip dst_port protocol (Z.to_nat MAX_SERVICES) 1 = None.
Proof.
  intros Hno.
  pose proof (find_service_from m dst_ip dst_port protocol (Z.to_nat MAX_SERVICES) 1
                ltac:(lia) ltac:(vm_compute; discriminate)) as Hf.
  destruct (find_service m dst_ip dst_port protocol (Z.to_nat MAX_SERVICES) 1)
    as [[k svc]|]; [| reflexivity].
  destruct Hf as (Hk & Hlk & Hm & _). exfalso. exact (Hno k svc Hk Hlk Hm).
Qed.

(** X8.  Pass-through: a frame with a complete Ethernet header that is not
    IPv4, an IPv4 packet whose protocol is none of TCP, UDP and ICMP, and a
    TCP, UDP or ICMP packet for which no key from 1 to [MAX_SERVICES] holds
    a matching service all get [XDP_PASS]; the only effect is on the
    statistics slot, where [total_packets] and [passed_packets] are
    advanced. *)
Theorem X8_unclassified_traffic_passes
    (ctx : xdp_md) (clk : ktime) (ev : evictions) (s : maps)
    (Heth : ETH_HLEN <= data_end ctx)
    (Hcase :
       eth_h_proto ctx <> ETH_P_IP
       \/ (ETH_HLEN + IPHDR_SIZE <= data_end ctx
           /\ ip_protocol ctx ETH_HLEN <> PROTO_TCP
           /\ ip_protocol ctx ETH_HLEN <> PROTO_UDP
           /\ ip_protocol ctx ETH_HLEN <> PROTO_ICMP)
       \/ (eth_h_proto ctx = ETH_P_IP
           /\ ETH_HLEN + IPHDR_SIZE <= data_end ctx
           /\ exists src_port dst_port,
                parse_transport ctx (ip_protocol ctx ETH_HLEN)
                  (ETH_HLEN + ip_ihl ctx ETH_HLEN * 4) = Some (Some (src_port, dst_port))
                /\ forall k svc,
                     1 <= k <= MAX_SERVICES -> services_map s !! k = Some svc ->
                     ~ Reference.service_match svc (ip_daddr ctx ETH_HLEN) dst_port
                         (ip_protocol ctx ETH_HLEN))) :
  process_packet ctx clk ev s
  = (XDP_PASS,
     with_stats add_passed_packets
       (with_stats (add_total_packets (t_process_packet clk)) s)).
Proof.
  assert (Hbody : process_packet_body ctx clk ev s
                  = (pass_simple, with_stats (add_total_packets (t_process_packet clk)) s)).
  { unfold process_packet_body. cbv zeta. rewrite !Z.gtb_ltb.
    rewrite (proj2 (Z.ltb_ge (data_end ctx) ETH_HLEN)) by lia.
    destruct (eth_h_proto ctx =? ETH_P_IP) eqn:E;
      [apply Z.eqb_eq in E | reflexivity]. cbn [negb].
    destruct Hcase as [Hc | [(Hip & H6 & H17 & H1) | (_ & Hip & sp & dp & Hpt & Hno)]];
      [congruence | |];
      rewrite (proj2 (Z.ltb_ge (data_end ctx) (ETH_HLEN + IPHDR_SIZE))) by lia.
    - unfold parse_transport.
      rewrite (proj2 (Z.eqb_neq _ _) H6), (proj2 (Z.eqb_neq _ _) H17),
        (proj2 (Z.eqb_neq _ _) H1). reflexivity.
    - rewrite Hpt.
      now rewrite (find_service_none _ _ _ _ Hno). }
  unfold process_packet. rewrite Hbody. reflexivity.
Qed.

(** An ARP frame. *)
Lemma X8_witness :
  fst (process_packet
         (frame ([2; 0; 0; 0; 0; 1;  2; 0; 0; 0; 0; 2;  0x08; 0x06] ++ replicate 28 0))
         Samples.clock0 Samples.no_evictions
         (Samples.one_service (Samples.tcp_service 8080 0 0)))
  = XDP_PASS.
Proof.
  rewrite (X8_unclassified_traffic_passes
             (frame ([2; 0; 0; 0; 0; 1;  2; 0; 0; 0; 0; 2;  0x08; 0x06] ++ replicate 28 0))
             Samples.clock0 Samples.no_evictions
         (Samples.one_service (Samples.tcp_service 8080 0 0))).
  - reflexivity.
  - vm_compute. discriminate.
  - left. vm_compute. discriminate.
Defined.

End EnginePaths.

(* --------------------------------------------------------------------- *)
(** *** rate_limit.c: the global window, bypasses and statistics *)
(* --------------------------------------------------------------------- *)

Section LimiterAccounting.
Import Mach Packet RateLimit RateLimitSpec LimiterSpec.

Lemma check_global_opens config t0 g :
  1 <= global_pps_limit config ->
  opens_global_window config t0 g ->
  fst (check_global_rate_limit config t0 g) = XDP_PASS
  /\ global_window_state t0 1 (snd (check_global_rate_limit config t0 g)).
Proof.
  intros HG [-> | (st & -> & Hel)]; unfold check_global_rate_limit, global_window_state.
  - cbn. split; [reflexivity |]. eexists. repeat split; reflexivity.
  - cbv zeta. rewrite Z.geb_leb, (proj2 (Z.leb_le _ _) Hel). cbn [g_packet_count].
    rewrite Z.gtb_ltb, (proj2 (Z.ltb_ge _ _) HG). cbn.
    split; [reflexivity |]. eexists. repeat split; reflexivity.
Qed.

Lemma check_global_in_window config t0 n t g :
  1 <= n -> n + 1 < 2^32 ->
  global_window_state t0 n g ->
  in_window config t0 t ->
  fst (check_global_rate_limit config t g)
  = (if n <? global_pps_limit config then XDP_PASS else XDP_DROP)
  /\ global_window_state t0 (n + 1) (snd (check_global_rate_limit config t g)).
Proof.
  intros Hn Hn32 (st & -> & Ht0 & Hcnt) Hin.
  unfold check_global_rate_limit, global_window_state. cbv zeta.
  unfold in_window in Hin. rewrite Ht0, Z.geb_leb, (proj2 (Z.leb_gt _ _) Hin).
  cbn [g_packet_count g_last_update_ns]. rewrite Hcnt, (u32_small (n + 1)) by lia.
  rewrite Z.gtb_ltb.
  destruct (global_pps_limit config <? n + 1) eqn:E;
    [apply Z.ltb_lt in E | apply Z.ltb_ge in E]; cbn [fst snd].
  - rewrite (proj2 (Z.ltb_ge n _)) by lia. split; [reflexivity |].
    eexists. repeat split; reflexivity.
  - rewrite (proj2 (Z.ltb_lt n _)) by lia. split; [reflexivity |].
    eexists. repeat split; reflexivity.
Qed.

Lemma run_global_in_window config t0 ts :
  forall n g,
    1 <= n -> n + Z.of_nat (length ts) < 2^32 ->
    global_window_state t0 n g ->
    Forall (in_window config t0) ts ->
    (forall k : nat,
       (k < length ts)%nat ->
       fst (Trace.run_check_global_rate_limit config ts g) !! k
       = Some (if n + Z.of_nat k <? global_pps_limit config then XDP_PASS else XDP_DROP))
    /\ global_window_state t0 (n + Z.of_nat (length ts))
         (snd (Trace.run_check_global_rate_limit config ts g)).
Proof.
  induction ts as [| t ts IH]; intros n g Hn Hlen Hst Hall.
  - cbn. split; [intros k Hk; lia |]. now rewrite Z.add_0_r.
  - cbn [length] in Hlen. inversion Hall as [| ? ? Hin Hall']; subst.
    cbn [Trace.run_check_global_rate_limit].
    destruct (check_global_in_window config t0 n t g Hn ltac:(lia) Hst Hin) as [Hv Hst'].
    destruct (check_global_rate_limit config t g) as [v g1]. cbn [fst snd] in *.
    destruct (IH (n + 1) g1 ltac:(lia) ltac:(lia) Hst' Hall') as [IHv IHs].
    destruct (Trace.run_check_global_rate_limit config ts g1) as [vs g2].
    cbn [fst snd] in *. split.
    + intros k Hk. cbn [length] in Hk. destruct k as [| k].
      * cbn. rewrite Z.add_0_r. now rewrite Hv.
      * rewrite lookup_cons, (IHv k) by lia.
        now replace (n + 1 + Z.of_nat k) with (n + Z.of_nat (S k)) by lia.
    + cbn [length]. now replace (n + Z.of_nat (S (length ts)))
        with (n + 1 + Z.of_nat (length ts)) by lia.
Qed.

(** X9.  The global limit has no burst allowance: when a packet opens a
    global window and the following packets arrive within it, packet number
    [k + 1] of the window is admitted exactly when
    [k + 1 <= global_pps_limit] (for a limit of at least 1 and fewer than
    2^32 packets).  Dropped packets keep counting in [packet_count]: after
    the run the global state still has the window's start as
    [last_update_ns] and its [packet_count] is the number of all packets
    of the run, admitted or dropped. *)
Theorem X9_global_window_admits_limit
    (config : rate_limit_config) (t0 : Z) (ts : list Z) (g : option global_rate_state)
    (HG : 1 <= global_pps_limit config)
    (Hopen : opens_global_window config t0 g)
    (Hin : Forall (in_window config t0) ts)
    (Hlen : Z.of_nat (length (t0 :: ts)) < 2^32) :
  (forall k : nat,
     (k < length (t0 :: ts))%nat ->
     fst (Trace.run_check_global_rate_limit config (t0 :: ts) g) !! k
     = Some (if Z.of_nat k <? global_pps_limit config then XDP_PASS else XDP_DROP))
  /\ exists st,
       snd (Trace.run_check_global_rate_limit config (t0 :: ts) g) = Some st
       /\ g_last_update_ns st = t0
       /\ g_packet_count st = Z.of_nat (length (t0 :: ts)).
Proof.
  cbn [Trace.run_check_global_rate_limit].
  destruct (check_global_opens config t0 g HG Hopen) as [Hv Hst].
  destruct (check_global_rate_limit config t0 g) as [v g1]. cbn [fst snd] in *.
  cbn [length] in Hlen.
  destruct (run_global_in_window config t0 ts 1 g1 ltac:(lia) ltac:(lia) Hst Hin)
    as [Hrun Hfin].
  destruct (Trace.run_check_global_rate_limit config ts g1) as [vs g2].
  cbn [fst snd] in *. split.
  - intros k Hk. cbn [length] in Hk. destruct k as [| k].
    + change (Z.of_nat 0) with 0. rewrite (proj2 (Z.ltb_lt 0 _)) by lia.
      cbn. now rewrite Hv.
    + rewrite lookup_cons, (Hrun k) by lia.
      now replace (1 + Z.of_nat k) with (Z.of_nat (S k)) by lia.
  - destruct Hfin as (st & -> & Ht & Hc). exists st.
    split; [reflexivity |]. split; [exact Ht |]. cbn [length]. lia.
Qed.

Lemma X9_witness :
  fst (Trace.run_check_global_rate_limit
         {| enabled := 1; global_pps_limit := 2; per_ip_pps_limit := 0;
            window_size_ns := 1000000000; burst_allowance := 100; action := 1 |}
         [0; 10; 20] None) !! 2%nat = Some XDP_DROP.
Proof.
  apply (proj1 (X9_global_window_admits_limit
           {| enabled := 1; global_pps_limit := 2; per_ip_pps_limit := 0;
              window_size_ns := 1000000000; burst_allowance := 100; action := 1 |}
           0 [10; 20] None
           ltac:(cbn; lia) ltac:(now left)
           ltac:(repeat constructor; unfold in_window; vm_compute; reflexivity)
           ltac:(cbn; lia))).
  cbn. lia.
Defined.

(** X10.  A frame that is not IPv4, or that is shorter than the Ethernet
    header plus the fixed IPv4 header, passes the limiter without any
    effect: no rate state and no statistics counter is written, whatever
    the licence and the configuration. *)
Theorem X10_unparsed_frames_bypass (ctx : xdp_md) (now_ns : Z) (evicted : list Z)
    (s : maps)
    (Hframe : data_end ctx < ETH_HLEN + IPHDR_SIZE \/ eth_h_proto ctx <> ETH_P_IP) :
  xdp_rate_limiter ctx now_ns evicted s = (XDP_PASS, s).
Proof.
  assert (Hparse : parse_ipv4 ctx = None).
  { unfold parse_ipv4. rewrite !Z.gtb_ltb.
    destruct (data_end ctx <? ETH_HLEN) eqn:E1; [reflexivity |].
    destruct (eth_h_proto ctx =? ETH_P_IP) eqn:E2; [| reflexivity]. cbn [negb].
    apply Z.eqb_eq in E2.
    destruct Hframe as [Hlen | Hne]; [| congruence].
    now rewrite (proj2 (Z.ltb_lt _ _) Hlen). }
  unfold xdp_rate_limiter. rewrite Hparse.
  destruct (enterprise_license_map s) as [l|]; [| reflexivity].
  destruct (l =? 0); [reflexivity |].
  destruct (rate_limit_config_map s) as [c|]; [| reflexivity].
  destruct (enabled c =? 0); reflexivity.
Qed.

Lemma X10_witness :
  xdp_rate_limiter (frame [2; 0; 0; 0; 0; 1;  2; 0; 0; 0; 0; 2;  0x86; 0xdd]) 500 []
    saturated_state
  = (XDP_PASS, saturated_state).
Proof.
  apply X10_unparsed_frames_bypass. left. vm_compute. reflexivity.
Defined.

Lemma u64_idemp a : u64 (u64 a) = u64 a.
Proof. unfold u64. apply Zmod_mod. Qed.

Lemma u64_add_r a b : u64 (a + u64 b) = u64 (a + b).
Proof. unfold u64. apply Zplus_mod_idemp_r. Qed.

Lemma u64_congr_add a b c : u64 a = u64 b -> u64 (a + c) = u64 (b + c).
Proof.
  unfold u64. intros H. rewrite (Zplus_mod a c), (Zplus_mod b c). now rewrite H.
Qed.

Lemma update_stats_consistent act gd ipd o :
  (act = XDP_DROP -> gd = negb ipd) ->
  stats_consistent o ->
  stats_consistent (update_stats act gd ipd o).
Proof.
  intros Hflags Hc st.
  assert (Hd : u64 (total_packets (default new_stats o))
               = u64 (passed_packets (default new_stats o)
                      + dropped_packets (default new_stats o))
               /\ u64 (dropped_packets (default new_stats o))
                  = u64 (global_drops (default new_stats o)
                         + per_ip_drops (default new_stats o))).
  { destruct o as [st0|]; [apply Hc; reflexivity | split; reflexivity]. }
  destruct Hd as [Ht Hd]. unfold update_stats.
  set (st0 := default new_stats o) in *.
  destruct (decide (act = XDP_DROP)) as [Hact | Hact]; intros [= <-]; cbn.
  - specialize (Hflags Hact). split.
    + rewrite u64_idemp, u64_add_r, (u64_congr_add _ _ 1 Ht). f_equal. lia.
    + rewrite u64_idemp. destruct ipd; subst gd; cbn.
      * rewrite u64_add_r, (u64_congr_add _ _ 1 Hd). f_equal. lia.
      * rewrite (Z.add_comm (u64 _)), u64_add_r, (u64_congr_add _ _ 1 Hd).
        f_equal. lia.
  - split; [| exact Hd].
    rewrite u64_idemp, (Z.add_comm (u64 _)), u64_add_r, (u64_congr_add _ _ 1 Ht).
    f_equal. lia.
Qed.

Lemma xdp_rate_limiter_stats ctx now_ns evicted s :
  rate_limit_stats_map (snd (xdp_rate_limiter ctx now_ns evicted s)) = rate_limit_stats_map s
  \/ exists gd ipd,
       (fst (xdp_rate_limiter ctx now_ns evicted s) = XDP_DROP -> gd = negb ipd)
       /\ rate_limit_stats_map (snd (xdp_rate_limiter ctx now_ns evicted s))
          = update_stats (fst (xdp_rate_limiter ctx now_ns evicted s)) gd ipd
              (rate_limit_stats_map s).
Proof.
  unfold xdp_rate_limiter.
  destruct (enterprise_license_map s) as [l|]; [| now left].
  destruct (l =? 0); [now left |].
  destruct (rate_limit_config_map s) as [c|]; [| now left].
  destruct (enabled c =? 0); [now left |].
  destruct (parse_ipv4 ctx) as [[src dst]|]; [| now left].
  right.
  destruct (global_pps_limit c >? 0).
  - destruct (check_global_rate_limit c now_ns (global_rate_state_map s)) as [a g].
    destruct (bool_decide (a = XDP_DROP)) eqn:Ha.
    + exists true, false. cbn. split; reflexivity.
    + apply bool_decide_eq_false in Ha.
      destruct (per_ip_pps_limit c >? 0).
      * destruct (check_ip_rate_limit c src now_ns evicted (ip_rate_state_map s)) as [a' m].
        exists false, (bool_decide (a' = XDP_DROP)). cbn. split; [| reflexivity].
        intros ->. reflexivity.
      * exists false, false. cbn. split; [congruence | reflexivity].
  - cbv beta iota.
    destruct (per_ip_pps_limit c >? 0).
    + destruct (check_ip_rate_limit c src now_ns evicted (ip_rate_state_map s)) as [a' m].
      exists false, (bool_decide (a' = XDP_DROP)). cbn. split; [| reflexivity].
      intros ->. reflexivity.
    + exists false, false. cbn. split; [discriminate | reflexivity].
Qed.

(** X11.  The limiter keeps its statistics consistent over any sequence of
    packets: if [total_packets = passed_packets + dropped_packets] and
    [dropped_packets = global_drops + per_ip_drops] hold (modulo 2^64)
    before, they hold after; every drop is attributed to exactly one
    cause.  They hold for an absent slot and for the zeroed one. *)
Theorem X11_statistics_stay_consistent (packets : list (xdp_md * Z * list Z)) (s : maps)
    (Hc : stats_consistent (rate_limit_stats_map s)) :
  stats_consistent (rate_limit_stats_map (snd (Trace.run_xdp_rate_limiter packets s))).
Proof.
  revert s Hc. induction packets as [| [[ctx now_ns] evicted] packets IH]; intros s Hc.
  - exact Hc.
  - cbn [Trace.run_xdp_rate_limiter].
    assert (H1 : stats_consistent
                   (rate_limit_stats_map (snd (xdp_rate_limiter ctx now_ns evicted s)))).
    { destruct (xdp_rate_limiter_stats ctx now_ns evicted s) as [-> | (gd & ipd & Hf & ->)];
        [exact Hc | now apply update_stats_consistent]. }
    destruct (xdp_rate_limiter ctx now_ns evicted s) as [v s1]. cbn [snd] in H1.
    specialize (IH s1 H1).
    destruct (Trace.run_xdp_rate_limiter packets s1) as [vs s2]. exact IH.
Qed.

Lemma X11_witness :
  stats_consistent
    (rate_limit_stats_map
       (snd (Trace.run_xdp_rate_limiter
               [(Samples.tcp_packet 8080 [], 500, [7]); (Samples.tcp_packet 8080 [], 600, [])]
               saturated_state))).
Proof.
  apply X11_statistics_stay_consistent.
  intros st [= <-]. split; reflexivity.
Defined.

(** X12.  A packet that passes the global check and is then dropped by the
    per-source check has still been counted in the global window: the
    global state is the one left by [check_global_rate_limit], the verdict
    is [XDP_DROP], and the drop is counted in [per_ip_drops] and not in
    [global_drops]. *)
Theorem X12_per_source_drop_uses_global_budget
    (ctx : xdp_md) (now_ns : Z) (evicted : list Z) (s : maps)
    (license : Z) (config : rate_limit_config) (src_ip dst_ip : Z)
    (Hlicense : enterprise_license_map s = Some license)
    (Hlicensed : license <> 0)
    (Hconfig : rate_limit_config_map s = Some config)
    (Henabled : enabled config <> 0)
    (Hparse : parse_ipv4 ctx = Some (src_ip, dst_ip))
    (Hglobal : 0 < global_pps_limit config)
    (Hpass : fst (check_global_rate_limit config now_ns (global_rate_state_map s))
             <> XDP_DROP)
    (Hsource : 0 < per_ip_pps_limit config)
    (Hreject : fst (check_ip_rate_limit config src_ip now_ns evicted (ip_rate_state_map s))
               = XDP_DROP) :
  let r := xdp_rate_limiter ctx now_ns evicted s in
  let stats := default new_stats (rate_limit_stats_map s) in
  fst r = XDP_DROP
  /\ global_rate_state_map (snd r)
     = snd (check_global_rate_limit config now_ns (global_rate_state_map s))
  /\ ip_rate_state_map (snd r)
     = snd (check_ip_rate_limit config src_ip now_ns evicted (ip_rate_state_map s))
  /\ exists stats',
       rate_limit_stats_map (snd r) = Some stats'
       /\ per_ip_drops stats' = u64 (per_ip_drops stats + 1)
       /\ global_drops stats' = global_drops stats
       /\ dropped_packets stats' = u64 (dropped_packets stats + 1).
Proof.
  intros r stats. subst r. unfold xdp_rate_limiter.
  rewrite Hlicense, (proj2 (Z.eqb_neq _ _) Hlicensed), Hconfig,
    (proj2 (Z.eqb_neq _ _) Henabled), Hparse.
  rewrite !Z.gtb_ltb, (proj2 (Z.ltb_lt _ _) Hglobal), (proj2 (Z.ltb_lt _ _) Hsource).
  destruct (check_global_rate_limit config now_ns (global_rate_state_map s)) as [a g].
  cbn [fst snd] in *. rewrite bool_decide_eq_false_2 by exact Hpass.
  destruct (check_ip_rate_limit config src_ip now_ns evicted (ip_rate_state_map s)) as [a' m].
  cbn [fst snd] in *. subst a'. cbn.
  split; [reflexivity |]. split; [reflexivity |]. split; [reflexivity |].
  unfold update_stats. fold stats. rewrite decide_True by reflexivity.
  eexists. split; [reflexivity |]. cbn. tauto.
Qed.

Lemma X12_witness :
  fst (xdp_rate_limiter (Samples.tcp_packet 8080 []) 500 [] exhausted_source_state)
  = XDP_DROP.
Proof.
  apply (X12_per_source_drop_uses_global_budget
           (Samples.tcp_packet 8080 []) 500 [] exhausted_source_state 1
           {| enabled := 1; global_pps_limit := 1000; per_ip_pps_limit := 1;
              window_size_ns := 1000000000; burst_allowance := 0; action := 1 |}
           Samples.ip_10_0_0_1 Samples.ip_10_0_0_5
           eq_refl ltac:(discriminate) eq_refl ltac:(discriminate) eq_refl
           ltac:(reflexivity) ltac:(discriminate) ltac:(reflexivity) eq_refl).
Defined.

(** X13.  A limit of 0 disables its scope: with [global_pps_limit == 0] the
    global state is never written, with [per_ip_pps_limit == 0] the
    per-source table is never written, and with both 0 every packet
    passes. *)
Theorem X13_zero_limit_disables_scope
    (ctx : xdp_md) (now_ns : Z) (evicted : list Z) (s : maps)
    (config : rate_limit_config)
    (Hconfig : rate_limit_config_map s = Some config) :
  (global_pps_limit config = 0 ->
   global_rate_state_map (snd (xdp_rate_limiter ctx now_ns evicted s)) = global_rate_state_map s)
  /\ (per_ip_pps_limit config = 0 ->
      ip_rate_state_map (snd (xdp_rate_limiter ctx now_ns evicted s)) = ip_rate_state_map s)
  /\ (global_pps_limit config = 0 -> per_ip_pps_limit config = 0 ->
      fst (xdp_rate_limiter ctx now_ns evicted s) = XDP_PASS).
Proof.
  unfold xdp_rate_limiter. rewrite Hconfig.
  destruct (enterprise_license_map s) as [l|]; [| repeat split; reflexivity].
  destruct (l =? 0); [repeat split; reflexivity |].
  destruct (enabled config =? 0); [repeat split; reflexivity |].
  destruct (parse_ipv4 ctx) as [[src dst]|]; [| repeat split; reflexivity].
  split; [| split].
  - intros ->. cbn [Z.gtb Z.compare]. cbv beta iota.
    destruct (per_ip_pps_limit config >? 0); [| reflexivity].
    destruct (check_ip_rate_limit config src now_ns evicted (ip_rate_state_map s)); reflexivity.
  - intros ->. cbn [Z.gtb Z.compare].
    destruct (global_pps_limit config >? 0); [| reflexivity].
    destruct (check_global_rate_limit config now_ns (global_rate_state_map s)) as [a g].
    destruct (bool_decide (a = XDP_DROP)); reflexivity.
  - intros -> ->. reflexivity.
Qed.

Lemma X13_witness :
  fst (xdp_rate_limiter (Samples.tcp_packet 8080 []) 500 [] unlimited_state) = XDP_PASS.
Proof.
  apply (proj2 (proj2 (X13_zero_limit_disables_scope
                         (Samples.tcp_packet 8080 []) 500 [] unlimited_state
                         {| enabled := 1; global_pps_limit := 0; per_ip_pps_limit := 0;
                            window_size_ns := 1; burst_allowance := 0; action := 1 |}
                         eq_refl))); reflexivity.
Defined.

(** X14.  The [action] field of the configuration is never consulted:
    changing it changes neither the verdict nor any rate state or
    statistics counter, so an exceeded limit always means [XDP_DROP]. *)
Theorem X14_configured_action_ignored
    (ctx : xdp_md) (now_ns : Z) (evicted : list Z) (s : maps)
    (config : rate_limit_config) (a : Z)
    (Hconfig : rate_limit_config_map s = Some config) :
  xdp_rate_limiter ctx now_ns evicted (with_config (Some (with_action a config)) s)
  = (fst (xdp_rate_limiter ctx now_ns evicted s),
     with_config (Some (with_action a config)) (snd (xdp_rate_limiter ctx now_ns evicted s))).
Proof.
  assert (Hg : forall g, check_global_rate_limit (with_action a config) now_ns g
                         = check_global_rate_limit config now_ns g) by reflexivity.
  assert (Hi : forall src m, check_ip_rate_limit (with_action a config) src now_ns evicted m
                             = check_ip_rate_limit config src now_ns evicted m) by reflexivity.
  unfold xdp_rate_limiter. rewrite Hconfig.
  cbn [with_config rate_limit_config_map enterprise_license_map ip_rate_state_map
       global_rate_state_map rate_limit_stats_map with_action enabled
       global_pps_limit per_ip_pps_limit].
  destruct (enterprise_license_map s) as [l|]; [| reflexivity].
  destruct (l =? 0); [reflexivity |].
  destruct (enabled config =? 0); [reflexivity |].
  destruct (parse_ipv4 ctx) as [[src dst]|]; [| reflexivity].
  fold (with_action a config). rewrite Hg, Hi.
  destruct (global_pps_limit config >? 0).
  - destruct (check_global_rate_limit config now_ns (global_rate_state_map s)) as [x g].
    destruct (bool_decide (x = XDP_DROP)); [reflexivity |].
    destruct (per_ip_pps_limit config >? 0); [| reflexivity].
    destruct (check_ip_rate_limit config src now_ns evicted (ip_rate_state_map s)); reflexivity.
  - cbv beta iota.
    destruct (per_ip_pps_limit config >? 0); [| reflexivity].
    destruct (check_ip_rate_limit config src now_ns evicted (ip_rate_state_map s)); reflexivity.
Qed.

Lemma X14_witness :
  fst (xdp_rate_limiter (Samples.tcp_packet 8080 []) 500 []
         (with_config (Some (with_action 0 sample_config))
            (with_config (Some sample_config) saturated_state)))
  = fst (xdp_rate_limiter (Samples.tcp_packet 8080 []) 500 []
           (with_config (Some sample_config) saturated_state)).
Proof.
  rewrite (X14_configured_action_ignored (Samples.tcp_packet 8080 []) 500 []
             (with_config (Some sample_config) saturated_state) sample_config 0 eq_refl).
  reflexivity.
Defined.

End LimiterAccounting.

(* --------------------------------------------------------------------- *)
(** *** marchproxy.c: mapping lookup and the TC programs *)
(* --------------------------------------------------------------------- *)

Section TcFilter.
Import Mach Packet Marchproxy MarchproxySpec.

Lemma port_matched_from m dst_port fuel :
  forall i0,
    0 <= i0 -> MAX_PORTS <= i0 + Z.of_nat fuel ->
    (port_matched m dst_port fuel i0 = true
     <-> exists i, i0 <= i < port_count m /\ i < MAX_PORTS
                   /\ default 0 (ports m !! Z.to_nat i) = dst_port).
Proof.
  induction fuel as [| fuel IH]; intros i0 Hi0 Hfuel.
  - cbn [port_matched]. split; [discriminate | intros (i & ? & ? & _); lia].
  - cbn [port_matched].
    destruct ((i0 <? port_count m) && (i0 <? MAX_PORTS)) eqn:Hc.
    + apply andb_true_iff in Hc. destruct Hc as [H1 H2].
      apply Z.ltb_lt in H1, H2.
      destruct (default 0 (ports m !! Z.to_nat i0) =? dst_port) eqn:Hp.
      * apply Z.eqb_eq in Hp. split; [intros _ | reflexivity].
        exists i0. repeat split; try lia; assumption.
      * apply Z.eqb_neq in Hp. rewrite (IH (i0 + 1)) by lia. split.
        -- intros (i & Hi & Hm & Hv). exists i. repeat split; try lia; assumption.
        -- intros (i & Hi & Hm & Hv). exists i.
           assert (i <> i0) by (intros ->; contradiction).
           repeat split; try lia; assumption.
    + split; [discriminate |]. intros (i & Hi & Hm & _).
      apply andb_false_iff in Hc. destruct Hc as [H | H]; apply Z.ltb_ge in H; lia.
Qed.

Lemma mapping_step m dst_port protocol :
  (Z.land (protocols m) (proto_mask protocol) =? 0) = false
  /\ port_matched m dst_port (Z.to_nat MAX_PORTS) 0 = true
  <-> mapping_admits m dst_port protocol.
Proof.
  unfold mapping_admits.
  rewrite (port_matched_from m dst_port (Z.to_nat MAX_PORTS) 0)
    by (vm_compute; discriminate).
  rewrite Z.eqb_neq. reflexivity.
Qed.

Lemma find_mapping_from_spec mm dst_port protocol fuel :
  forall id0,
    1 <= id0 -> MAX_MAPPINGS + 1 <= id0 + Z.of_nat fuel ->
    match find_mapping_from mm dst_port protocol fuel id0 with
    | Some m =>
        exists id, id0 <= id <= MAX_MAPPINGS /\ mm !! id = Some m
                   /\ mapping_admits m dst_port protocol
                   /\ forall id' m', id0 <= id' < id -> mm !! id' = Some m' ->
                                     ~ mapping_admits m' dst_port protocol
    | None =>
        forall id' m', id0 <= id' <= MAX_MAPPINGS -> mm !! id' = Some m' ->
                       ~ mapping_admits m' dst_port protocol
    end.
Proof.
  induction fuel as [| fuel IH]; intros id0 Hid0 Hfuel.
  - cbn [find_mapping_from]. intros id' m' Hid'. lia.
  - cbn [find_mapping_from].
    destruct (id0 <=? MAX_MAPPINGS) eqn:Hle;
      [apply Z.leb_le in Hle | apply Z.leb_gt in Hle; intros id' m' Hid'; lia].
    assert (Hrec := IH (id0 + 1) ltac:(lia) ltac:(lia)).
    assert (Hskip :
      (forall m, mm !! id0 = Some m -> ~ mapping_admits m dst_port protocol) ->
      match find_mapping_from mm dst_port protocol fuel (id0 + 1) with
      | Some m =>
          exists id, id0 <= id <= MAX_MAPPINGS /\ mm !! id = Some m
                     /\ mapping_admits m dst_port protocol
                     /\ forall id' m', id0 <= id' < id -> mm !! id' = Some m' ->
                                       ~ mapping_admits m' dst_port protocol
      | None =>
          forall id' m', id0 <= id' <= MAX_MAPPINGS -> mm !! id' = Some m' ->
                         ~ mapping_admits m' dst_port protocol
      end).
    { intros Hno.
      destruct (find_mapping_from mm dst_port protocol fuel (id0 + 1)) as [m|].
      - destruct Hrec as (id & Hr & Hlk & Hm & Hfirst).
        exists id. split; [lia |]. split; [assumption |]. split; [assumption |].
        intros id' m' Hid' Hl'.
        destruct (Z.eq_dec id' id0) as [-> | Hne]; [now apply Hno |].
        apply (Hfirst id' m'); [lia | assumption].
      - intros id' m' Hid' Hl'.
        destruct (Z.eq_dec id' id0) as [-> | Hne]; [now apply Hno |].
        apply (Hrec id' m'); [lia | assumption]. }
    destruct (mm !! id0) as [m0|] eqn:Hm0; [| apply Hskip; intros m [=]].
    fold (proto_mask protocol).
    destruct (Z.land (protocols m0) (proto_mask protocol) =? 0) eqn:Hmask.
    + apply Hskip. intros m [= <-] Hadm.
      apply mapping_step in Hadm. destruct Hadm as [Hc _]. congruence.
    + destruct (port_matched m0 dst_port (Z.to_nat MAX_PORTS) 0) eqn:Hport.
      * exists id0. split; [lia |]. split; [assumption |].
        split; [apply mapping_step; split; assumption |].
        intros id' m' Hid'. lia.
      * apply Hskip. intros m [= <-] Hadm.
        apply mapping_step in Hadm. destruct Hadm as [_ Hc]. congruence.
Qed.

(** X15.  [find_mapping] returns the mapping under the smallest id from 1
    to [MAX_MAPPINGS] whose protocol mask holds the packet's protocol bit
    and whose first [min(port_count, MAX_PORTS)] ports include the
    destination port, and nothing when no id of that range holds such a
    mapping.  The destination address and the mappings' [priority] play no
    part. *)
Theorem X15_find_mapping_first_admitting
    (mm : gmap Z mapping) (dst_ip dst_port protocol : Z) :
  match find_mapping mm dst_ip dst_port protocol with
  | Some m =>
      exists id, 1 <= id <= MAX_MAPPINGS /\ mm !! id = Some m
                 /\ mapping_admits m dst_port protocol
                 /\ forall id' m', 1 <= id' < id -> mm !! id' = Some m' ->
                                   ~ mapping_admits m' dst_port protocol
  | None =>
      forall id m, 1 <= id <= MAX_MAPPINGS -> mm !! id = Some m ->
                   ~ mapping_admits m dst_port protocol
  end.
Proof.
  unfold find_mapping.
  apply find_mapping_from_spec; [lia | vm_compute; discriminate].
Qed.

(** No mapping admits a packet whose protocol is none of TCP, UDP and
    ICMP. *)
Lemma find_mapping_other_protocol mm dst_ip dst_port protocol :
  protocol <> IPPROTO_TCP -> protocol <> IPPROTO_UDP -> protocol <> IPPROTO_ICMP ->
  find_mapping mm dst_ip dst_port protocol = None.
Proof.
  intros H6 H17 H1.
  pose proof (find_mapping_from_spec mm dst_port protocol (Z.to_nat MAX_MAPPINGS) 1
                ltac:(lia) ltac:(vm_compute; discriminate)) as Hf.
  unfold find_mapping.
  destruct (find_mapping_from mm dst_port protocol (Z.to_nat MAX_MAPPINGS) 1) as [m|];
    [| reflexivity].
  destruct Hf as (id & _ & _ & [Hmask _] & _). exfalso. apply Hmask.
  unfold proto_mask.
  rewrite (proj2 (Z.eqb_neq _ _) H6), (proj2 (Z.eqb_neq _ _) H17),
    (proj2 (Z.eqb_neq _ _) H1).
  apply Z.land_0_r.
Qed.

Lemma update_stats_step nbytes protocol act o :
  stats_step
    (fun st st' =>
       counts_packet nbytes protocol st st'
       /\ dropped_packets st'
          = (if act =? 0 then u64 (dropped_packets st + 1) else dropped_packets st)
       /\ forwarded_packets st'
          = (if act =? 1 then u64 (forwarded_packets st + 1) else forwarded_packets st)
       /\ fallback_to_userspace st'
          = (if act =? 2 then u64 (fallback_to_userspace st + 1)
             else fallback_to_userspace st))
    o (update_stats nbytes protocol act o).
Proof.
  destruct o as [st|]; [| reflexivity]. cbn [stats_step update_stats].
  eexists. split; [reflexivity |]. unfold counts_packet. cbn.
  destruct (Z.eqb_spec protocol IPPROTO_TCP); destruct (Z.eqb_spec protocol IPPROTO_UDP);
    destruct (Z.eqb_spec protocol IPPROTO_ICMP);
    try (exfalso; unfold IPPROTO_TCP, IPPROTO_UDP, IPPROTO_ICMP in *; congruence);
    cbn; repeat split; reflexivity.
Qed.

(** X16.  The ingress program drops every well-formed IPv4 packet whose
    protocol is none of TCP, UDP and ICMP: no mapping can admit it.  The
    verdict is [TC_ACT_SHOT] and no table changes.  When the statistics
    slot exists the packet is counted as dropped: [total_packets] and
    [dropped_packets] grow by one and [total_bytes] by [skb->len] (modulo
    2^64), and every other counter stays as it was; an absent slot stays
    absent. *)
Theorem X16_other_protocols_shot
    (skb : xdp_md) (skb_len now : Z) (s : maps)
    (Heth : ETH_HLEN <= data_end skb)
    (Hip4 : eth_h_proto skb = ETH_P_IP)
    (Hlen : ETH_HLEN + IPHDR_SIZE <= data_end skb)
    (Hversion : ip_version skb ETH_HLEN = 4)
    (Hihl : 5 <= ip_ihl skb ETH_HLEN)
    (Htcp : ip_protocol skb ETH_HLEN <> IPPROTO_TCP)
    (Hudp : ip_protocol skb ETH_HLEN <> IPPROTO_UDP)
    (Hicmp : ip_protocol skb ETH_HLEN <> IPPROTO_ICMP) :
  let r := marchproxy_ingress skb skb_len now s in
  fst r = TC_ACT_SHOT
  /\ services_map (snd r) = services_map s
  /\ mappings_map (snd r) = mappings_map s
  /\ connections_map (snd r) = connections_map s
  /\ stats_step
       (fun st st' =>
          total_packets st' = u64 (total_packets st + 1)
          /\ total_bytes st' = u64 (total_bytes st + skb_len)
          /\ dropped_packets st' = u64 (dropped_packets st + 1)
          /\ tcp_packets st' = tcp_packets st
          /\ udp_packets st' = udp_packets st
          /\ icmp_packets st' = icmp_packets st
          /\ forwarded_packets st' = forwarded_packets st
          /\ auth_required st' = auth_required st
          /\ fallback_to_userspace st' = fallback_to_userspace st)
       (stats_map s) (stats_map (snd r)).
Proof.
  intros r. subst r.
  unfold marchproxy_ingress, parse_eth_hdr, parse_ip_hdr. cbv zeta.
  rewrite !Z.gtb_ltb.
  rewrite (proj2 (Z.ltb_ge _ _) Heth). cbv beta iota.
  rewrite Hip4, Z.eqb_refl. cbn [negb]. cbv beta iota. rewrite ?Z.gtb_ltb.
  rewrite (proj2 (Z.ltb_ge _ _) Hlen), Hversion. cbn [Z.eqb Pos.eqb negb].
  rewrite (proj2 (Z.ltb_ge _ _) Hihl). cbv beta iota.
  rewrite (proj2 (Z.eqb_neq _ _) Htcp), (proj2 (Z.eqb_neq _ _) Hudp). cbv beta iota.
  rewrite (find_mapping_other_protocol _ _ _ _ Htcp Hudp Hicmp).
  cbn [fst snd with_stats services_map mappings_map connections_map stats_map].
  do 4 (split; [reflexivity |]).
  pose proof (update_stats_step skb_len (ip_protocol skb ETH_HLEN) 0 (stats_map s)) as Hst.
  unfold stats_step in *. destruct (stats_map s) as [st|]; [| exact Hst].
  destruct Hst as (st' & -> & (Ht & Hb & H6 & H17 & H1 & Ha) & Hd & Hf & Hu).
  exists st'. split; [reflexivity |].
  rewrite (proj2 (Z.eqb_neq _ _) Htcp) in H6.
  rewrite (proj2 (Z.eqb_neq _ _) Hudp) in H17.
  rewrite (proj2 (Z.eqb_neq _ _) Hicmp) in H1.
  cbn in Hd, Hf, Hu. tauto.
Qed.

Lemma X16_witness :
  fst (marchproxy_ingress gre_frame 42 5 Samples.marchproxy_state) = TC_ACT_SHOT.
Proof.
  apply (X16_other_protocols_shot gre_frame 42 5 Samples.marchproxy_state);
    first [reflexivity | vm_compute; discriminate].
Defined.

(** X17.  The ingress program hands every frame it cannot parse to the
    stack untouched: a frame shorter than the Ethernet header, a frame that
    is not IPv4, an IPv4 header that is truncated, is not version 4 or has
    [ihl < 5], and a truncated TCP or UDP header all get [TC_ACT_OK], and no
    map and no counter is written. *)
Theorem X17_unparsed_frames_passed_uncounted
    (skb : xdp_md) (skb_len now : Z) (s : maps)
    (Hcase :
       data_end skb < ETH_HLEN
       \/ eth_h_proto skb <> ETH_P_IP
       \/ data_end skb < ETH_HLEN + IPHDR_SIZE
       \/ ip_version skb ETH_HLEN <> 4
       \/ ip_ihl skb ETH_HLEN < 5
       \/ (ip_protocol skb ETH_HLEN = IPPROTO_TCP
           /\ data_end skb < ETH_HLEN + ip_ihl skb ETH_HLEN * 4 + TCPHDR_SIZE)
       \/ (ip_protocol skb ETH_HLEN = IPPROTO_UDP
           /\ data_end skb < ETH_HLEN + ip_ihl skb ETH_HLEN * 4 + UDPHDR_SIZE)) :
  marchproxy_ingress skb skb_len now s = (TC_ACT_OK, s).
Proof.
  unfold marchproxy_ingress, parse_eth_hdr, parse_ip_hdr. cbv zeta.
  rewrite Z.gtb_ltb.
  destruct (data_end skb <? ETH_HLEN) eqn:E1; [reflexivity |]. apply Z.ltb_ge in E1.
  cbv beta iota.
  destruct (eth_h_proto skb =? ETH_P_IP) eqn:E2; [| reflexivity]. apply Z.eqb_eq in E2.
  cbn [negb]. cbv beta iota. rewrite ?Z.gtb_ltb.
  destruct (data_end skb <? ETH_HLEN + IPHDR_SIZE) eqn:E3; [reflexivity |].
  apply Z.ltb_ge in E3.
  destruct (ip_version skb ETH_HLEN =? 4) eqn:E4; [| reflexivity]. apply Z.eqb_eq in E4.
  cbn [negb].
  destruct (ip_ihl skb ETH_HLEN <? 5) eqn:E5; [reflexivity |]. apply Z.ltb_ge in E5.
  cbv beta iota.
  destruct Hcase as [H | [H | [H | [H | [H | [[Hp H] | [Hp H]]]]]]]; try lia;
    try congruence.
  - rewrite Hp. change (IPPROTO_TCP =? IPPROTO_TCP) with true. cbv beta iota.
    rewrite Z.gtb_ltb. now rewrite (proj2 (Z.ltb_lt _ _) H).
  - rewrite Hp. change (IPPROTO_UDP =? IPPROTO_TCP) with false.
    change (IPPROTO_UDP =? IPPROTO_UDP) with true. cbv beta iota.
    rewrite Z.gtb_ltb. now rewrite (proj2 (Z.ltb_lt _ _) H).
Qed.

Lemma X17_witness :
  marchproxy_ingress Samples.truncated_tcp_frame 38 5 Samples.marchproxy_state
  = (TC_ACT_OK, Samples.marchproxy_state).
Proof.
  apply X17_unparsed_frames_passed_uncounted.
  do 5 right. left. split; vm_compute; reflexivity.
Defined.

(** The IPv4 header test of [parse_ip_hdr]. *)
Lemma parse_ip_hdr_some skb offset :
  is_Some (parse_ip_hdr skb offset)
  <-> offset + IPHDR_SIZE <= data_end skb
      /\ ip_version skb offset = 4 /\ 5 <= ip_ihl skb offset.
Proof.
  unfold parse_ip_hdr. cbv zeta. rewrite Z.gtb_ltb.
  destruct (data_end skb <? offset + IPHDR_SIZE) eqn:E1;
    [apply Z.ltb_lt in E1 | apply Z.ltb_ge in E1].
  { split; [intros [? [=]] | intros [? _]; lia]. }
  destruct (ip_version skb offset =? 4) eqn:E2;
    [apply Z.eqb_eq in E2 | apply Z.eqb_neq in E2]; cbn [negb].
  2: { split; [intros [? [=]] | tauto]. }
  destruct (ip_ihl skb offset <? 5) eqn:E3;
    [apply Z.ltb_lt in E3 | apply Z.ltb_ge in E3].
  { split; [intros [? [=]] | intros (_ & _ & ?); lia]. }
  split; [intros _; tauto | intros _; eexists; reflexivity].
Qed.

Lemma parse_ip_hdr_value skb offset len :
  parse_ip_hdr skb offset = Some len -> len = ip_ihl skb offset * 4.
Proof.
  unfold parse_ip_hdr. cbv zeta.
  destruct (offset + IPHDR_SIZE >? data_end skb); [discriminate |].
  destruct (negb (ip_version skb offset =? 4)); [discriminate |].
  destruct (ip_ihl skb offset <? 5); [discriminate |]. congruence.
Qed.

(** The port reading of [marchproxy_ingress] against [transport_ports]. *)
Lemma ingress_ports skb :
  let off := ETH_HLEN + ip_ihl skb ETH_HLEN * 4 in
  let protocol := ip_protocol skb ETH_HLEN in
  match (if protocol =? IPPROTO_TCP then
           if off + TCPHDR_SIZE >? data_end skb then None
           else Some (tcp_source skb off, tcp_dest skb off)
         else if protocol =? IPPROTO_UDP then
           if off + UDPHDR_SIZE >? data_end skb then None
           else Some (udp_source skb off, udp_dest skb off)
         else Some (0, 0)) with
  | Some (sp, dp) =>
      transport_ports skb sp dp
      /\ forall sp' dp', transport_ports skb sp' dp' -> sp' = sp /\ dp' = dp
  | None => forall sp dp, ~ transport_ports skb sp dp
  end.
Proof.
  intros off protocol. unfold transport_ports. fold off protocol.
  rewrite !Z.gtb_ltb.
  destruct (protocol =? IPPROTO_TCP) eqn:E6;
    [apply Z.eqb_eq in E6 | apply Z.eqb_neq in E6].
  - assert (protocol <> IPPROTO_UDP) by (rewrite E6; discriminate).
    destruct (data_end skb <? off + TCPHDR_SIZE) eqn:El;
      [apply Z.ltb_lt in El | apply Z.ltb_ge in El].
    + intros sp dp [(_ & ? & _) | [(? & _) | (? & _)]]; [lia | congruence | congruence].
    + split; [left; tauto |].
      intros sp' dp' [(_ & _ & ? & ?) | [(? & _) | (? & _)]];
        [tauto | congruence | congruence].
  - destruct (protocol =? IPPROTO_UDP) eqn:E17;
      [apply Z.eqb_eq in E17 | apply Z.eqb_neq in E17].
    + destruct (data_end skb <? off + UDPHDR_SIZE) eqn:El;
        [apply Z.ltb_lt in El | apply Z.ltb_ge in El].
      * intros sp dp [(? & _) | [(_ & ? & _) | (_ & ? & _)]];
          [congruence | lia | congruence].
      * split; [right; left; tauto |].
        intros sp' dp' [(? & _) | [(_ & _ & ? & ?) | (_ & ? & _)]];
          [congruence | tauto | congruence].
    + split; [right; right; tauto |].
      intros sp' dp' [(? & _) | [(? & _) | (_ & _ & ? & ?)]];
        [congruence | congruence | tauto].
Qed.

(** X18.  The ingress program never writes the service and mapping tables,
    and it writes the connection table only for a packet it forwards: one
    that parses, that a mapping admits, whose destination service exists,
    and for which neither the mapping nor the service requires
    authentication.  Such a packet gets [TC_ACT_OK] and is counted as
    forwarded: [forwarded_packets], [total_packets] and the counter of its
    protocol grow by one, [total_bytes] by [skb->len], and
    [dropped_packets] and [fallback_to_userspace] stay.  The entry of its
    full 5-tuple is advanced when it exists (one more packet, [skb->len]
    more bytes, the new timestamp; service and authentication mark kept).
    Otherwise a new entry is inserted, with one packet, the service's id
    and [authenticated = 0] -- unless the table already holds its 65536
    entries: then nothing is inserted and the packet is counted as
    forwarded all the same.  Every other packet leaves the connection
    table as it was. *)
Theorem X18_only_forwarded_packets_tracked
    (skb : xdp_md) (skb_len now : Z) (s : maps) :
  let r := marchproxy_ingress skb skb_len now s in
  let protocol := ip_protocol skb ETH_HLEN in
  let key src_port dst_port : connection_key :=
    (ip_saddr skb ETH_HLEN, ip_daddr skb ETH_HLEN, src_port, dst_port, protocol) in
  services_map (snd r) = services_map s
  /\ mappings_map (snd r) = mappings_map s
  /\ (forall src_port dst_port m svc,
        forwards skb s src_port dst_port m svc ->
        fst r = TC_ACT_OK
        /\ connections_map (snd r)
           = match connections_map s !! key src_port dst_port with
             | Some c =>
                 <[key src_port dst_port :=
                     {| packets := u64 (packets c + 1);
                        bytes := u64 (bytes c + skb_len);
                        timestamp := now;
                        cv_service_id := cv_service_id c;
                        authenticated := authenticated c |}]> (connections_map s)
             | None =>
                 if CONNECTIONS_ENTRIES <=? Z.of_nat (size (connections_map s))
                 then connections_map s
                 else <[key src_port dst_port :=
                          {| packets := 1; bytes := skb_len; timestamp := now;
                             cv_service_id := svc_id svc; authenticated := 0 |}]>
                        (connections_map s)
             end
        /\ stats_step
             (fun st st' =>
                counts_packet skb_len protocol st st'
                /\ forwarded_packets st' = u64 (forwarded_packets st + 1)
                /\ dropped_packets st' = dropped_packets st
                /\ fallback_to_userspace st' = fallback_to_userspace st)
             (stats_map s) (stats_map (snd r)))
  /\ ((forall src_port dst_port m svc, ~ forwards skb s src_port dst_port m svc) ->
      connections_map (snd r) = connections_map s).
Proof.
  intros r protocol key. subst r.
  pose proof (parse_ip_hdr_some skb ETH_HLEN) as Hip.
  pose proof (parse_ip_hdr_value skb ETH_HLEN) as Hval.
  pose proof (ingress_ports skb) as Hports. cbv zeta in Hports.
  unfold marchproxy_ingress, parse_eth_hdr. cbv zeta. rewrite Z.gtb_ltb.
  destruct (data_end skb <? ETH_HLEN) eqn:E1;
    [apply Z.ltb_lt in E1 | apply Z.ltb_ge in E1]; cbv beta iota.
  { do 2 (split; [reflexivity |]). split; [| reflexivity].
    intros sp dp m svc ((? & _) & _). unfold IPHDR_SIZE in *. lia. }
  destruct (eth_h_proto skb =? ETH_P_IP) eqn:E2;
    [apply Z.eqb_eq in E2 | apply Z.eqb_neq in E2]; cbn [negb]; cbv beta iota.
  2: { do 2 (split; [reflexivity |]). split; [| reflexivity].
       intros sp dp m svc ((_ & ? & _) & _). congruence. }
  destruct (parse_ip_hdr skb ETH_HLEN) as [ip_hdr_len|].
  2: { do 2 (split; [reflexivity |]). split; [| reflexivity].
       intros sp dp m svc ((H1 & _ & H2 & H3) & _).
       destruct (proj2 Hip (conj H1 (conj H2 H3))) as [? [=]]. }
  rewrite (Hval ip_hdr_len eq_refl).
  destruct (proj1 Hip ltac:(eexists; reflexivity)) as (Hp1 & Hp2 & Hp3).
  assert (Hparsed : parsed_ipv4 skb) by (unfold parsed_ipv4; tauto).
  match type of Hports with
  | match ?p with _ => _ end => destruct p as [[sp dp]|]
  end.
  2: { do 2 (split; [reflexivity |]). split; [| reflexivity].
       intros sp dp m svc (_ & Htp & _). now apply Hports in Htp. }
  destruct Hports as [Htp Huniq].
  destruct (find_mapping (mappings_map s) (ip_daddr skb ETH_HLEN) dp
              (ip_protocol skb ETH_HLEN)) as [m|] eqn:Hmap.
  2: { do 2 (split; [reflexivity |]). split; [| reflexivity].
       intros sp' dp' m' svc' (_ & Htp' & Hm' & _).
       destruct (Huniq _ _ Htp') as [-> ->]. congruence. }
  destruct (find_dest_service (services_map s) (Some m)) as [svc|] eqn:Hsvc.
  2: { do 2 (split; [reflexivity |]). split; [| reflexivity].
       intros sp' dp' m' svc' (_ & Htp' & Hm' & Hs' & _).
       destruct (Huniq _ _ Htp') as [-> ->].
       rewrite Hmap in Hm'. injection Hm' as <-. congruence. }
  destruct (nonzero (map_auth_required m) || nonzero (svc_auth_required svc)) eqn:Hauth.
  { do 2 (split; [reflexivity |]). split; [| reflexivity].
    intros sp' dp' m' svc' (_ & Htp' & Hm' & Hs' & Ha1 & Ha2).
    destruct (Huniq _ _ Htp') as [-> ->].
    rewrite Hmap in Hm'. injection Hm' as <-.
    rewrite Hsvc in Hs'. injection Hs' as <-.
    unfold nonzero in Hauth. rewrite Ha1, Ha2 in Hauth. discriminate. }
  apply orb_false_iff in Hauth. destruct Hauth as [Ha1 Ha2].
  unfold nonzero in Ha1, Ha2. apply negb_false_iff, Z.eqb_eq in Ha1, Ha2.
  cbn [fst snd services_map mappings_map connections_map stats_map].
  do 2 (split; [reflexivity |]). split.
  - intros sp' dp' m' svc' (_ & Htp' & Hm' & Hs' & _).
    destruct (Huniq _ _ Htp') as [-> ->].
    rewrite Hmap in Hm'. injection Hm' as <-.
    rewrite Hsvc in Hs'. injection Hs' as <-.
    split; [reflexivity |]. split.
    + subst key protocol. cbv beta.
      match goal with
      | |- _ = match ?x with _ => _ end => destruct x as [c|] eqn:Hc
      end.
      * match goal with
        | |- match ?x with _ => _ end = _ => replace x with (Some c) by (symmetry; exact Hc)
        end.
        reflexivity.
      * match goal with
        | |- match ?x with _ => _ end = _ =>
            replace x with (@None connection_value) by (symmetry; exact Hc)
        end.
        unfold BpfMap.hash_update, BpfMap.full.
        match goal with
        | |- match ?x with _ => _ end = _ =>
            replace x with (@None connection_value) by (symmetry; exact Hc)
        end.
        reflexivity.
    + pose proof (update_stats_step skb_len (ip_protocol skb ETH_HLEN) 1 (stats_map s))
        as Hst.
      unfold stats_step in *. destruct (stats_map s) as [st|]; [| exact Hst].
      destruct Hst as (st' & -> & Hcnt & Hd & Hf & Hu).
      exists st'. split; [reflexivity |]. cbn in Hd, Hf, Hu. tauto.
  - intros Hnone. exfalso. apply (Hnone sp dp m svc).
    unfold forwards. tauto.
Qed.

Lemma X18_witness :
  fst (marchproxy_ingress (Samples.tcp_packet 8080 []) 54 5 forwarding_state) = TC_ACT_OK
  /\ connections_map
       (snd (marchproxy_ingress (Samples.tcp_packet 8080 []) 54 5 forwarding_state))
     = {[ (Samples.ip_10_0_0_1, Samples.ip_10_0_0_5, 40000, 8080, IPPROTO_TCP) :=
            {| packets := 1; bytes := 54; timestamp := 5;
               cv_service_id := 7; authenticated := 0 |} ]}.
Proof.
  destruct (X18_only_forwarded_packets_tracked
              (Samples.tcp_packet 8080 []) 54 5 forwarding_state)
    as (_ & _ & Hfwd & _).
  destruct (Hfwd 40000 8080
              {| map_id := 1; source_services := []; dest_services := [7];
                 ports := [8080]; protocols := 1; map_auth_required := 0;
                 priority := 0; port_count := 1; src_count := 0; dest_count := 1 |}
              {| svc_id := 7; svc_ip_addr := Samples.ip_10_0_0_5; svc_port := 8080;
                 svc_auth_required := 0; svc_auth_type := 0; svc_flags := 0 |})
    as (Hv & Hc & _).
  - split; [repeat split; vm_compute; congruence |].
    split; [left; repeat split; vm_compute; congruence |].
    repeat split; reflexivity.
  - split; [exact Hv |]. rewrite Hc. reflexivity.
Defined.

(** X19.  The egress program never drops and never writes the tables; it
    counts a frame exactly when the frame is IPv4 with a complete fixed
    header of version 4 and [ihl >= 5], and then as forwarded:
    [forwarded_packets], [total_packets] and the counter of its protocol
    grow by one, [total_bytes] by [skb->len], and [dropped_packets] and
    [fallback_to_userspace] stay.  For any other frame the statistics are
    left as they were. *)
Theorem X19_egress_counts_valid_ipv4 (skb : xdp_md) (skb_len : Z) (s : maps) :
  let r := marchproxy_egress skb skb_len s in
  fst r = TC_ACT_OK
  /\ services_map (snd r) = services_map s
  /\ mappings_map (snd r) = mappings_map s
  /\ connections_map (snd r) = connections_map s
  /\ (parsed_ipv4 skb ->
      stats_step
        (fun st st' =>
           counts_packet skb_len (ip_protocol skb ETH_HLEN) st st'
           /\ forwarded_packets st' = u64 (forwarded_packets st + 1)
           /\ dropped_packets st' = dropped_packets st
           /\ fallback_to_userspace st' = fallback_to_userspace st)
        (stats_map s) (stats_map (snd r)))
  /\ (~ parsed_ipv4 skb -> stats_map (snd r) = stats_map s).
Proof.
  intros r. subst r. unfold parsed_ipv4.
  pose proof (parse_ip_hdr_some skb ETH_HLEN) as Hip.
  unfold marchproxy_egress, parse_eth_hdr. rewrite Z.gtb_ltb.
  destruct (data_end skb <? ETH_HLEN) eqn:E1;
    [apply Z.ltb_lt in E1 | apply Z.ltb_ge in E1]; cbv beta iota.
  { repeat split; try reflexivity. intros (? & _). unfold IPHDR_SIZE in *. lia. }
  destruct (eth_h_proto skb =? ETH_P_IP) eqn:E2;
    [apply Z.eqb_eq in E2 | apply Z.eqb_neq in E2]; cbn [negb]; cbv beta iota.
  2: { repeat split; try reflexivity. intros (_ & ? & _). congruence. }
  destruct (parse_ip_hdr skb ETH_HLEN) as [len|].
  - cbn [fst snd with_stats services_map mappings_map connections_map stats_map].
    do 4 (split; [reflexivity |]). split.
    + intros _.
      pose proof (update_stats_step skb_len (ip_protocol skb ETH_HLEN) 1 (stats_map s))
        as Hst.
      unfold stats_step in *. destruct (stats_map s) as [st|]; [| exact Hst].
      destruct Hst as (st' & -> & Hcnt & Hd & Hf & Hu).
      exists st'. split; [reflexivity |]. cbn in Hd, Hf, Hu. tauto.
    + intros Hn. exfalso. apply Hn.
      destruct (proj1 Hip ltac:(eexists; reflexivity)) as (? & ? & ?). tauto.
  - cbn. repeat split; try reflexivity.
    intros (H1 & _ & H2 & H3).
    destruct (proj2 Hip (conj H1 (conj H2 H3))) as [? [=]].
Qed.

End TcFilter.

(* --------------------------------------------------------------------- *)
(** *** filter.c: header validation, verdicts and counters *)
(* --------------------------------------------------------------------- *)

Section XdpFilter.
Import Mach Packet Filter FilterSpec.

Lemma ip_ihl_range ctx ip : 0 <= ip_ihl ctx ip <= 15.
Proof.
  unfold ip_ihl. change 15 with (Z.ones 4). rewrite Z.land_ones by lia.
  change (2 ^ 4) with 16. change (Z.ones 4) with 15.
  assert (H16 : 0 < 16) by lia.
  pose proof (Z.mod_pos_bound (load_u8 ctx ip) 16 H16). lia.
Qed.

(** X20.  A header accepted by [parse_ip] lies inside the packet: the
    returned length is [4 * ihl], between 20 and 60 bytes, the header has
    version 4, and the transport header that follows it starts at or before
    the end of the buffer. *)
Theorem X20_parse_ip_header_inside_packet (ctx : xdp_md) (ip n : Z)
    (Hparse : parse_ip ctx ip = Some n) :
  n = 4 * ip_ihl ctx ip /\ 20 <= n <= 60 /\ ip_version ctx ip = 4
  /\ ip + n <= data_end ctx.
Proof.
  unfold parse_ip in Hparse. cbv zeta in Hparse.
  pose proof (ip_ihl_range ctx ip) as Hr.
  destruct (ip + IPHDR_SIZE >? data_end ctx); [discriminate |].
  destruct (ip_version ctx ip =? 4) eqn:Ev; cbn [negb orb] in Hparse; [| discriminate].
  destruct (ip_ihl ctx ip <? 5) eqn:Ei; [discriminate |].
  rewrite Z.gtb_ltb in Hparse.
  destruct (data_end ctx <? ip + ip_ihl ctx ip * 4) eqn:Ee; [discriminate |].
  injection Hparse as <-. apply Z.eqb_eq in Ev. apply Z.ltb_ge in Ei, Ee. lia.
Qed.

Lemma X20_witness :
  20 = 4 * ip_ihl (Samples.tcp_packet 80 []) 14 /\ 20 <= 20 <= 60
  /\ ip_version (Samples.tcp_packet 80 []) 14 = 4 /\ 14 + 20 <= data_end (Samples.tcp_packet 80 []).
Proof. apply X20_parse_ip_header_inside_packet. vm_compute. reflexivity. Defined.

(** X21.  [marchproxy_filter] counts every packet as processed and under
    exactly one outcome counter, it never writes the rule table or the
    allow list, its verdict is [XDP_DROP] or [XDP_PASS], and the verdict is
    [XDP_DROP] exactly when the outcome counted is [STAT_PACKETS_DROPPED]. *)
Theorem X21_one_outcome_per_packet (ctx : xdp_md) (s : maps) :
  exists outcome,
    1 <= outcome <= 5
    /\ snd (marchproxy_filter ctx s)
       = update_stat outcome (update_stat STAT_PACKETS_PROCESSED s)
    /\ fst (marchproxy_filter ctx s)
       = (if outcome =? STAT_PACKETS_DROPPED then XDP_DROP else XDP_PASS)
    /\ proxy_rules (snd (marchproxy_filter ctx s)) = proxy_rules s
    /\ source_allow_map (snd (marchproxy_filter ctx s)) = source_allow_map s.
Proof.
  assert (Hk : forall k t, proxy_rules (update_stat k t) = proxy_rules t
                           /\ source_allow_map (update_stat k t) = source_allow_map t).
  { intros k t. unfold update_stat. destruct (stats_map t !! k); split; reflexivity. }
  assert (Hout : forall k v,
             1 <= k <= 5 ->
             v = (if k =? STAT_PACKETS_DROPPED then XDP_DROP else XDP_PASS) ->
             exists outcome,
               1 <= outcome <= 5
               /\ snd (v, update_stat k (update_stat STAT_PACKETS_PROCESSED s))
                  = update_stat outcome (update_stat STAT_PACKETS_PROCESSED s)
               /\ fst (v, update_stat k (update_stat STAT_PACKETS_PROCESSED s))
                  = (if outcome =? STAT_PACKETS_DROPPED then XDP_DROP else XDP_PASS)
               /\ proxy_rules
                    (snd (v, update_stat k (update_stat STAT_PACKETS_PROCESSED s)))
                  = proxy_rules s
               /\ source_allow_map
                    (snd (v, update_stat k (update_stat STAT_PACKETS_PROCESSED s)))
                  = source_allow_map s).
  { intros k v Hr ->. exists k. cbn [fst snd].
    destruct (Hk k (update_stat STAT_PACKETS_PROCESSED s)) as [-> ->].
    destruct (Hk STAT_PACKETS_PROCESSED s) as [-> ->]. repeat split; lia. }
  unfold marchproxy_filter. cbv zeta.
  destruct (parse_eth ctx) as [[offset eth_type] |];
    [| apply Hout; [vm_compute; split; discriminate | reflexivity]].
  destruct (negb (eth_type =? ETH_P_IP));
    [apply Hout; [vm_compute; split; discriminate | reflexivity] |].
  destruct (parse_ip ctx offset) as [ip_offset |];
    [| apply Hout; [vm_compute; split; discriminate | reflexivity]].
  match goal with
  | |- context [match ?p with Some _ => _ | None => _ end] =>
      destruct p as [[dst_port |] |]
  end; try (apply Hout; [vm_compute; split; discriminate | reflexivity]).
  match goal with
  | |- context [proxy_rules ?t !! ?k] => destruct (proxy_rules t !! k) as [rule |]
  end.
  - destruct (rule_action rule =? 0);
      [apply Hout; [vm_compute; split; discriminate | reflexivity] |].
    destruct (rule_action rule =? 1).
    + destruct (nonzero (auth_required rule));
        apply Hout; try (vm_compute; split; discriminate); reflexivity.
    + destruct (rule_action rule =? 2);
        apply Hout; try (vm_compute; split; discriminate); reflexivity.
  - match goal with
    | |- context [source_allow_map ?t !! ?k] => destruct (source_allow_map t !! k)
    end; apply Hout; try (vm_compute; split; discriminate); reflexivity.
Qed.

Lemma counter_update_stat key j s :
  is_Some (stats_map s !! key) ->
  counter (update_stat key s) j
  = if decide (key = j) then u64 (counter s key + 1) else counter s j.
Proof.
  intros [c Hc]. unfold update_stat, counter. rewrite Hc. cbn [stats_map].
  destruct (decide (key = j)) as [<- | Hne].
  - now rewrite lookup_insert_eq.
  - now rewrite lookup_insert_ne.
Qed.

Lemma counters_present_update_stat key s :
  counters_present s -> counters_present (update_stat key s).
Proof.
  intros Hp j Hj. unfold update_stat.
  destruct (stats_map s !! key) eqn:E; [| now apply Hp]. cbn [stats_map].
  destruct (decide (key = j)) as [<- | Hne].
  - rewrite lookup_insert_eq. eexists; reflexivity.
  - rewrite lookup_insert_ne by assumption. now apply Hp.
Qed.

Lemma balance_step c0 rest x :
  u64 c0 = u64 (rest + x) -> u64 (u64 (c0 + 1)) = u64 (rest + u64 (x + 1)).
Proof.
  intros H. rewrite u64_idemp, u64_add_r.
  replace (rest + (x + 1)) with (rest + x + 1) by lia. now apply u64_congr_add.
Qed.

Lemma stats_balanced_outcome outcome s :
  1 <= outcome <= 5 ->
  counters_present s -> stats_balanced s ->
  stats_balanced (update_stat outcome (update_stat STAT_PACKETS_PROCESSED s)).
Proof.
  intros Ho Hp Hb. unfold stats_balanced in *.
  pose proof (counters_present_update_stat STAT_PACKETS_PROCESSED s Hp) as Hp1.
  assert (Hs : forall j, 0 <= j <= 5 ->
             counter (update_stat outcome (update_stat STAT_PACKETS_PROCESSED s)) j
             = if decide (outcome = j)
               then u64 (counter s outcome + 1)
               else if decide (STAT_PACKETS_PROCESSED = j)
                    then u64 (counter s STAT_PACKETS_PROCESSED + 1)
                    else counter s j).
  { intros j Hj. rewrite counter_update_stat by (apply Hp1; lia).
    rewrite !counter_update_stat by (apply Hp; unfold STAT_PACKETS_PROCESSED; lia).
    destruct (decide (outcome = j)); [| reflexivity].
    rewrite decide_False by (unfold STAT_PACKETS_PROCESSED; lia). reflexivity. }
  unfold STAT_PACKETS_PROCESSED, STAT_PACKETS_ALLOWED, STAT_PACKETS_DROPPED,
    STAT_PACKETS_REDIRECTED, STAT_PACKETS_TO_USERSPACE, STAT_AUTH_REQUIRED in *.
  rewrite (Hs 0), (Hs 1), (Hs 2), (Hs 3), (Hs 4), (Hs 5) by lia.
  rewrite (decide_False (P := outcome = 0)) by lia.
  rewrite (decide_True (P := 0 = 0)) by reflexivity.
  rewrite !(decide_False (P := 0 = _)) by lia.
  set (c1 := counter s 1) in *. set (c2 := counter s 2) in *.
  set (c3 := counter s 3) in *. set (c4 := counter s 4) in *.
  set (c5 := counter s 5) in *.
  assert (Hcase : outcome = 1 \/ outcome = 2 \/ outcome = 3 \/ outcome = 4
                  \/ outcome = 5) by lia.
  destruct Hcase as [-> | [-> | [-> | [-> | ->]]]];
    repeat match goal with
           | |- context [decide (?a = ?b)] =>
               first [rewrite (decide_True (P := a = b)) by reflexivity
                     | rewrite (decide_False (P := a = b)) by lia]
           end.
  - fold c1. replace (u64 (c1 + 1) + c2 + c3 + c4 + c5)
      with ((c2 + c3 + c4 + c5) + u64 (c1 + 1)) by lia.
    apply balance_step. rewrite Hb. f_equal. lia.
  - fold c2. replace (c1 + u64 (c2 + 1) + c3 + c4 + c5)
      with ((c1 + c3 + c4 + c5) + u64 (c2 + 1)) by lia.
    apply balance_step. rewrite Hb. f_equal. lia.
  - fold c3. replace (c1 + c2 + u64 (c3 + 1) + c4 + c5)
      with ((c1 + c2 + c4 + c5) + u64 (c3 + 1)) by lia.
    apply balance_step. rewrite Hb. f_equal. lia.
  - fold c4. replace (c1 + c2 + c3 + u64 (c4 + 1) + c5)
      with ((c1 + c2 + c3 + c5) + u64 (c4 + 1)) by lia.
    apply balance_step. rewrite Hb. f_equal. lia.
  - fold c5. apply balance_step. exact Hb.
Qed.

(** The outcome of one packet, for the proofs about runs. *)
Lemma marchproxy_filter_outcome ctx s :
  exists outcome,
    1 <= outcome <= 5
    /\ snd (marchproxy_filter ctx s)
       = update_stat outcome (update_stat STAT_PACKETS_PROCESSED s).
Proof.
  assert (Hout : forall k v,
             1 <= k <= 5 ->
             exists outcome,
               1 <= outcome <= 5
               /\ snd (v : xdp_action,
                       update_stat k (update_stat STAT_PACKETS_PROCESSED s))
                  = update_stat outcome (update_stat STAT_PACKETS_PROCESSED s)).
  { intros k v Hr. exists k. split; [assumption | reflexivity]. }
  unfold marchproxy_filter. cbv zeta.
  repeat match goal with
         | |- exists _, _ /\ snd (_, update_stat ?k _) = _ =>
             apply Hout; vm_compute; split; discriminate
         | |- context [match ?p with _ => _ end] => destruct p
         end.
Qed.

(** X22.  With the six counters present, the accounting identity
    processed = allowed + dropped + redirected + to-userspace +
    auth-required (modulo 2^64) is an invariant of [marchproxy_filter]: it
    holds after any sequence of packets when it held before, and the
    processed counter has advanced by the number of packets. *)
Theorem X22_counters_stay_balanced (packets : list xdp_md) (s : maps)
    (Hpresent : counters_present s) (Hbalanced : stats_balanced s) :
  stats_balanced (Trace.run_marchproxy_filter packets s)
  /\ counters_present (Trace.run_marchproxy_filter packets s)
  /\ u64 (counter (Trace.run_marchproxy_filter packets s) STAT_PACKETS_PROCESSED)
     = u64 (counter s STAT_PACKETS_PROCESSED + Z.of_nat (length packets)).
Proof.
  revert s Hpresent Hbalanced.
  induction packets as [| ctx packets IH]; intros s Hp Hb.
  - cbn. rewrite Z.add_0_r. auto.
  - cbn [Trace.run_marchproxy_filter length].
    destruct (marchproxy_filter_outcome ctx s) as (o & Ho & ->).
    pose proof (counters_present_update_stat o _
                  (counters_present_update_stat STAT_PACKETS_PROCESSED s Hp)) as Hp'.
    destruct (IH _ Hp' (stats_balanced_outcome o s Ho Hp Hb)) as (H1 & H2 & H3).
    split; [exact H1 |]. split; [exact H2 |]. rewrite H3.
    rewrite counter_update_stat
      by (apply counters_present_update_stat; [exact Hp | lia]).
    rewrite decide_False by (unfold STAT_PACKETS_PROCESSED; lia).
    rewrite counter_update_stat by (apply Hp; unfold STAT_PACKETS_PROCESSED; lia).
    rewrite decide_True by reflexivity.
    rewrite u64_add_idemp. f_equal. lia.
Qed.

Lemma X22_witness :
  stats_balanced
    (Trace.run_marchproxy_filter
       [Samples.tcp_packet 80 []; Samples.truncated_ip_frame]
       (Samples.filter_state 7 3 4))
  /\ counters_present
       (Trace.run_marchproxy_filter
          [Samples.tcp_packet 80 []; Samples.truncated_ip_frame]
          (Samples.filter_state 7 3 4))
  /\ u64 (counter
            (Trace.run_marchproxy_filter
               [Samples.tcp_packet 80 []; Samples.truncated_ip_frame]
               (Samples.filter_state 7 3 4)) STAT_PACKETS_PROCESSED)
     = u64 (counter (Samples.filter_state 7 3 4) STAT_PACKETS_PROCESSED
            + Z.of_nat (length [Samples.tcp_packet 80 []; Samples.truncated_ip_frame])).
Proof.
  apply X22_counters_stay_balanced.
  - intros key Hk.
    assert (Hcase : key = 0 \/ key = 1 \/ key = 2 \/ key = 3 \/ key = 4 \/ key = 5)
      by lia.
    destruct Hcase as [-> | [-> | [-> | [-> | [-> | ->]]]]];
      vm_compute; eexists; reflexivity.
  - vm_compute. reflexivity.
Defined.

Lemma rule_port_model ctx transport protocol :
  (if protocol =? IPPROTO_TCP then
     if transport + TCPHDR_SIZE >? data_end ctx then None
     else Some (Some (tcp_dest ctx transport))
   else if protocol =? IPPROTO_UDP then
     if transport + UDPHDR_SIZE >? data_end ctx then None
     else Some (Some (udp_dest ctx transport))
   else if protocol =? IPPROTO_ICMP then Some (Some 0)
   else Some None)
  = match rule_port ctx transport protocol with
    | Some port => Some (Some port)
    | None => if (protocol =? IPPROTO_TCP) || (protocol =? IPPROTO_UDP)
              then None else Some None
    end.
Proof.
  unfold rule_port.
  destruct (protocol =? IPPROTO_TCP); cbn [orb].
  { destruct (transport + TCPHDR_SIZE >? data_end ctx); reflexivity. }
  destruct (protocol =? IPPROTO_UDP).
  { destruct (transport + UDPHDR_SIZE >? data_end ctx); reflexivity. }
  destruct (protocol =? IPPROTO_ICMP); reflexivity.
Qed.

(** X23.  [marchproxy_filter] is default-deny for the traffic it can
    classify and lenient for the rest.  It drops exactly: an IPv4 frame
    whose header [parse_ip] rejects; and a TCP, UDP or ICMP packet with a
    complete transport header whose rule has action 0 or, when there is no
    rule for its key, whose source is absent from the allow list.  A frame
    that is not IPv4, a truncated TCP or UDP header and any other IP
    protocol are passed.  Only the presence of the source in the allow list
    is used, not the value stored with it. *)
Theorem X23_filter_drops_exactly (ctx : xdp_md) (s : maps) :
  fst (marchproxy_filter ctx s) = XDP_DROP
  <-> ETH_HLEN <= data_end ctx /\ eth_h_proto ctx = ETH_P_IP
      /\ (parse_ip ctx ETH_HLEN = None
          \/ exists ip_len dst_port,
               parse_ip ctx ETH_HLEN = Some ip_len
               /\ rule_port ctx (ETH_HLEN + ip_len) (ip_protocol ctx ETH_HLEN)
                  = Some dst_port
               /\ match proxy_rules s
                        !! (ip_saddr ctx ETH_HLEN, ip_daddr ctx ETH_HLEN, dst_port,
                            ip_protocol ctx ETH_HLEN) with
                  | Some rule => rule_action rule = 0
                  | None => source_allow_map s !! ip_saddr ctx ETH_HLEN = None
                  end).
Proof.
  assert (Hk : forall k t, proxy_rules (update_stat k t) = proxy_rules t
                           /\ source_allow_map (update_stat k t) = source_allow_map t).
  { intros k t. unfold update_stat. destruct (stats_map t !! k); split; reflexivity. }
  unfold marchproxy_filter, parse_eth. cbv zeta. rewrite Z.gtb_ltb.
  destruct (data_end ctx <? ETH_HLEN) eqn:E1;
    [apply Z.ltb_lt in E1 | apply Z.ltb_ge in E1]; cbv beta iota.
  { cbn [fst]. split; [discriminate | intros (? & _); lia]. }
  destruct (eth_h_proto ctx =? ETH_P_IP) eqn:E2;
    [apply Z.eqb_eq in E2 | apply Z.eqb_neq in E2]; cbn [negb]; cbv beta iota.
  2: { cbn [fst]. split; [discriminate | intros (_ & ? & _); congruence]. }
  destruct (parse_ip ctx ETH_HLEN) as [ip_len |] eqn:Eip.
  2: { cbn [fst]. split; [intros _ | reflexivity]. repeat split; auto. }
  rewrite rule_port_model.
  destruct (Hk STAT_PACKETS_PROCESSED s) as [-> ->].
  destruct (rule_port ctx (ETH_HLEN + ip_len) (ip_protocol ctx ETH_HLEN))
    as [dst_port |] eqn:Eport.
  2: { destruct ((ip_protocol ctx ETH_HLEN =? IPPROTO_TCP)
                 || (ip_protocol ctx ETH_HLEN =? IPPROTO_UDP));
         cbn [fst];
         (split; [discriminate |
                  intros (_ & _ & [? | (n & p & Hn & Hp & _)]);
                  [discriminate | injection Hn as <-; congruence]]). }
  cbv beta iota.
  destruct (proxy_rules s !! (ip_saddr ctx ETH_HLEN, ip_daddr ctx ETH_HLEN, dst_port,
                              ip_protocol ctx ETH_HLEN)) as [rule |] eqn:Erule.
  - destruct (rule_action rule =? 0) eqn:Ea;
      [apply Z.eqb_eq in Ea | apply Z.eqb_neq in Ea].
    + cbn [fst]. split; [intros _ | reflexivity].
      split; [assumption |]. split; [assumption |]. right.
      exists ip_len, dst_port. rewrite Erule. auto.
    + assert (Hpass : forall v : xdp_action * maps,
                 v = (if rule_action rule =? 1
                      then if nonzero (auth_required rule)
                           then (XDP_PASS,
                                 update_stat STAT_AUTH_REQUIRED
                                   (update_stat STAT_PACKETS_PROCESSED s))
                           else (XDP_PASS,
                                 update_stat STAT_PACKETS_ALLOWED
                                   (update_stat STAT_PACKETS_PROCESSED s))
                      else if rule_action rule =? 2
                           then (XDP_PASS,
                                 update_stat STAT_PACKETS_REDIRECTED
                                   (update_stat STAT_PACKETS_PROCESSED s))
                           else (XDP_PASS,
                                 update_stat STAT_PACKETS_TO_USERSPACE
                                   (update_stat STAT_PACKETS_PROCESSED s))) ->
                 fst v = XDP_PASS).
      { intros v ->. destruct (rule_action rule =? 1);
          [destruct (nonzero (auth_required rule)); reflexivity |].
        destruct (rule_action rule =? 2); reflexivity. }
      rewrite (Hpass _ eq_refl). split; [discriminate |].
      intros (_ & _ & [? | (n & p & Hn & Hp & Hm)]); [discriminate |].
      injection Hn as <-. rewrite Eport in Hp. injection Hp as <-.
      rewrite Erule in Hm. contradiction.
  - destruct (source_allow_map s !! ip_saddr ctx ETH_HLEN) as [cnt |] eqn:Eallow.
    + cbn [fst]. split; [discriminate |].
      intros (_ & _ & [? | (n & p & Hn & Hp & Hm)]); [discriminate |].
        injection Hn as <-.
      rewrite Eport in Hp. injection Hp as <-. rewrite Erule in Hm.
      discriminate.
    + cbn [fst]. split; [intros _ | reflexivity].
      split; [assumption |]. split; [assumption |]. right.
      exists ip_len, dst_port. rewrite Erule. auto.
Qed.

(** X24.  The TC egress program of filter.c shoots exactly the IPv4 frames
    whose header [parse_ip] rejects and lets everything else through.  It
    counts every frame as processed and under no outcome, so one egress
    frame breaks the accounting identity of the shared counters. *)
Theorem X24_egress_shoots_malformed_ipv4 (skb : xdp_md) (s : maps) :
  snd (marchproxy_egress skb s) = update_stat STAT_PACKETS_PROCESSED s
  /\ (fst (marchproxy_egress skb s) = TC_ACT_SHOT
      <-> ETH_HLEN <= data_end skb /\ eth_h_proto skb = ETH_P_IP
          /\ parse_ip skb ETH_HLEN = None)
  /\ (fst (marchproxy_egress skb s) <> TC_ACT_SHOT
      -> fst (marchproxy_egress skb s) = TC_ACT_OK)
  /\ (counters_present s -> stats_balanced s
      -> ~ stats_balanced (snd (marchproxy_egress skb s))).
Proof.
  assert (Hsnd : snd (marchproxy_egress skb s) = update_stat STAT_PACKETS_PROCESSED s).
  { unfold marchproxy_egress. cbv zeta.
    destruct (parse_eth skb) as [[offset eth_type] |]; [| reflexivity].
    destruct (negb (eth_type =? ETH_P_IP)); [reflexivity |].
    destruct (parse_ip skb offset); reflexivity. }
  split; [exact Hsnd |]. split; [| split].
  - unfold marchproxy_egress, parse_eth. cbv zeta. rewrite Z.gtb_ltb.
    destruct (data_end skb <? ETH_HLEN) eqn:E1;
      [apply Z.ltb_lt in E1 | apply Z.ltb_ge in E1]; cbv beta iota.
    { cbn [fst]. split; [discriminate | intros (? & _); lia]. }
    destruct (eth_h_proto skb =? ETH_P_IP) eqn:E2;
      [apply Z.eqb_eq in E2 | apply Z.eqb_neq in E2]; cbn [negb]; cbv beta iota.
    2: { cbn [fst]. split; [discriminate | intros (_ & ? & _); congruence]. }
    destruct (parse_ip skb ETH_HLEN); cbn [fst].
    + split; [discriminate | intros (_ & _ & ?); discriminate].
    + split; [auto | reflexivity].
  - unfold marchproxy_egress. cbv zeta.
    destruct (parse_eth skb) as [[offset eth_type] |]; [| reflexivity].
    destruct (negb (eth_type =? ETH_P_IP)); [reflexivity |].
    destruct (parse_ip skb offset); cbn [fst]; [reflexivity | congruence].
  - intros Hp Hb. rewrite Hsnd. unfold stats_balanced in *.
    rewrite !counter_update_stat by (apply Hp; unfold STAT_PACKETS_PROCESSED; lia).
    unfold STAT_PACKETS_PROCESSED, STAT_PACKETS_ALLOWED, STAT_PACKETS_DROPPED,
      STAT_PACKETS_REDIRECTED, STAT_PACKETS_TO_USERSPACE, STAT_AUTH_REQUIRED in *.
    rewrite (decide_True (P := 0 = 0)) by reflexivity.
    rewrite !(decide_False (P := 0 = _)) by lia.
    rewrite <- Hb, u64_idemp. intros Heq.
    apply (u64_succ_neq (u64 (counter s 0))).
    rewrite u64_add_idemp. exact Heq.
Qed.

End XdpFilter.

(* --------------------------------------------------------------------- *)
(** *** envoy_xdp.c: the per-source window, verdicts and counters *)
(* --------------------------------------------------------------------- *)

Section EnvoyFilter.
Import Mach Packet EnvoyXdp EnvoyXdpSpec.

Lemma envoy_check_starts config src_ip t0 evicted s :
  enabled config <> 0 ->
  starts_source_window config src_ip t0 s ->
  fst (check_rate_limit src_ip t0 evicted s) = XDP_PASS
  /\ source_window_state config src_ip t0 1 (snd (check_rate_limit src_ip t0 evicted s)).
Proof.
  intros Hen [Hcfg Hent]. unfold check_rate_limit, source_window_state.
  rewrite Hcfg. rewrite (proj2 (Z.eqb_neq _ _) Hen).
  destruct Hent as [-> | (v & -> & Hel)].
  - cbn [fst snd rate_limit_config_map rate_limit_map]. split; [reflexivity |].
    split; [first [assumption | reflexivity] |]. eexists.
    rewrite lru_update_lookup. repeat split.
  - rewrite Z.gtb_ltb, (proj2 (Z.ltb_lt _ _) Hel).
    cbn [fst snd rate_limit_config_map rate_limit_map]. split; [reflexivity |].
    split; [first [assumption | reflexivity] |]. eexists.
    rewrite lookup_insert_eq. repeat split.
Qed.

Lemma envoy_check_in_window config src_ip t0 n t evicted s :
  enabled config <> 0 ->
  0 <= n -> max_packets config < 2^64 ->
  source_window_state config src_ip t0 n s ->
  within_window config t0 t ->
  fst (check_rate_limit src_ip t evicted s)
  = (if n <? max_packets config then XDP_PASS else XDP_DROP)
  /\ source_window_state config src_ip t0
       (if n <? max_packets config then n + 1 else n)
       (snd (check_rate_limit src_ip t evicted s)).
Proof.
  intros Hen Hn HM (Hcfg & v & Hv & Hcnt & Ht0) [Hin Hlt].
  unfold check_rate_limit, source_window_state.
  rewrite Hcfg, (proj2 (Z.eqb_neq _ _) Hen), Hv, Ht0.
  rewrite (u64_small (t - t0)) by lia.
  rewrite Z.gtb_ltb, (proj2 (Z.ltb_ge _ _) (proj2 Hin)).
  rewrite Z.geb_leb, Hcnt.
  destruct (n <? max_packets config) eqn:E;
    [apply Z.ltb_lt in E; rewrite (proj2 (Z.leb_gt _ _) E)
    | apply Z.ltb_ge in E; rewrite (proj2 (Z.leb_le _ _) E)];
    cbn [fst snd rate_limit_config_map rate_limit_map];
    (split; [reflexivity |]); (split; [first [assumption | reflexivity] |]);
    eexists; rewrite lookup_insert_eq;
    (split; [reflexivity |]); cbn [packet_count last_reset_ns].
  - split; [apply u64_small; lia | reflexivity].
  - split; first [assumption | reflexivity].
Qed.

Lemma run_envoy_in_window config src_ip t0 (ts : list (Z * list Z)) :
  enabled config <> 0 -> max_packets config < 2^64 ->
  forall n s,
    0 <= n ->
    source_window_state config src_ip t0 n s ->
    Forall (fun c => within_window config t0 (fst c)) ts ->
    forall k : nat,
      (k < length ts)%nat ->
      fst (Trace.run_envoy_check_rate_limit src_ip ts s) !! k
      = Some (if n + Z.of_nat k <? max_packets config then XDP_PASS else XDP_DROP).
Proof.
  intros Hen HM.
  induction ts as [| [t evicted] ts IH]; intros n s Hn Hst Hall k Hk.
  - cbn in Hk. lia.
  - cbn [length] in Hk. inversion Hall as [| ? ? Hin Hall']; subst.
    cbn [Trace.run_envoy_check_rate_limit].
    destruct (envoy_check_in_window config src_ip t0 n t evicted s Hen Hn HM Hst Hin)
      as [Hv Hst'].
    destruct (check_rate_limit src_ip t evicted s) as [v s1]. cbn [fst snd] in *.
    assert (Hn' : 0 <= (if n <? max_packets config then n + 1 else n))
      by (destruct (n <? max_packets config); lia).
    specialize (IH _ s1 Hn' Hst' Hall').
    destruct (Trace.run_envoy_check_rate_limit src_ip ts s1) as [vs s2].
    cbn [fst] in *. destruct k as [| k].
    + cbn. rewrite Z.add_0_r. now rewrite Hv.
    + rewrite lookup_cons, (IH k) by lia. f_equal.
      destruct (n <? max_packets config) eqn:E;
        [apply Z.ltb_lt in E | apply Z.ltb_ge in E].
      * now replace (n + 1 + Z.of_nat k) with (n + Z.of_nat (S k)) by lia.
      * rewrite (proj2 (Z.ltb_ge (n + Z.of_nat k) _)) by lia.
        rewrite (proj2 (Z.ltb_ge (n + Z.of_nat (S k)) _)) by lia. reflexivity.
Qed.

(** X25.  The per-source limiter of the L7 filter is a fixed window without
    burst allowance.  When a packet of a source starts a window and the
    following packets of the source arrive at most [window_ns] later, the
    first packet is always admitted, and packet number [k + 1] of the
    window is admitted exactly when [k + 1 <= max_packets]; so a limit of 0
    still admits one packet per window.  The window restarts only when
    strictly more than [window_ns] has elapsed.  Whatever the kernel evicts
    when the source's entry is created, the entry is not evicted by the
    source's own later packets, which change it in place. *)
Theorem X25_source_window_admits_max_packets
    (config : rate_limit_config) (src_ip t0 : Z) (evicted : list Z)
    (ts : list (Z * list Z)) (s : maps)
    (Henabled : enabled config <> 0)
    (Hmax : 0 <= max_packets config < 2^64)
    (Hstart : starts_source_window config src_ip t0 s)
    (Hin : Forall (fun c => within_window config t0 (fst c)) ts) :
  forall k : nat,
    (k < length ((t0, evicted) :: ts))%nat ->
    fst (Trace.run_envoy_check_rate_limit src_ip ((t0, evicted) :: ts) s) !! k
    = Some (if (Z.of_nat k =? 0) || (Z.of_nat k <? max_packets config)
            then XDP_PASS else XDP_DROP).
Proof.
  intros k Hk. cbn [Trace.run_envoy_check_rate_limit].
  destruct (envoy_check_starts config src_ip t0 evicted s Henabled Hstart) as [Hv Hst].
  destruct (check_rate_limit src_ip t0 evicted s) as [v s1]. cbn [fst snd] in *.
  cbn [length] in Hk.
  pose proof (run_envoy_in_window config src_ip t0 ts Henabled (proj2 Hmax) 1 s1
                ltac:(lia) Hst Hin) as Hrun.
  destruct (Trace.run_envoy_check_rate_limit src_ip ts s1) as [vs s2].
  cbn [fst] in *. destruct k as [| k].
  - cbn. now rewrite Hv.
  - rewrite lookup_cons, (Hrun k) by lia.
    rewrite (proj2 (Z.eqb_neq (Z.of_nat (S k)) 0)) by lia. cbn [orb].
    now replace (1 + Z.of_nat k) with (Z.of_nat (S k)) by lia.
Qed.

Lemma X25_witness :
  fst (Trace.run_envoy_check_rate_limit 7 [(0, [7]); (10, []); (1000000000, [7])]
         (limiter_state 0))
    !! 2%nat = Some XDP_DROP.
Proof.
  apply (X25_source_window_admits_max_packets
           {| window_ns := 1000000000; max_packets := 0; enabled := 1 |}
           7 0 [7] [(10, []); (1000000000, [7])] (limiter_state 0)).
  - cbn. lia.
  - cbn. lia.
  - split; [reflexivity | left; reflexivity].
  - repeat constructor; cbn; lia.
  - cbn. lia.
Defined.

Lemma load_u8_range ctx off : 0 <= load_u8 ctx off < 256.
Proof.
  unfold load_u8, u8. change (2 ^ 8) with 256. apply Z.mod_pos_bound. lia.
Qed.

(** The raw comparison [eth->h_proto != bpf_htons(ETH_P_IP)] tests the
    EtherType. *)
Lemma raw_h_proto_ipv4 ctx :
  (load_raw16 ctx 12 =? bpf_htons ETH_P_IP) = (eth_h_proto ctx =? ETH_P_IP).
Proof.
  unfold load_raw16, eth_h_proto, load_be16.
  change (bpf_htons ETH_P_IP) with 8. change ETH_P_IP with 2048. change (12 + 1) with 13.
  pose proof (load_u8_range ctx 12). pose proof (load_u8_range ctx 13).
  destruct (load_u8 ctx 12 + load_u8 ctx 13 * 256 =? 8) eqn:E1;
    [apply Z.eqb_eq in E1 | apply Z.eqb_neq in E1]; symmetry;
    [apply Z.eqb_eq | apply Z.eqb_neq]; lia.
Qed.

Lemma check_rate_limit_with_stats f src_ip now_ns evicted s :
  fst (check_rate_limit src_ip now_ns evicted (with_stats f s))
  = fst (check_rate_limit src_ip now_ns evicted s).
Proof.
  unfold check_rate_limit, with_stats. cbn [rate_limit_config_map rate_limit_map].
  destruct (rate_limit_config_map s) as [config |]; [| reflexivity].
  destruct (enabled config =? 0); [reflexivity |].
  destruct (rate_limit_map s !! src_ip) as [v |]; [| reflexivity].
  destruct (u64 (now_ns - last_reset_ns v) >? window_ns config); [reflexivity |].
  destruct (packet_count v >=? max_packets config); reflexivity.
Qed.

(** X26.  The verdict of [xdp_envoy_filter] never depends on the payload or
    on the protocol detection.  It drops exactly: a frame shorter than the
    Ethernet header; an IPv4 frame with a truncated fixed header or
    [ihl < 5]; an IPv4 packet refused by the per-source limiter; and a TCP
    packet whose fixed TCP header is truncated.  The IP version field is
    not examined. *)
Theorem X26_envoy_filter_drops_exactly
    (ctx : xdp_md) (now_ns : Z) (evicted : list Z) (s : maps) :
  fst (xdp_envoy_filter ctx now_ns evicted s) = XDP_DROP
  <-> data_end ctx < ETH_HLEN
      \/ (eth_h_proto ctx = ETH_P_IP
          /\ (data_end ctx < ETH_HLEN + IPHDR_SIZE
              \/ ip_ihl ctx ETH_HLEN < 5
              \/ fst (check_rate_limit (ip_saddr ctx ETH_HLEN) now_ns evicted s)
                 = XDP_DROP
              \/ (ip_protocol ctx ETH_HLEN = IPPROTO_TCP
                  /\ data_end ctx
                     < ETH_HLEN + ip_ihl ctx ETH_HLEN * 4 + TCPHDR_SIZE))).
Proof.
  unfold xdp_envoy_filter, parse_ethhdr. cbv zeta. rewrite Z.gtb_ltb.
  destruct (data_end ctx <? ETH_HLEN) eqn:E1;
    [apply Z.ltb_lt in E1 | apply Z.ltb_ge in E1].
  { cbn. split; auto. }
  assert (H0 : (load_raw16 ctx 12 <? 0) = false).
  { apply Z.ltb_ge. unfold load_raw16.
    pose proof (load_u8_range ctx 12). pose proof (load_u8_range ctx (12 + 1)). lia. }
  rewrite H0, raw_h_proto_ipv4.
  destruct (eth_h_proto ctx =? ETH_P_IP) eqn:E2;
    [apply Z.eqb_eq in E2 | apply Z.eqb_neq in E2]; cbn [negb].
  2: { cbn [fst]. split; [discriminate | intros [? | [? _]]; [lia | congruence]]. }
  unfold parse_iphdr. rewrite Z.gtb_ltb.
  destruct (data_end ctx <? ETH_HLEN + IPHDR_SIZE) eqn:E3;
    [apply Z.ltb_lt in E3 | apply Z.ltb_ge in E3].
  { cbn. split; auto. }
  destruct (ip_ihl ctx ETH_HLEN <? 5) eqn:E4;
    [apply Z.ltb_lt in E4 | apply Z.ltb_ge in E4].
  { cbn. split; auto. }
  assert (Hp : (ip_protocol ctx ETH_HLEN <? 0) = false).
  { apply Z.ltb_ge. unfold ip_protocol. apply load_u8_range. }
  rewrite Hp.
  pose proof (check_rate_limit_with_stats (count_packet (data_end ctx))
                (ip_saddr ctx ETH_HLEN) now_ns evicted s) as Hrl.
  destruct (check_rate_limit (ip_saddr ctx ETH_HLEN) now_ns evicted
              (with_stats (count_packet (data_end ctx)) s)) as [a s1].
  cbn [fst] in Hrl. rewrite <- Hrl.
  destruct (decide (a = XDP_DROP)) as [-> | Hna].
  { cbn [fst]. split; auto 6. }
  destruct (ip_protocol ctx ETH_HLEN =? IPPROTO_TCP) eqn:E5;
    [apply Z.eqb_eq in E5 | apply Z.eqb_neq in E5]; cbn [negb].
  2: { cbn [fst]. split; [discriminate |].
       intros [? | [_ [? | [? | [? | [? _]]]]]]; try lia; congruence. }
  unfold parse_tcphdr. rewrite Z.gtb_ltb.
  destruct (data_end ctx <? ETH_HLEN + ip_ihl ctx ETH_HLEN * 4 + TCPHDR_SIZE) eqn:E6;
    [apply Z.ltb_lt in E6 | apply Z.ltb_ge in E6].
  { cbn. split; auto 8. }
  change (0 <? 0) with false. cbv beta iota.
  assert (Hpass : forall v : xdp_action * maps,
             fst v = XDP_PASS ->
             fst v = XDP_DROP
             <-> data_end ctx < ETH_HLEN
                 \/ eth_h_proto ctx = ETH_P_IP
                    /\ (data_end ctx < ETH_HLEN + IPHDR_SIZE
                        \/ ip_ihl ctx ETH_HLEN < 5
                        \/ a = XDP_DROP
                        \/ ip_protocol ctx ETH_HLEN = IPPROTO_TCP
                           /\ data_end ctx
                              < ETH_HLEN + ip_ihl ctx ETH_HLEN * 4 + TCPHDR_SIZE)).
  { intros v ->. split; [discriminate |].
    intros [? | [_ [? | [? | [? | [_ ?]]]]]]; try lia; congruence. }
  apply Hpass.
  match goal with
  | |- fst (if ?c then _ else _) = _ => destruct c; [reflexivity |]
  end.
  destruct ((tcp_dest ctx (ETH_HLEN + ip_ihl ctx ETH_HLEN * 4) =? 80)
            || (tcp_dest ctx (ETH_HLEN + ip_ihl ctx ETH_HLEN * 4) =? 8080));
    [reflexivity |].
  destruct ((tcp_dest ctx (ETH_HLEN + ip_ihl ctx ETH_HLEN * 4) =? 443)
            || (tcp_dest ctx (ETH_HLEN + ip_ihl ctx ETH_HLEN * 4) =? 8443));
    [reflexivity |].
  destruct (tcp_dest ctx (ETH_HLEN + ip_ihl ctx ETH_HLEN * 4) =? 50051); reflexivity.
Qed.

Lemma check_rate_limit_stats src_ip now_ns evicted s :
  stats_map (snd (check_rate_limit src_ip now_ns evicted s))
  = (if decide (fst (check_rate_limit src_ip now_ns evicted s) = XDP_DROP)
     then count_rate_limited <$> stats_map s else stats_map s).
Proof.
  unfold check_rate_limit.
  destruct (rate_limit_config_map s) as [config |]; [| reflexivity].
  destruct (enabled config =? 0); [reflexivity |].
  destruct (rate_limit_map s !! src_ip) as [v |]; [| reflexivity].
  destruct (u64 (now_ns - last_reset_ns v) >? window_ns config); [reflexivity |].
  destruct (packet_count v >=? max_packets config); reflexivity.
Qed.

Lemma counters_advance_entry dest_port len v st :
  counters_advance dest_port len v st (count_packet len st).
Proof.
  unfold counters_advance, count_packet. cbn.
  repeat split; try congruence. now left.
Qed.

Lemma counters_advance_limited dest_port len st :
  counters_advance dest_port len XDP_DROP st (count_rate_limited (count_packet len st)).
Proof.
  unfold counters_advance, count_rate_limited, count_packet. cbn.
  repeat split; try congruence. right. auto.
Qed.

Lemma counters_advance_protocols dest_port len v st is_http is_https is_http2 is_grpc :
  (is_http = true -> dest_port = 80 \/ dest_port = 8080) ->
  (is_https = true -> dest_port = 443 \/ dest_port = 8443) ->
  (is_http2 = true -> dest_port = 80 \/ dest_port = 8080 \/ dest_port = 50051) ->
  (is_grpc = true -> dest_port = 50051) ->
  counters_advance dest_port len v st
    (count_protocols is_http is_https is_http2 is_grpc false (count_packet len st)).
Proof.
  intros H1 H2 H3 H4. unfold counters_advance, count_protocols, count_packet. cbn.
  split; [reflexivity |]. split; [reflexivity |]. split; [reflexivity |].
  split; [destruct is_http; [auto | congruence] |].
  split; [destruct is_https; [auto | congruence] |].
  split; [destruct is_http2; [auto | congruence] |].
  split; [destruct is_grpc; [auto | congruence] |].
  now left.
Qed.

(** X27.  Counters of [xdp_envoy_filter], when the statistics slot exists.
    Every frame, dropped or not, adds 1 to [total_packets] and its length
    to [total_bytes].  [websocket_packets] is never incremented.  The
    protocol counters are gated by the TCP destination port: [http_packets]
    moves only for 80 and 8080, [https_packets] only for 443 and 8443,
    [grpc_packets] only for 50051, [http2_packets] only for 80, 8080 and
    50051.  [rate_limited] and [dropped] either both stay or both grow by
    one, and they grow only when the verdict is [XDP_DROP]. *)
Theorem X27_protocol_counters_port_gated
    (ctx : xdp_md) (now_ns : Z) (evicted : list Z) (s : maps) (st : stats)
    (Hstats : stats_map s = Some st) :
  exists st',
    stats_map (snd (xdp_envoy_filter ctx now_ns evicted s)) = Some st'
    /\ counters_advance (tcp_dest ctx (ETH_HLEN + ip_ihl ctx ETH_HLEN * 4))
         (data_end ctx) (fst (xdp_envoy_filter ctx now_ns evicted s)) st st'.
Proof.
  set (dest_port := tcp_dest ctx (ETH_HLEN + ip_ihl ctx ETH_HLEN * 4)).
  set (s0 := with_stats (count_packet (data_end ctx)) s).
  assert (Hs0 : stats_map s0 = Some (count_packet (data_end ctx) st)).
  { subst s0. unfold with_stats. cbn [stats_map]. now rewrite Hstats. }
  assert (Hearly : forall v,
             exists st',
               stats_map (snd (v : xdp_action, s0)) = Some st'
               /\ counters_advance dest_port (data_end ctx) (fst (v, s0)) st st').
  { intros v. eexists. split; [exact Hs0 |]. apply counters_advance_entry. }
  unfold xdp_envoy_filter. cbv zeta. fold s0.
  destruct (parse_ethhdr ctx <? 0); [apply Hearly |].
  destruct (negb (parse_ethhdr ctx =? bpf_htons ETH_P_IP)); [apply Hearly |].
  destruct (parse_iphdr ctx ETH_HLEN <? 0); [apply Hearly |].
  pose proof (check_rate_limit_stats (ip_saddr ctx ETH_HLEN) now_ns evicted s0) as Hrl.
  destruct (check_rate_limit (ip_saddr ctx ETH_HLEN) now_ns evicted s0) as [a s1].
  cbn [fst snd] in Hrl. rewrite Hs0 in Hrl.
  destruct (decide (a = XDP_DROP)) as [-> | Hna].
  { eexists. split; [exact Hrl |]. apply counters_advance_limited. }
  assert (Hlate : forall v,
             exists st',
               stats_map (snd (v : xdp_action, s1)) = Some st'
               /\ counters_advance dest_port (data_end ctx) (fst (v, s1)) st st').
  { intros v. eexists. split; [exact Hrl |]. apply counters_advance_entry. }
  destruct (negb (parse_iphdr ctx ETH_HLEN =? IPPROTO_TCP)); [apply Hlate |].
  destruct (parse_tcphdr ctx (ETH_HLEN + ip_ihl ctx ETH_HLEN * 4) <? 0);
    [apply Hlate |].
  match goal with
  | |- context [if ?c then (XDP_PASS, s1) else _] => destruct c; [apply Hlate |]
  end.
  fold dest_port.
  assert (Hws : forall payload, detect_websocket ctx payload = false).
  { intros payload. unfold detect_websocket.
    destruct (payload + 16 >? data_end ctx); [reflexivity |].
    match goal with |- (if ?c then false else false) = false => destruct c end;
      reflexivity. }
  destruct ((dest_port =? 80) || (dest_port =? 8080)) eqn:E80.
  { rewrite Hws. cbn [fst snd with_stats stats_map]. rewrite Hrl.
    eexists. split; [reflexivity |].
    apply orb_true_iff in E80. rewrite !Z.eqb_eq in E80.
    apply counters_advance_protocols; intros; try discriminate; tauto. }
  destruct ((dest_port =? 443) || (dest_port =? 8443)) eqn:E443.
  { cbn [fst snd with_stats stats_map]. rewrite Hrl.
    eexists. split; [reflexivity |].
    apply orb_true_iff in E443. rewrite !Z.eqb_eq in E443.
    apply counters_advance_protocols; intros; try discriminate; tauto. }
  destruct (dest_port =? 50051) eqn:E50051.
  { cbn [fst snd with_stats stats_map]. rewrite Hrl.
    eexists. split; [reflexivity |]. apply Z.eqb_eq in E50051.
    apply counters_advance_protocols; intros; try discriminate; tauto. }
  cbn [fst snd with_stats stats_map]. rewrite Hrl.
  eexists. split; [reflexivity |].
  apply counters_advance_protocols; intros; discriminate.
Qed.

Lemma X27_witness :
  exists st',
    stats_map (snd (xdp_envoy_filter (Samples.tcp_packet 443 [0x16; 0x03; 0x03]) 5 []
                      counting_state)) = Some st'
    /\ counters_advance
         (tcp_dest (Samples.tcp_packet 443 [0x16; 0x03; 0x03])
            (ETH_HLEN + ip_ihl (Samples.tcp_packet 443 [0x16; 0x03; 0x03]) ETH_HLEN * 4))
         (data_end (Samples.tcp_packet 443 [0x16; 0x03; 0x03]))
         (fst (xdp_envoy_filter (Samples.tcp_packet 443 [0x16; 0x03; 0x03]) 5 []
                 counting_state))
         {| total_packets := 0; total_bytes := 0; http_packets := 0;
            https_packets := 0; http2_packets := 0; grpc_packets := 0;
            websocket_packets := 0; rate_limited := 0; dropped := 0 |} st'.
Proof. apply X27_protocol_counters_port_gated. reflexivity. Defined.

Lemma starts_with4_true ctx payload c0 c1 c2 c3 :
  starts_with4 ctx payload c0 c1 c2 c3 = true ->
  load_u8 ctx payload = c0 /\ load_u8 ctx (payload + 1) = c1
  /\ load_u8 ctx (payload + 2) = c2 /\ load_u8 ctx (payload + 3) = c3.
Proof.
  unfold starts_with4. rewrite !andb_true_iff, !Z.eqb_eq. tauto.
Qed.

(** X28.  The two detectors applied on ports 80 and 8080 exclude each
    other: a payload that [detect_http] recognises by its method prefix is
    never recognised by [detect_http2], so no packet is counted both as
    HTTP/1 and as HTTP/2 there. *)
Theorem X28_http_excludes_http2 (ctx : xdp_md) (payload : Z)
    (Hhttp : detect_http ctx payload = true) :
  detect_http2 ctx payload = false.
Proof.
  unfold detect_http in Hhttp.
  destruct (payload + 4 >? data_end ctx); [discriminate |].
  assert (Hbytes : load_u8 ctx (payload + 3) <> 4
                   /\ (load_u8 ctx payload = 80 -> load_u8 ctx (payload + 1) <> 82)).
  { rewrite !orb_true_iff in Hhttp.
    destruct Hhttp as [[[[[[H | H] | H] | H] | H] | H] | H];
      apply starts_with4_true in H; destruct H as (H0 & H1 & H2 & H3);
      rewrite H0, H1, H3; split; intros; discriminate. }
  destruct Hbytes as [H3 H01].
  unfold detect_http2.
  destruct (payload + 9 >? data_end ctx); [reflexivity |].
  destruct (starts_with4 ctx payload 80 82 73 32) eqn:Epri.
  { apply starts_with4_true in Epri. destruct Epri as (H0 & H1 & _).
    now destruct (H01 H0). }
  rewrite (proj2 (Z.eqb_neq _ _) H3). now rewrite andb_false_r.
Qed.

Lemma X28_witness :
  detect_http2 (Samples.tcp_packet 80 [71; 69; 84; 32; 47; 32; 72; 84; 84; 80]) 54
  = false.
Proof. apply X28_http_excludes_http2. vm_compute. reflexivity. Defined.

End EnvoyFilter.
